(** * A shallow embedding of the limit order book of [lob.py]

    The engine of [lob.py] is the class [LimitOrderBook]: two half-books
    ([_book_data['B']] and [_book_data['S']]), each a dictionary from a
    price to an ordered dictionary of resting orders keyed by order number,
    an event journal, a trade journal and two counters.  Its methods
    mutate that object and may raise; they are embedded here as functions
    in a state-and-exception monad over a record of the object's fields.

    Conventions of the embedding:
    - prices are only ever compared and used as dictionary keys, never
      computed with; they are integers here (a price in hundredths);
    - volumes are integers ([0.0] is [0]);
    - [trans_date] is the row's date as parsed by
      [strptime(..., '%m/%d/%Y')];
    - the logger is not part of the state; the one place where building a
      log message raises (formatting a [None] price with [%f] in
      [price_level]) is kept as the exception it is. *)

From Stdlib Require Import ZArith String Lia.
From stdpp Require Import gmap list.

Open Scope Z_scope.

(** ** Orders, trades, events *)

(** [buy_sell_indicator]: ['B'], ['S'], or any other text. *)
Inductive Indicator := BUY | SELL | NoSide.

(** Aliases of the source: [BID = BUY = 'B'], [ASK = SELL = 'S']. *)
Definition BID := BUY.
Definition ASK := SELL.

(** [mkt_flag]: ['Y'], ['N'], or any other text. *)
Inductive MktFlag := MktY | MktN | MktOther.

Record Date := { date_month : Z; date_day : Z; date_year : Z }.

(** The columns of a row that the engine reads (the other columns of
    [col_names] are carried along and never looked at). *)
Record Order := {
  order_number : Z;
  trans_date : Date;
  trans_time : string;
  buy_sell_indicator : Indicator;
  activity_type : Z;
  volume_disclosed : Z;
  volume_original : Z;
  limit_price : Z;
  mkt_flag : MktFlag
}.

Definition with_volume_original (v : Z) (o : Order) : Order :=
  {| order_number := order_number o; trans_date := trans_date o;
     trans_time := trans_time o; buy_sell_indicator := buy_sell_indicator o;
     activity_type := activity_type o; volume_disclosed := volume_disclosed o;
     volume_original := v; limit_price := limit_price o;
     mkt_flag := mkt_flag o |}.

Definition with_volume_disclosed (v : Z) (o : Order) : Order :=
  {| order_number := order_number o; trans_date := trans_date o;
     trans_time := trans_time o; buy_sell_indicator := buy_sell_indicator o;
     activity_type := activity_type o; volume_disclosed := v;
     volume_original := volume_original o; limit_price := limit_price o;
     mkt_flag := mkt_flag o |}.

(** The [trade] dictionary built at each fill. *)
Record Trade := {
  trade_price : Z;
  trade_quantity : Z;
  buy_order_number : Z;
  sell_order_number : Z
}.

Inductive Action := ActAdd | ActModify | ActCancel.

(** The keyword arguments handed to [record_event].  [ev_trade = None] is
    the empty dictionary [{}]. *)
Record Event := {
  ev_time : string;
  ev_date : Date;
  ev_price : Z;
  ev_order_number : Z;
  ev_action : Action;
  ev_indicator : Indicator;
  ev_mkt_flag : MktFlag;
  ev_volume_original : Z;
  ev_volume_disclosed : Z;
  ev_best_bid : option Z;
  ev_best_bid_volume_original : Z;
  ev_best_ask : option Z;
  ev_best_ask_volume_original : Z;
  ev_trade : option Trade
}.

Definition with_trade (t : Trade) (e : Event) : Event :=
  {| ev_time := ev_time e; ev_date := ev_date e; ev_price := ev_price e;
     ev_order_number := ev_order_number e; ev_action := ev_action e;
     ev_indicator := ev_indicator e; ev_mkt_flag := ev_mkt_flag e;
     ev_volume_original := ev_volume_original e;
     ev_volume_disclosed := ev_volume_disclosed e;
     ev_best_bid := ev_best_bid e;
     ev_best_bid_volume_original := ev_best_bid_volume_original e;
     ev_best_ask := ev_best_ask e;
     ev_best_ask_volume_original := ev_best_ask_volume_original e;
     ev_trade := Some t |}.

(** The four fields of an event that hold the top of the book as it was
    when the action entered. *)
Definition ev_snapshot (e : Event) : option Z * Z * option Z * Z :=
  (ev_best_bid e, ev_best_bid_volume_original e,
   ev_best_ask e, ev_best_ask_volume_original e).

(** ** Ordered dictionaries

    [odict.odict]: a dictionary that remembers insertion order.  Assigning
    to a key that is present replaces the value where it stands; assigning
    to a new key appends. *)
Module odict.

Abbreviation t V := (list (Z * V)) (only parsing).

Section ops.
Context {V : Type}.

Fixpoint get (k : Z) (od : t V) : option V :=
  match od with
  | [] => None
  | (k', v) :: od' => if Z.eqb k k' then Some v else get k od'
  end.

Fixpoint set (k : Z) (v : V) (od : t V) : t V :=
  match od with
  | [] => [(k, v)]
  | (k', v') :: od' =>
      if Z.eqb k k' then (k, v) :: od' else (k', v') :: set k v od'
  end.

(** [od.pop(k)]: [None] stands for [KeyError]. *)
Fixpoint pop (k : Z) (od : t V) : option (t V) :=
  match od with
  | [] => None
  | (k', v) :: od' =>
      if Z.eqb k k' then Some od'
      else match pop k od' with
           | Some r => Some ((k', v) :: r)
           | None => None
           end
  end.

Definition keys (od : t V) : list Z := map fst od.
Definition values (od : t V) : list V := map snd od.

(** [not od] *)
Definition is_empty (od : t V) : bool :=
  match od with [] => true | _ => false end.
End ops.

End odict.

(** ** The state of a [LimitOrderBook] object *)

Record LimitOrderBook := {
  book_data_B : gmap Z (odict.t Order);     (* _book_data['B'] *)
  book_data_S : gmap Z (odict.t Order);     (* _book_data['S'] *)
  event_counter : Z;                        (* _event_counter *)
  trade_counter : Z;                        (* _trade_counter *)
  trades : odict.t Trade;                   (* _trades *)
  events : odict.t Event                    (* _events *)
}.

(** [LimitOrderBook.__init__] *)
Definition init : LimitOrderBook :=
  {| book_data_B := ∅; book_data_S := ∅;
     event_counter := 1; trade_counter := 1;
     trades := []; events := [] |}.

(** [self._book_data[indicator]]; [None] stands for [KeyError]. *)
Definition book_data (indicator : Indicator) (s : LimitOrderBook)
  : option (gmap Z (odict.t Order)) :=
  match indicator with
  | BUY => Some (book_data_B s)
  | SELL => Some (book_data_S s)
  | NoSide => None
  end.

Definition set_book_data (indicator : Indicator)
    (book : gmap Z (odict.t Order)) (s : LimitOrderBook) : LimitOrderBook :=
  match indicator with
  | BUY => {| book_data_B := book; book_data_S := book_data_S s;
              event_counter := event_counter s;
              trade_counter := trade_counter s;
              trades := trades s; events := events s |}
  | SELL => {| book_data_B := book_data_B s; book_data_S := book;
               event_counter := event_counter s;
               trade_counter := trade_counter s;
               trades := trades s; events := events s |}
  | NoSide => s
  end.

(** ** Exceptions and the monad *)

Inductive exn :=
| RuntimeError | ValueError | KeyError | TypeError
| AttributeError | UnboundLocalError.

(** A call either returns a value, or raises; both leave a state behind.
    [OutOfFuel] is the result of a loop that was not given enough
    iterations: [add_total] and [process_total] show that it never arises. *)
Inductive outcome (A : Type) : Type :=
| Return (a : A) (s : LimitOrderBook)
| Raise (e : exn) (s : LimitOrderBook)
| OutOfFuel.
Arguments Return {A} a s.
Arguments Raise {A} e s.
Arguments OutOfFuel {A}.

Definition M (A : Type) : Type := LimitOrderBook → outcome A.

Definition ret {A} (a : A) : M A := λ s, Return a s.

Definition bind {A B} (c : M A) (k : A → M B) : M B :=
  λ s, match c s with
       | Return a s' => k a s'
       | Raise e s' => Raise e s'
       | OutOfFuel => OutOfFuel
       end.

Definition raise {A} (e : exn) : M A := λ s, Raise e s.

Notation "x <~ c ; k" := (bind c (λ x, k))
  (at level 100, c at next level, right associativity,
   format "'[v' x  <~  c ; '/' k ']'").
Notation "c >> k" := (bind c (λ _, k))
  (at level 100, right associativity, only parsing).

Definition get_state : M LimitOrderBook := λ s, Return s s.

(** ** Book primitives *)

(** [self._book_data[X].keys()] *)
Definition prices (book : gmap Z (odict.t Order)) : list Z :=
  (map_to_list book).*1.

(** [clear_book], lines 105-119 *)
Definition clear_book : M unit := λ s,
  Return tt {| book_data_B := ∅; book_data_S := ∅;
               event_counter := event_counter s;
               trade_counter := 1;
               trades := trades s; events := events s |}.

(** [create_level], lines 208-230 *)
Definition create_level (indicator : Indicator) (price : Z)
  : M (odict.t Order) := λ s,
  match book_data indicator s with
  | None => Raise KeyError s
  | Some book =>
      Return [] (set_book_data indicator (<[price := []]> book) s)
  end.

(** [delete_level], lines 232-246 *)
Definition delete_level (indicator : Indicator) (price : Z) : M unit := λ s,
  match book_data indicator s with
  | None => Raise KeyError s
  | Some book =>
      match book !! price with
      | None => Raise KeyError s
      | Some _ => Return tt (set_book_data indicator (delete price book) s)
      end
  end.

(** [delete_order], lines 248-275 *)
Definition delete_order (indicator : Indicator) (price : Z)
    (number : Z) : M unit := λ s,
  match book_data indicator s with
  | None => Raise KeyError s
  | Some book =>
      match book !! price with
      | None => Raise KeyError s
      | Some od =>
          match odict.pop number od with
          | None => Raise KeyError s
          | Some od' =>
              let s' := set_book_data indicator (<[price := od']> book) s in
              if odict.is_empty od' then delete_level indicator price s'
              else Return tt s'
          end
      end
  end.

(** The body shared by [best_bid_price] (lines 277-299, with [max]) and
    [best_ask_price] (lines 325-347, with [min]). *)
Definition best_price_of (indicator : Indicator) (pick : Z → Z → Z)
  : M (option Z) := λ s,
  match book_data indicator s with
  | None => Raise KeyError s
  | Some book =>
      match prices book with
      | [] => Return None s
      | p :: ps =>
          let best_price := foldr pick p ps in
          match book !! best_price with
          | None => Raise KeyError s
          | Some od =>
              if odict.is_empty od then Raise RuntimeError s
              else Return (Some best_price) s
          end
      end
  end.

Definition best_bid_price : M (option Z) := best_price_of BID Z.max.
Definition best_ask_price : M (option Z) := best_price_of ASK Z.min.

(** [price_level], lines 373-405.  The argument is [None] when the caller
    passes the [None] that a best-price query returned: then [book[None]]
    fails, and so does the [%f] of the message logged in the handler. *)
Definition price_level (indicator : Indicator) (price : option Z)
  : M (option (odict.t Order)) := λ s,
  match book_data indicator s with
  | None => Raise ValueError s
  | Some book =>
      match price with
      | None => Raise TypeError s
      | Some p => Return (book !! p) s
      end
  end.

Definition sum_Z (l : list Z) : Z := foldr Z.add 0 l.

(** The body shared by [best_bid_quantity] (lines 301-323) and
    [best_ask_quantity] (lines 349-371). *)
Definition best_quantity_of (indicator : Indicator)
    (best_price : M (option Z)) : M (Z * Z) :=
  bp <~ best_price;
  match bp with
  | Some p =>
      od <~ price_level indicator (Some p);
      match od with
      | Some od =>
          ret (sum_Z (volume_original <$> odict.values od),
               sum_Z (volume_disclosed <$> odict.values od))
      | None => raise AttributeError
      end
  | None => ret (0, 0)
  end.

Definition best_bid_quantity : M (Z * Z) := best_quantity_of BID best_bid_price.
Definition best_ask_quantity : M (Z * Z) := best_quantity_of ASK best_ask_price.

(** [record_event], lines 407-426:
    [self._events[self._event_counter] = kwargs] and
    [self._event_counter += 1]. *)
Definition write_event (e : Event) (s : LimitOrderBook) : LimitOrderBook :=
  {| book_data_B := book_data_B s; book_data_S := book_data_S s;
     event_counter := event_counter s + 1;
     trade_counter := trade_counter s;
     trades := trades s;
     events := odict.set (event_counter s) e (events s) |}.

Definition record_event (e : Event) : M unit := λ s,
  Return tt (write_event e s).

(** [od[k]] and [od[k] = v] for the queue [od] that the book holds at
    [_book_data[indicator][price]]: the source keeps a reference to that
    queue in a local variable and reads and writes through it. *)
Definition level_getitem (indicator : Indicator) (price : Z) (k : Z)
  : M Order := λ s,
  match book_data indicator s with
  | None => Raise KeyError s
  | Some book =>
      match book !! price with
      | None => Raise KeyError s
      | Some od =>
          match odict.get k od with
          | None => Raise KeyError s
          | Some o => Return o s
          end
      end
  end.

Definition level_setitem (indicator : Indicator) (price : Z) (k : Z)
    (v : Order) : M unit := λ s,
  match book_data indicator s with
  | None => Raise KeyError s
  | Some book =>
      match book !! price with
      | None => Raise KeyError s
      | Some od =>
          Return tt
            (set_book_data indicator (<[price := odict.set k v od]> book) s)
      end
  end.

(** ** [add], lines 428-698 *)

(** The [event] dictionary built on entry of [add] (lines 448-462),
    [modify] (709-723) and [cancel] (815-829): the fields of the action
    and the top of the book, with an empty [trade]. *)
Definition make_event (action : Action) (new_order : Order)
    (best_bid : option Z) (best_bid_volume_original : Z)
    (best_ask : option Z) (best_ask_volume_original : Z) : Event :=
  {| ev_time := trans_time new_order;
     ev_date := trans_date new_order;
     ev_price := limit_price new_order;
     ev_order_number := order_number new_order;
     ev_action := action;
     ev_indicator := buy_sell_indicator new_order;
     ev_mkt_flag := mkt_flag new_order;
     ev_volume_original := volume_original new_order;
     ev_volume_disclosed := volume_disclosed new_order;
     ev_best_bid := best_bid;
     ev_best_bid_volume_original := best_bid_volume_original;
     ev_best_ask := best_ask;
     ev_best_ask_volume_original := best_ask_volume_original;
     ev_trade := None |}.

(** The first statements of [add], [modify] and [cancel]: query the top
    of the book and build the event. *)
Definition entry_event (action : Action) (new_order : Order) : M Event :=
  bbq <~ best_bid_quantity;
  baq <~ best_ask_quantity;
  best_bid <~ best_bid_price;
  best_ask <~ best_ask_price;
  ret (make_event action new_order best_bid bbq.1 best_ask baq.1).

(** The local variables [buy_order] and [sell_order] of [add]; only their
    ['order_number'] is ever read.  [None] is an unbound variable. *)
Record Sides := { buy_order : option Z; sell_order : option Z }.

Definition bind_side (indicator : Indicator) (number : Z) (l : Sides)
  : Sides :=
  match indicator with
  | BUY => {| buy_order := Some number; sell_order := sell_order l |}
  | SELL => {| buy_order := buy_order l; sell_order := Some number |}
  | NoSide => l
  end.

(** [dict(trade_price=..., trade_quantity=..., buy_order_number=
    buy_order['order_number'], sell_order_number=
    sell_order['order_number'])] *)
Definition make_trade (best_price quantity : Z) (l : Sides) : M Trade :=
  match buy_order l, sell_order l with
  | Some b, Some a =>
      ret {| trade_price := best_price; trade_quantity := quantity;
             buy_order_number := b; sell_order_number := a |}
  | _, _ => raise UnboundLocalError
  end.

(** The quantity of the trade recorded when the resting volume [R] is
    below the residual [V]: [curr_order['volume_original']] in the
    market-order loop (line 559), [volume_original] in the limit-order
    loop (line 685). *)
Definition below_quantity (market : bool) (R V : Z) : Z :=
  if market then R else V.

(** The [for order_number in od.keys()] loop, lines 500-570 (market
    orders) and 626-696 (marketable limit orders).  [side] and
    [best_price] name the queue [od]; [V] is [volume_original].  The
    loop returns the residual and the two locals; after a [break] the
    residual is [0]. *)
Fixpoint sweep_for (market : bool) (side : Indicator) (best_price : Z)
    (event : Event) (keys : list Z) (V : Z) (l : Sides)
  : M (Z * Sides) :=
  match keys with
  | [] => ret (V, l)
  | number :: keys' =>
      curr_order <~ level_getitem side best_price number;
      let l := bind_side (buy_sell_indicator curr_order)
                         (order_number curr_order) l in
      let R := volume_original curr_order in
      if R =? V then
        trade <~ make_trade best_price V l;
        (record_event (with_trade trade event) >>
         delete_order (buy_sell_indicator curr_order) best_price number >>
         ret (0, l))
      else if R >? V then
        trade <~ make_trade best_price (R - V) l;
        (record_event (with_trade trade event) >>
         level_setitem side best_price number
           (with_volume_original (R - V) curr_order) >>
         ret (0, l))
      else if R <? V then
        trade <~ make_trade best_price (below_quantity market R V) l;
        (record_event (with_trade trade event) >>
         delete_order (buy_sell_indicator curr_order) best_price number >>
         sweep_for market side best_price event keys' (V - R) l)
      else
        sweep_for market side best_price event keys' V l
  end.

(** The [while volume_original > 0] loop, lines 476-570 (market orders)
    and 612-696 (marketable limit orders). *)
Fixpoint sweep_while (fuel : nat) (market : bool) (new_order : Order)
    (event : Event) (V : Z) (l : Sides) : M unit :=
  if V >? 0 then
    match fuel with
    | O => λ _, OutOfFuel
    | S fuel' =>
        match buy_sell_indicator new_order with
        | BUY =>
            let l := bind_side BUY (order_number new_order) l in
            best_price <~ best_ask_price;
            od <~ price_level ASK best_price;
            match od, best_price with
            | Some od, Some p =>
                r <~ sweep_for market ASK p event (odict.keys od) V l;
                sweep_while fuel' market new_order event r.1 r.2
            | _, _ => raise AttributeError
            end
        | SELL =>
            let l := bind_side SELL (order_number new_order) l in
            best_price <~ best_bid_price;
            od <~ price_level BID best_price;
            match od, best_price with
            | Some od, Some p =>
                r <~ sweep_for market BID p event (odict.keys od) V l;
                sweep_while fuel' market new_order event r.1 r.2
            | _, _ => raise AttributeError
            end
        | NoSide => raise UnboundLocalError
        end
    end
  else ret tt.

(** The number of orders resting in a half-book, and in the book.  Every
    turn of the [while] loop that does not end the sweep removes at least
    one resting order, so this bounds the number of turns. *)
Definition resting_in (book : gmap Z (odict.t Order)) : nat :=
  map_fold (λ _ od n, (length od + n)%nat) 0%nat book.

Definition resting (s : LimitOrderBook) : nat :=
  (resting_in (book_data_B s) + resting_in (book_data_S s))%nat.

Definition no_sides : Sides := {| buy_order := None; sell_order := None |}.

(** [sweep_while] started the way [add] starts it. *)
Definition sweep (market : bool) (new_order : Order) (event : Event)
  : M unit :=
  s <~ get_state;
  sweep_while (S (resting s)) market new_order event
    (volume_original new_order) no_sides.

(** The marketability test, lines 575-584.  (The source queries the best
    price up to three times in a row; the book does not change in
    between.) *)
Definition is_marketable (indicator : Indicator) (price : Z) : M bool :=
  match indicator with
  | BUY =>
      best_ask <~ best_ask_price;
      ret match best_ask with
          | Some a => price >=? a
          | None => false
          end
  | SELL =>
      best_bid <~ best_bid_price;
      ret match best_bid with
          | Some b => price <=? b
          | None => false
          end
  | NoSide => ret false
  end.

Definition add (new_order : Order) : M unit :=
  event <~ entry_event ActAdd new_order;
  let indicator := buy_sell_indicator new_order in
  match mkt_flag new_order with
  | MktY => sweep true new_order event
  | MktN =>
      let price := limit_price new_order in
      marketable <~ is_marketable indicator price;
      if negb marketable then
        od <~ price_level indicator (Some price);
        (match od with
         | None => create_level indicator price >> ret tt
         | Some _ => ret tt
         end >>
         level_setitem indicator price (order_number new_order) new_order >>
         record_event event)
      else sweep false new_order event
  | MktOther => raise RuntimeError
  end.

(** ** [modify], lines 700-798 *)
Definition modify (new_order : Order) : M unit :=
  event <~ entry_event ActModify new_order;
  match mkt_flag new_order with
  | MktY => raise ValueError
  | _ =>
      let indicator := buy_sell_indicator new_order in
      let price := limit_price new_order in
      let number := order_number new_order in
      od <~ price_level indicator (Some price);
      (match od with
       | Some od =>
           match odict.get number od with
           | None => ret tt
           | Some old_order =>
               if negb (limit_price new_order =? limit_price old_order) then
                 delete_order (buy_sell_indicator old_order)
                              (limit_price old_order) number >>
                 add new_order
               else if volume_original new_order <? volume_original old_order
               then level_setitem indicator price number new_order
               else if volume_disclosed new_order <? volume_disclosed old_order
               then level_setitem indicator price number new_order
               else if volume_original new_order >? volume_original old_order
               then add (with_volume_original
                           (volume_original new_order
                            - volume_original old_order) new_order)
               else if volume_disclosed new_order >? volume_disclosed old_order
               then add (with_volume_disclosed
                           (volume_disclosed new_order
                            - volume_disclosed old_order) new_order)
               else ret tt
           end
       | None => ret tt
       end >>
       record_event event)
  end.

(** ** [cancel], lines 800-859 *)
Definition cancel (order : Order) : M unit :=
  event <~ entry_event ActCancel order;
  match mkt_flag order with
  | MktY => raise ValueError
  | _ =>
      let indicator := buy_sell_indicator order in
      let price := limit_price order in
      let number := order_number order in
      od <~ price_level indicator (Some price);
      (match od with
       | Some od =>
           match odict.get number od with
           | None => ret tt
           | Some _ => delete_order indicator price number
           end
       | None => ret tt
       end >>
       best_bid_quantity >>
       best_ask_quantity >>
       record_event event)
  end.

(** ** [process], lines 121-159 *)

(** The dispatch on [activity_type], lines 146-159. *)
Definition dispatch (order : Order) : M unit :=
  if activity_type order =? 1 then add order
  else if activity_type order =? 3 then cancel order
  else if activity_type order =? 4 then
    match mkt_flag order with
    | MktY => add order
    | _ => modify order
    end
  else raise ValueError.

(** The day check, lines 138-144: [day] is the local variable of that
    name, [None] before the first row; the result is its value after the
    check. *)
Definition check_day (day : option Z) (order : Order) : M (option Z) :=
  let trans_day := date_day (trans_date order) in
  match day with
  | None => ret (Some trans_day)
  | Some d =>
      if negb (d =? trans_day) then clear_book >> ret day
      else ret day
  end.

(** One turn of the loop over the rows. *)
Definition process_row (day : option Z) (order : Order) : M (option Z) :=
  day <~ check_day day order;
  dispatch order >>
  ret day.

Fixpoint process_from (day : option Z) (df : list Order) : M unit :=
  match df with
  | [] => ret tt
  | order :: df' =>
      day <~ process_row day order;
      process_from day df'
  end.

Definition process (df : list Order) : M unit := process_from None df.

(** ** Rows for the examples *)

Definition a_date (d : Z) : Date :=
  {| date_month := 1; date_day := d; date_year := 2020 |}.

Definition row (number : Z) (day : Z) (side : Indicator) (activity : Z)
    (disclosed original price : Z) (flag : MktFlag) : Order :=
  {| order_number := number; trans_date := a_date day;
     trans_time := "09:15:00"; buy_sell_indicator := side;
     activity_type := activity; volume_disclosed := disclosed;
     volume_original := original; limit_price := price;
     mkt_flag := flag |}.

(** ** Specifications of computations *)

(** [post c s Q]: if [c] returns from [s], the result and the state it
    leaves satisfy [Q]. *)
Definition post {A} (c : M A) (s : LimitOrderBook)
    (Q : A → LimitOrderBook → Prop) : Prop :=
  ∀ a s', c s = Return a s' → Q a s'.

(** A computation that only reads the book. *)
Definition readonly {A} (c : M A) : Prop :=
  ∀ s, post c s (λ _ s', s' = s).

(** A computation that keeps an invariant of the book whenever it
    returns. *)
Definition preserves (I : LimitOrderBook → Prop) {A} (c : M A) : Prop :=
  ∀ s, I s → post c s (λ _, I).

(** ** The invariant of the price levels

    No price level that a half-book holds is empty (the assumption that
    the docstrings of [best_bid_price] and [best_ask_price] make). *)
Definition no_empty_level_in (book : gmap Z (odict.t Order)) : Prop :=
  map_Forall (λ _ od, odict.is_empty od = false) book.

Definition no_empty_levels (s : LimitOrderBook) : Prop :=
  no_empty_level_in (book_data_B s) ∧ no_empty_level_in (book_data_S s).

(** A computation that always either returns or raises. *)
Definition total {A} (c : M A) : Prop := ∀ s, c s ≠ OutOfFuel.

(** ** Locating an order

    [modify] and [cancel] look an order up by its side, its price and its
    number: [price_level(indicator, price)], then [od[order_number]]. *)
Definition locate (order : Order) (s : LimitOrderBook) : option Order :=
  match book_data (buy_sell_indicator order) s with
  | None => None
  | Some book =>
      match book !! limit_price order with
      | None => None
      | Some od => odict.get (order_number order) od
      end
  end.

(** ** Streams used in the examples *)

(** Three buy orders at 49.00, 48.00 and 47.00 on the days 1, 2 and 1. *)
Definition days_1_2_1 : list Order :=
  [ row 1 1 BUY 1 100 100 4900 MktN;
    row 2 2 BUY 1 100 100 4800 MktN;
    row 3 1 BUY 1 100 100 4700 MktN ].

(** Scenario 2 of the specification: sell 100 at 50.00 (#1), sell 100 at
    50.05 (#2), then a buy of 150 (#3), as a limit order at 50.05 or as a
    market order. *)
Definition two_asks : list Order :=
  [ row 1 1 SELL 1 100 100 5000 MktN;
    row 2 1 SELL 1 100 100 5005 MktN ].

Definition limit_buy_150 : Order := row 3 1 BUY 1 150 150 5005 MktN.
Definition market_buy_150 : Order := row 3 1 BUY 1 150 150 0 MktY.

(** Scenario 3: sell 100 at 50.00 (#1), then a market buy of 200 (#2). *)
Definition one_ask : list Order := [ row 1 1 SELL 1 100 100 5000 MktN ].
Definition market_buy_200 : Order := row 2 1 BUY 1 200 200 0 MktY.

(** Scenario 1: sell 100 at 50.00 (#1), then buy 100 at 50.00 (#2). *)
Definition limit_buy_100 : Order := row 2 1 BUY 1 100 100 5000 MktN.

(** A resting bid of 100 at 49.00 (#1), disclosed 10, and modifies of it:
    to the price 48.00, and to the disclosed volume 20. *)
Definition one_bid : list Order := [ row 1 1 BUY 1 10 100 4900 MktN ].
Definition reprice_bid : Order := row 1 1 BUY 4 10 100 4800 MktN.
Definition disclose_more : Order := row 1 1 BUY 4 20 100 4900 MktN.

(** A second add under the number of the resting bid, another bid at the
    same price, and a cancel of an order that does not rest. *)
Definition same_number_bid : Order := row 1 1 BUY 1 50 50 4900 MktN.
Definition second_bid : Order := row 2 1 BUY 1 50 50 4900 MktN.
Definition cancel_unknown : Order := row 7 1 BUY 3 50 50 4900 MktN.

(** The book that [process] leaves after a stream handled from a new
    book. *)
Definition state_of (df : list Order) : LimitOrderBook :=
  match process df init with
  | Return _ s => s
  | Raise _ s => s
  | OutOfFuel => init
  end.

(** The trade that an event carries, by event number. *)
Definition trade_of_event (n : Z) (s : LimitOrderBook) : option Trade :=
  match odict.get n (events s) with
  | Some e => ev_trade e
  | None => None
  end.

(** ** The volume resting under an order number *)

Definition queue_volume_of (number : Z) (od : odict.t Order) : Z :=
  sum_Z (map (λ kv, if kv.1 =? number then volume_original kv.2 else 0) od).

Definition half_volume_of (number : Z) (book : gmap Z (odict.t Order)) : Z :=
  map_fold (λ _ od v, queue_volume_of number od + v) 0 book.

Definition resting_volume_of (number : Z) (s : LimitOrderBook) : Z :=
  half_volume_of number (book_data_B s) + half_volume_of number (book_data_S s).

(** ** The book is not crossed

    Every price at which bids rest is below every price at which asks
    rest. *)
Definition uncrossed (s : LimitOrderBook) : Prop :=
  ∀ bid ask,
    bid ∈ dom (book_data_B s) → ask ∈ dom (book_data_S s) → bid < ask.

(** ** How the book files its orders

    An order that rests in the queue of a price in a half-book is filed
    there under its own number, and carries that price and the side of
    the half-book. *)
Definition filed_in (side : Indicator) (book : gmap Z (odict.t Order))
  : Prop :=
  ∀ price od k o,
    book !! price = Some od → (k, o) ∈ od →
    order_number o = k ∧ limit_price o = price
    ∧ buy_sell_indicator o = side.

Definition filed (s : LimitOrderBook) : Prop :=
  filed_in BUY (book_data_B s) ∧ filed_in SELL (book_data_S s).

(** No queue holds two orders under one number. *)
Definition unique_numbers_in (book : gmap Z (odict.t Order)) : Prop :=
  map_Forall (λ _ od, NoDup (odict.keys od)) book.

Definition unique_numbers (s : LimitOrderBook) : Prop :=
  unique_numbers_in (book_data_B s) ∧ unique_numbers_in (book_data_S s).

(** The events are numbered 1, 2, ... in the order in which they were
    written, and the counter is the next number. *)
Definition journal_numbered (s : LimitOrderBook) : Prop :=
  1 ≤ event_counter s
  ∧ odict.keys (events s) = seqZ 1 (event_counter s - 1).

(** The half-book on the other side. *)
Definition opposite (indicator : Indicator) : Indicator :=
  match indicator with
  | BUY => SELL
  | SELL => BUY
  | NoSide => NoSide
  end.

(** ** More streams for the examples *)

(** A bid of 100 at 49.00 (#1) and an ask of 100 at 50.00 (#2). *)
Definition bid_and_ask : list Order :=
  [ row 1 1 BUY 1 10 100 4900 MktN;
    row 2 1 SELL 1 10 100 5000 MktN ].

(** ** The first fill of a sweep *)

(** The best-price query that the sweep of an order of a side makes: the
    best ask for a buy (lines 479 and 615), the best bid for a sell
    (lines 488 and 619). *)
Definition best_opposite_price (side : Indicator) : M (option Z) :=
  match side with
  | BUY => best_ask_price
  | SELL => best_bid_price
  | NoSide => raise UnboundLocalError
  end.

(** The trade of an incoming order of a side with a resting order: the
    incoming order fills the slot of its side, the resting order the
    other one. *)
Definition trade_between (side : Indicator) (price quantity : Z)
    (incoming resting : Z) : Trade :=
  match side with
  | BUY => {| trade_price := price; trade_quantity := quantity;
              buy_order_number := incoming; sell_order_number := resting |}
  | _ => {| trade_price := price; trade_quantity := quantity;
            buy_order_number := resting; sell_order_number := incoming |}
  end.

(** [s'] differs from [s] in the half-book of one side at most. *)
Definition touches_only (side : Indicator) (s s' : LimitOrderBook) : Prop :=
  ∀ ind, ind ≠ side → book_data ind s' = book_data ind s.

(** ** What a call may raise

    [raises c s X]: if [c] raises from [s], the exception and the state
    that it leaves behind satisfy [X]. *)
Definition raises {A} (c : M A) (s : LimitOrderBook)
    (X : exn → LimitOrderBook → Prop) : Prop :=
  ∀ e s', c s = Raise e s' → X e s'.

(** The local variable of the incoming order is bound when the loop over
    the queue of the resting side starts. *)
Definition other_bound (side : Indicator) (l : Sides) : Prop :=
  match side with
  | BUY => is_Some (sell_order l)
  | SELL => is_Some (buy_order l)
  | NoSide => False
  end.

(** What an exception of [add] says about the order and about the book
    that is left: the flag is neither ['Y'] nor ['N'] (line 698); the
    side is neither ['B'] nor ['S'] (line 395 for a limit order, the
    unbound [od] of line 500 for a market order); or the sweep found the
    other side of the book empty (the [%f] of line 401 applied to
    [None]). *)
Definition add_raises (order : Order) (e : exn) (s' : LimitOrderBook)
  : Prop :=
  match e with
  | RuntimeError => mkt_flag order = MktOther
  | ValueError => buy_sell_indicator order = NoSide
  | UnboundLocalError =>
      buy_sell_indicator order = NoSide ∧ mkt_flag order = MktY
  | TypeError =>
      buy_sell_indicator order ≠ NoSide
      ∧ book_data (opposite (buy_sell_indicator order)) s' = Some ∅
  | KeyError | AttributeError => False
  end.

(** The same for a row of a stream: [ValueError] is also raised for an
    activity type other than 1, 3 and 4 (line 158) and for the cancel of
    a market order (line 835). *)
Definition row_raises (order : Order) (e : exn) (s' : LimitOrderBook)
  : Prop :=
  match e with
  | ValueError =>
      (activity_type order ≠ 1 ∧ activity_type order ≠ 3
       ∧ activity_type order ≠ 4)
      ∨ (activity_type order = 3 ∧ mkt_flag order = MktY)
      ∨ buy_sell_indicator order = NoSide
  | _ => add_raises order e s'
  end.

(** ** The day of a stream *)

(** The value of the local variable [day] of [process] after the first
    row: the day of that row. *)
Definition first_day (df : list Order) : option Z :=
  match df with
  | [] => None
  | order :: _ => Some (date_day (trans_date order))
  end.
(** * Reasoning about the monad *)

Lemma bind_Return {A B} (c : M A) (k : A → M B) s a s' :
  c s = Return a s' → bind c k s = k a s'.
Proof. unfold bind. intros ->. reflexivity. Qed.

Lemma bind_assoc_at {A B C} (c : M A) (k : A → M B) (k' : B → M C) s :
  bind (bind c k) k' s = bind c (λ a, bind (k a) k') s.
Proof. unfold bind. destruct (c s); reflexivity. Qed.

Lemma bind_ext_at {A B} (c : M A) (k k' : A → M B) s :
  (∀ a s', c s = Return a s' → k a s' = k' a s') →
  bind c k s = bind c k' s.
Proof.
  unfold bind. destruct (c s) as [a s'| |]; intros H;
    [apply H | ..]; reflexivity.
Qed.

Lemma bind_inv_Return {A B} (c : M A) (k : A → M B) s b s2 :
  bind c k s = Return b s2 →
  ∃ a s1, c s = Return a s1 ∧ k a s1 = Return b s2.
Proof.
  unfold bind. destruct (c s) as [a s1| |]; try discriminate.
  intros H. exists a, s1. split; [reflexivity | exact H].
Qed.


Lemma post_ret {A} (a : A) s (Q : A → LimitOrderBook → Prop) :
  Q a s → post (ret a) s Q.
Proof. intros HQ a' s' [= <- <-]. exact HQ. Qed.

Lemma post_raise {A} e s (Q : A → LimitOrderBook → Prop) :
  post (raise e) s Q.
Proof. intros a' s' [=]. Qed.

Lemma post_bind {A B} (c : M A) (k : A → M B) s
    (Q : B → LimitOrderBook → Prop) :
  post c s (λ a s1, post (k a) s1 Q) → post (bind c k) s Q.
Proof.
  intros Hc b s2 Hb. apply bind_inv_Return in Hb as (a & s1 & H1 & H2).
  exact (Hc a s1 H1 b s2 H2).
Qed.

Lemma post_mono {A} (c : M A) s (Q Q' : A → LimitOrderBook → Prop) :
  post c s Q → (∀ a s', Q a s' → Q' a s') → post c s Q'.
Proof. intros Hc HQ a s' H. apply HQ, Hc, H. Qed.


Lemma readonly_ret {A} (a : A) : readonly (ret a).
Proof. intros s. apply post_ret. reflexivity. Qed.

Lemma readonly_raise {A} e : readonly (@raise A e).
Proof. intros s. apply post_raise. Qed.

Lemma readonly_bind {A B} (c : M A) (k : A → M B) :
  readonly c → (∀ a, readonly (k a)) → readonly (bind c k).
Proof.
  intros Hc Hk s. apply post_bind. eapply post_mono; [apply Hc |].
  intros a s' ->. apply Hk.
Qed.


Lemma preserves_ret I {A} (a : A) : preserves I (ret a).
Proof. intros s HI. apply post_ret, HI. Qed.

Lemma preserves_raise I {A} e : preserves I (@raise A e).
Proof. intros s HI. apply post_raise. Qed.

Lemma preserves_bind I {A B} (c : M A) (k : A → M B) :
  preserves I c → (∀ a, preserves I (k a)) → preserves I (bind c k).
Proof.
  intros Hc Hk s HI. apply post_bind. eapply post_mono; [apply Hc, HI |].
  intros a s' HI'. apply Hk, HI'.
Qed.

Lemma readonly_preserves I {A} (c : M A) : readonly c → preserves I c.
Proof. intros Hc s HI a s' H. rewrite (Hc s a s' H). exact HI. Qed.

(** ** The reads of the book *)

Lemma readonly_best_price_of ind pick : readonly (best_price_of ind pick).
Proof.
  intros s a s'. unfold best_price_of.
  destruct (book_data ind s) as [book|]; [|discriminate].
  destruct (prices book) as [|p ps]; [intros [= _ <-]; reflexivity|].
  destruct (book !! foldr pick p ps) as [od|]; [|discriminate].
  destruct (odict.is_empty od); [discriminate|].
  intros [= _ <-]. reflexivity.
Qed.

Lemma readonly_price_level ind price : readonly (price_level ind price).
Proof.
  intros s a s'. unfold price_level.
  destruct (book_data ind s); [|discriminate].
  destruct price; [|discriminate]. intros [= _ <-]. reflexivity.
Qed.

Lemma readonly_best_quantity_of ind bp :
  readonly bp → readonly (best_quantity_of ind bp).
Proof.
  intros Hbp. unfold best_quantity_of. apply readonly_bind; [exact Hbp|].
  intros [p|]; [|apply readonly_ret].
  apply readonly_bind; [apply readonly_price_level|].
  intros [od|]; [apply readonly_ret | apply readonly_raise].
Qed.

Lemma readonly_best_bid_price : readonly best_bid_price.
Proof. apply readonly_best_price_of. Qed.

Lemma readonly_best_ask_price : readonly best_ask_price.
Proof. apply readonly_best_price_of. Qed.

Lemma readonly_best_bid_quantity : readonly best_bid_quantity.
Proof. apply readonly_best_quantity_of, readonly_best_bid_price. Qed.

Lemma readonly_best_ask_quantity : readonly best_ask_quantity.
Proof. apply readonly_best_quantity_of, readonly_best_ask_price. Qed.

Lemma readonly_entry_event action o : readonly (entry_event action o).
Proof.
  unfold entry_event.
  apply readonly_bind; [apply readonly_best_bid_quantity | intros ?].
  apply readonly_bind; [apply readonly_best_ask_quantity | intros ?].
  apply readonly_bind; [apply readonly_best_bid_price | intros ?].
  apply readonly_bind; [apply readonly_best_ask_price | intros ?].
  apply readonly_ret.
Qed.

Lemma readonly_is_marketable ind price : readonly (is_marketable ind price).
Proof.
  destruct ind; simpl.
  - apply readonly_bind; [apply readonly_best_ask_price | intros ?].
    apply readonly_ret.
  - apply readonly_bind; [apply readonly_best_bid_price | intros ?].
    apply readonly_ret.
  - apply readonly_ret.
Qed.

Lemma readonly_level_getitem ind price k : readonly (level_getitem ind price k).
Proof.
  intros s a s'. unfold level_getitem.
  destruct (book_data ind s) as [book|]; [|discriminate].
  destruct (book !! price) as [od|]; [|discriminate].
  destruct (odict.get k od); [|discriminate].
  intros [= _ <-]. reflexivity.
Qed.

Lemma readonly_make_trade p q l : readonly (make_trade p q l).
Proof.
  unfold make_trade. destruct (buy_order l), (sell_order l);
    first [apply readonly_ret | apply readonly_raise].
Qed.

Lemma readonly_get_state : readonly get_state.
Proof. intros s a s' [= _ <-]. reflexivity. Qed.

Create HintDb lob_ro.
#[local] Hint Resolve readonly_best_bid_price readonly_best_ask_price
  readonly_best_bid_quantity readonly_best_ask_quantity
  readonly_entry_event readonly_is_marketable readonly_level_getitem
  readonly_make_trade readonly_get_state readonly_price_level
  readonly_ret readonly_raise : lob_ro.

(** * Invariants of the book

    [add], [modify], [cancel] and [process] change the book through five
    writes only: [record_event], [od[k] = v], [delete_order],
    [clear_book], and [create_level] followed by the store of an order in
    the new level.  A property [I] that these keep is kept by all of
    them.  The events handed to [record_event] are the one built on entry
    and that one with a trade put in; [E] is what is known of them. *)

Ltac reads := apply readonly_preserves; auto with lob_ro.

Section invariant.
Variable I : LimitOrderBook → Prop.
Variable E : Event → Prop.
Hypothesis E_with_trade : ∀ t e, E e → E (with_trade t e).
Hypothesis E_entry_event :
  ∀ action o s, I s → post (entry_event action o) s (λ e _, E e).
Hypothesis I_record_event : ∀ e, E e → preserves I (record_event e).
Hypothesis I_level_setitem :
  ∀ ind price k v, preserves I (level_setitem ind price k v).
Hypothesis I_delete_order :
  ∀ ind price k, preserves I (delete_order ind price k).
Hypothesis I_clear_book : preserves I clear_book.
Hypothesis I_create_level :
  ∀ ind price k v s, I s →
    is_marketable ind price s = Return false s →
    post (create_level ind price) s
         (λ _ s1, post (level_setitem ind price k v) s1 (λ _, I)).

Lemma invariant_sweep_for market side best_price event keys :
  E event →
  ∀ V l, preserves I (sweep_for market side best_price event keys V l).
Proof.
  intros HE.
  induction keys as [|number keys IH]; intros V l; simpl.
  - apply preserves_ret.
  - apply preserves_bind; [reads | intros curr].
    repeat match goal with
           | |- preserves _ (if ?b then _ else _) => destruct b
           end;
      try apply IH;
      (apply preserves_bind; [reads | intros trade];
       apply preserves_bind;
         [apply I_record_event, E_with_trade, HE | intros _];
       apply preserves_bind;
         [first [apply I_delete_order | apply I_level_setitem] | intros _];
       first [apply preserves_ret | apply IH]).
Qed.

Lemma invariant_sweep_while fuel market new_order event :
  E event →
  ∀ V l, preserves I (sweep_while fuel market new_order event V l).
Proof.
  intros HE.
  induction fuel as [|fuel IH]; intros V l; simpl;
    (destruct (V >? 0); [|apply preserves_ret]).
  - intros s _ a s' [=].
  - destruct (buy_sell_indicator new_order); [| |apply preserves_raise];
      (apply preserves_bind; [reads | intros bp];
       apply preserves_bind; [reads | intros od];
       destruct od as [od|], bp as [p|]; try apply preserves_raise;
       apply preserves_bind; [apply invariant_sweep_for, HE | intros r];
       apply IH).
Qed.

Lemma invariant_sweep market new_order event :
  E event → preserves I (sweep market new_order event).
Proof.
  intros HE. unfold sweep. apply preserves_bind; [reads | intros s0].
  apply invariant_sweep_while, HE.
Qed.

(** What follows the entry of [add]. *)
Lemma invariant_add_body new_order event s :
  E event → I s →
  post (match mkt_flag new_order with
        | MktY => sweep true new_order event
        | MktN =>
            marketable <~ is_marketable (buy_sell_indicator new_order)
                            (limit_price new_order);
            if negb marketable then
              od <~ price_level (buy_sell_indicator new_order)
                      (Some (limit_price new_order));
              (match od with
               | None => create_level (buy_sell_indicator new_order)
                           (limit_price new_order) >> ret tt
               | Some _ => ret tt
               end >>
               level_setitem (buy_sell_indicator new_order)
                 (limit_price new_order) (order_number new_order)
                 new_order >>
               record_event event)
            else sweep false new_order event
        | MktOther => raise RuntimeError
        end) s (λ _, I).
Proof.
  intros HE HI.
  destruct (mkt_flag new_order);
    [apply invariant_sweep; assumption | | apply post_raise].
  apply post_bind. intros marketable s1 Hmkt.
  pose proof (readonly_is_marketable _ _ s marketable s1 Hmkt) as ->.
  destruct marketable; simpl; [apply invariant_sweep; assumption|].
  apply post_bind. intros od s1 Hod.
  rewrite (readonly_price_level _ _ s od s1 Hod).
  destruct od as [od|].
  - apply post_bind, post_ret, post_bind.
    eapply post_mono; [apply I_level_setitem, HI|].
    intros ? s2 HI2. apply I_record_event; assumption.
  - apply post_bind, post_bind.
    eapply post_mono;
      [apply (I_create_level _ _ (order_number new_order) new_order _
                HI Hmkt)|].
    intros ? s2 H2. apply post_ret, post_bind.
    eapply post_mono; [apply H2|].
    intros ? s3 HI3. apply I_record_event; assumption.
Qed.

Lemma invariant_add new_order : preserves I (add new_order).
Proof.
  intros s HI. unfold add. apply post_bind. intros event s1 Hentry.
  pose proof (readonly_entry_event _ _ s event s1 Hentry) as ->.
  apply invariant_add_body; [|exact HI].
  exact (E_entry_event _ _ s HI event s Hentry).
Qed.

Lemma invariant_modify new_order : preserves I (modify new_order).
Proof.
  intros s HI. unfold modify. apply post_bind. intros event s1 Hentry.
  pose proof (readonly_entry_event _ _ s event s1 Hentry) as ->.
  pose proof (E_entry_event _ _ s HI event s Hentry) as HE.
  cbv beta in HE. clear Hentry. revert s HI.
  match goal with
  | |- ∀ s, I s → post ?c s _ => change (preserves I c)
  end.
  destruct (mkt_flag new_order); [apply preserves_raise | ..];
    (apply preserves_bind; [reads | intros od];
     apply preserves_bind; [|intros _; apply I_record_event, HE];
     destruct od as [od|]; [|apply preserves_ret];
     destruct (odict.get (order_number new_order) od) as [old_order|];
       [|apply preserves_ret];
     repeat match goal with
            | |- preserves _ (if ?b then _ else _) => destruct b
            end;
     first [ apply I_level_setitem | apply invariant_add
           | apply preserves_ret | idtac ];
     apply preserves_bind; [apply I_delete_order | intros _];
     apply invariant_add).
Qed.

Lemma invariant_cancel order : preserves I (cancel order).
Proof.
  intros s HI. unfold cancel. apply post_bind. intros event s1 Hentry.
  pose proof (readonly_entry_event _ _ s event s1 Hentry) as ->.
  pose proof (E_entry_event _ _ s HI event s Hentry) as HE.
  cbv beta in HE. clear Hentry. revert s HI.
  match goal with
  | |- ∀ s, I s → post ?c s _ => change (preserves I c)
  end.
  destruct (mkt_flag order); [apply preserves_raise | ..];
    (apply preserves_bind; [reads | intros od];
     apply preserves_bind;
       [ destruct od as [od|]; [|apply preserves_ret];
         destruct (odict.get (order_number order) od);
           [apply I_delete_order | apply preserves_ret]
       | intros _; apply preserves_bind; [reads | intros _];
         apply preserves_bind; [reads | intros _];
         apply I_record_event, HE ]).
Qed.

Lemma invariant_dispatch order : preserves I (dispatch order).
Proof.
  unfold dispatch.
  destruct (activity_type order =? 1); [apply invariant_add|].
  destruct (activity_type order =? 3); [apply invariant_cancel|].
  destruct (activity_type order =? 4); [|apply preserves_raise].
  destruct (mkt_flag order);
    [apply invariant_add | apply invariant_modify ..].
Qed.

Lemma invariant_process_row day order : preserves I (process_row day order).
Proof.
  unfold process_row, check_day. apply preserves_bind.
  - destruct day as [d|]; [|apply preserves_ret].
    destruct (negb (d =? date_day (trans_date order)));
      [|apply preserves_ret].
    apply preserves_bind; [apply I_clear_book | intros _].
    apply preserves_ret.
  - intros day'. apply preserves_bind; [|intros _; apply preserves_ret].
    apply invariant_dispatch.
Qed.

Lemma invariant_process_from df : ∀ day, preserves I (process_from day df).
Proof.
  induction df as [|order df IH]; intros day; simpl.
  - apply preserves_ret.
  - apply preserves_bind;
      [apply invariant_process_row | intros day'; apply IH].
Qed.

End invariant.

(** Instances that need to know nothing of the events. *)
Ltac any_event :=
  first [ intros ? ? _; exact Logic.I
        | intros ? ? ? _ ? ? _; exact Logic.I ].

(** * The price levels are never empty *)

Lemma book_data_set_same ind book s :
  ind ≠ NoSide → book_data ind (set_book_data ind book s) = Some book.
Proof. destruct ind; [reflexivity | reflexivity | congruence]. Qed.

Lemma book_data_names_side ind s book :
  book_data ind s = Some book → ind ≠ NoSide.
Proof. destruct ind; [discriminate 2 | discriminate 2 | discriminate 1]. Qed.

Lemma set_book_data_twice ind book1 book2 s :
  set_book_data ind book2 (set_book_data ind book1 s)
  = set_book_data ind book2 s.
Proof. destruct ind; reflexivity. Qed.

Lemma no_empty_levels_set ind book s :
  no_empty_levels s → no_empty_level_in book →
  no_empty_levels (set_book_data ind book s).
Proof. intros [HB HS] Hbook. destruct ind; split; assumption. Qed.

Lemma no_empty_levels_book ind book s :
  no_empty_levels s → book_data ind s = Some book → no_empty_level_in book.
Proof.
  intros [HB HS]. destruct ind; simpl; intros [= <-]; assumption.
Qed.

Lemma is_empty_set {V} k (v : V) od : odict.is_empty (odict.set k v od) = false.
Proof.
  destruct od as [|[k' v'] od]; [reflexivity|].
  simpl. destruct (k =? k'); reflexivity.
Qed.

Lemma preserves_record_event e : preserves no_empty_levels (record_event e).
Proof. intros s [HB HS] a s' [= _ <-]. split; assumption. Qed.

Lemma preserves_level_setitem ind price k v :
  preserves no_empty_levels (level_setitem ind price k v).
Proof.
  intros s HI a s'. unfold level_setitem.
  destruct (book_data ind s) as [book|] eqn:Hbook; [|discriminate].
  destruct (book !! price) as [od|]; [|discriminate].
  intros [= _ <-]. apply no_empty_levels_set; [exact HI|].
  apply map_Forall_insert_2; [apply is_empty_set|].
  eapply no_empty_levels_book; eassumption.
Qed.

Lemma preserves_delete_order ind price k :
  preserves no_empty_levels (delete_order ind price k).
Proof.
  intros s HI a s'. unfold delete_order.
  destruct (book_data ind s) as [book|] eqn:Hbook; [|discriminate].
  pose proof (no_empty_levels_book _ _ _ HI Hbook) as Hne.
  pose proof (book_data_names_side _ _ _ Hbook) as Hind.
  destruct (book !! price) as [od|]; [|discriminate].
  destruct (odict.pop k od) as [od'|]; [|discriminate].
  destruct (odict.is_empty od') eqn:Hod'.
  - unfold delete_level. rewrite book_data_set_same by exact Hind.
    rewrite lookup_insert_eq.
    intros [= _ <-]. rewrite set_book_data_twice, delete_insert_eq.
    apply no_empty_levels_set; [exact HI|]. apply map_Forall_delete, Hne.
  - intros [= _ <-]. apply no_empty_levels_set; [exact HI|].
    apply map_Forall_insert_2; assumption.
Qed.

Lemma preserves_clear_book : preserves no_empty_levels clear_book.
Proof.
  intros s _ a s' [= _ <-]. split; apply map_Forall_empty.
Qed.

(** Posting an order: the level that [create_level] makes is empty only
    until the order is stored in it, two statements further down. *)
Lemma post_create_then_setitem ind price k v s :
  no_empty_levels s →
  is_marketable ind price s = Return false s →
  post (create_level ind price) s
       (λ _ s1, post (level_setitem ind price k v) s1 (λ _, no_empty_levels)).
Proof.
  intros HI _ od s1. unfold create_level.
  destruct (book_data ind s) as [book|] eqn:Hbook; [|discriminate].
  pose proof (book_data_names_side _ _ _ Hbook) as Hind.
  intros [= _ <-] a s2. unfold level_setitem.
  rewrite book_data_set_same by exact Hind. rewrite lookup_insert_eq.
  intros [= _ <-].
  pose proof (no_empty_levels_book _ _ _ HI Hbook) as Hne.
  rewrite set_book_data_twice, insert_insert_eq.
  apply no_empty_levels_set; [exact HI|].
  apply map_Forall_insert_2; [reflexivity | exact Hne].
Qed.

Lemma preserves_add new_order : preserves no_empty_levels (add new_order).
Proof.
  apply (invariant_add no_empty_levels (λ _, True)); try any_event;
    try (intros e _; apply preserves_record_event);
    auto using preserves_level_setitem, preserves_delete_order,
      post_create_then_setitem.
Qed.

Lemma preserves_modify new_order : preserves no_empty_levels (modify new_order).
Proof.
  apply (invariant_modify no_empty_levels (λ _, True)); try any_event;
    try (intros e _; apply preserves_record_event);
    auto using preserves_level_setitem, preserves_delete_order,
      post_create_then_setitem.
Qed.

Lemma preserves_cancel order : preserves no_empty_levels (cancel order).
Proof.
  apply (invariant_cancel no_empty_levels (λ _, True)); try any_event;
    try (intros e _; apply preserves_record_event);
    auto using preserves_delete_order.
Qed.

Lemma preserves_process_row day order :
  preserves no_empty_levels (process_row day order).
Proof.
  apply (invariant_process_row no_empty_levels (λ _, True)); try any_event;
    try (intros e _; apply preserves_record_event);
    auto using preserves_level_setitem, preserves_delete_order,
      preserves_clear_book, post_create_then_setitem.
Qed.

Lemma preserves_process_from df day :
  preserves no_empty_levels (process_from day df).
Proof.
  apply (invariant_process_from no_empty_levels (λ _, True)); try any_event;
    try (intros e _; apply preserves_record_event);
    auto using preserves_level_setitem, preserves_delete_order,
      preserves_clear_book, post_create_then_setitem.
Qed.

Lemma no_empty_levels_init : no_empty_levels init.
Proof. split; apply map_Forall_empty. Qed.

(** Every state that [process] reaches from a new book has no empty
    price level. *)
Lemma process_no_empty_levels df s' :
  process df init = Return tt s' → no_empty_levels s'.
Proof.
  intros H.
  exact (preserves_process_from df None init no_empty_levels_init tt s' H).
Qed.

(** C7.  After every complete step of [process], and after every complete
    [add], [modify] or [cancel], no price level of either half-book is
    empty, provided none was before.  (The new book of [__init__] has no
    empty level, see [no_empty_levels_init].) *)
Theorem no_empty_levels_after_step s order s' :
  no_empty_levels s →
  add order s = Return tt s'
  ∨ modify order s = Return tt s'
  ∨ cancel order s = Return tt s'
  ∨ (∃ day day', process_row day order s = Return day' s') →
  no_empty_levels s'.
Proof.
  intros HI [H | [H | [H | (day & day' & H)]]].
  - exact (preserves_add order s HI tt s' H).
  - exact (preserves_modify order s HI tt s' H).
  - exact (preserves_cancel order s HI tt s' H).
  - exact (preserves_process_row day order s HI day' s' H).
Qed.

(** * [clear_book] *)

(** C9.  [clear_book] always returns; it leaves both half-books empty and
    the trade counter at 1, and keeps the event counter, the trades and
    the events as they were. *)
Theorem clear_book_frame s :
  ∃ s', clear_book s = Return tt s'
        ∧ book_data_B s' = ∅ ∧ book_data_S s' = ∅
        ∧ trade_counter s' = 1
        ∧ event_counter s' = event_counter s
        ∧ trades s' = trades s
        ∧ events s' = events s.
Proof. eexists. split; [reflexivity|]. repeat split. Qed.

(** * The loops of [add] end

    [sweep_while] is given one more turn than there are resting orders.
    Every turn either ends the sweep, raises, or removes at least one
    resting order, so the turns given are never used up. *)

Lemma bind_total_at {A B} (c : M A) (k : A → M B) s :
  c s ≠ OutOfFuel →
  (∀ a s', c s = Return a s' → k a s' ≠ OutOfFuel) →
  bind c k s ≠ OutOfFuel.
Proof.
  unfold bind. destruct (c s) as [a s'| |]; intros Hc Hk;
    [apply Hk; reflexivity | discriminate | congruence].
Qed.

Lemma total_ret {A} (a : A) : total (ret a).
Proof. intros s. discriminate. Qed.

Lemma total_raise {A} e : total (@raise A e).
Proof. intros s. discriminate. Qed.

Lemma total_bind {A B} (c : M A) (k : A → M B) :
  total c → (∀ a, total (k a)) → total (bind c k).
Proof. intros Hc Hk s. apply bind_total_at; [apply Hc | intros; apply Hk]. Qed.

Lemma total_best_price_of ind pick : total (best_price_of ind pick).
Proof.
  intros s. unfold best_price_of.
  destruct (book_data ind s) as [book|]; [|discriminate].
  destruct (prices book) as [|p ps]; [discriminate|].
  destruct (book !! foldr pick p ps) as [od|]; [|discriminate].
  destruct (odict.is_empty od); discriminate.
Qed.

Lemma total_price_level ind price : total (price_level ind price).
Proof.
  intros s. unfold price_level.
  destruct (book_data ind s); [|discriminate].
  destruct price; discriminate.
Qed.

Lemma total_best_quantity_of ind bp : total bp → total (best_quantity_of ind bp).
Proof.
  intros Hbp. apply total_bind; [exact Hbp|].
  intros [p|]; [|apply total_ret].
  apply total_bind; [apply total_price_level|].
  intros [od|]; [apply total_ret | apply total_raise].
Qed.

Lemma total_entry_event action o : total (entry_event action o).
Proof.
  unfold entry_event.
  apply total_bind;
    [apply total_best_quantity_of, total_best_price_of | intros ?].
  apply total_bind;
    [apply total_best_quantity_of, total_best_price_of | intros ?].
  apply total_bind; [apply total_best_price_of | intros ?].
  apply total_bind; [apply total_best_price_of | intros ?].
  apply total_ret.
Qed.

Lemma total_is_marketable ind price : total (is_marketable ind price).
Proof.
  destruct ind; simpl; [| |apply total_ret];
    (apply total_bind; [apply total_best_price_of | intros ?; apply total_ret]).
Qed.

Lemma total_record_event e : total (record_event e).
Proof. intros s. discriminate. Qed.

Lemma total_clear_book : total clear_book.
Proof. intros s. discriminate. Qed.

Lemma total_create_level ind price : total (create_level ind price).
Proof.
  intros s. unfold create_level. destruct (book_data ind s); discriminate.
Qed.

Lemma total_delete_level ind price : total (delete_level ind price).
Proof.
  intros s. unfold delete_level.
  destruct (book_data ind s) as [book|]; [|discriminate].
  destruct (book !! price); discriminate.
Qed.

Lemma total_delete_order ind price k : total (delete_order ind price k).
Proof.
  intros s. unfold delete_order.
  destruct (book_data ind s) as [book|]; [|discriminate].
  destruct (book !! price) as [od|]; [|discriminate].
  destruct (odict.pop k od) as [od'|]; [|discriminate].
  destruct (odict.is_empty od'); [apply total_delete_level | discriminate].
Qed.

Lemma total_level_getitem ind price k : total (level_getitem ind price k).
Proof.
  intros s. unfold level_getitem.
  destruct (book_data ind s) as [book|]; [|discriminate].
  destruct (book !! price) as [od|]; [|discriminate].
  destruct (odict.get k od); discriminate.
Qed.

Lemma total_level_setitem ind price k v : total (level_setitem ind price k v).
Proof.
  intros s. unfold level_setitem.
  destruct (book_data ind s) as [book|]; [|discriminate].
  destruct (book !! price); discriminate.
Qed.

Lemma total_make_trade p q l : total (make_trade p q l).
Proof.
  unfold make_trade. destruct (buy_order l), (sell_order l);
    first [apply total_ret | apply total_raise].
Qed.

Lemma total_sweep_for market side best_price event keys :
  ∀ V l, total (sweep_for market side best_price event keys V l).
Proof.
  induction keys as [|number keys IH]; intros V l; simpl.
  - apply total_ret.
  - apply total_bind; [apply total_level_getitem | intros curr].
    repeat match goal with
           | |- total (if ?b then _ else _) => destruct b
           end;
      try apply IH;
      (apply total_bind; [apply total_make_trade | intros trade];
       apply total_bind; [apply total_record_event | intros _];
       apply total_bind;
         [first [apply total_delete_order | apply total_level_setitem]
         | intros _]; first [apply total_ret | apply IH]).
Qed.

(** ** The number of resting orders *)

Lemma resting_in_delete book price od :
  book !! price = Some od →
  resting_in book = (length od + resting_in (delete price book))%nat.
Proof.
  intros H. unfold resting_in.
  apply (map_fold_delete_L (λ _ (od : odict.t Order) n, (length od + n)%nat));
    [intros; lia | exact H].
Qed.

Lemma resting_in_insert book price od :
  resting_in (<[price := od]> book)
  = (length od + resting_in (delete price book))%nat.
Proof.
  rewrite <- (insert_delete_eq book). unfold resting_in.
  rewrite map_fold_insert_L; [reflexivity | intros; lia |].
  apply lookup_delete_eq.
Qed.

Lemma resting_set_book_data ind book0 book s :
  book_data ind s = Some book0 →
  (resting (set_book_data ind book s) + resting_in book0
   = resting s + resting_in book)%nat.
Proof.
  unfold resting. destruct ind; simpl; intros [= <-]; lia.
Qed.

Lemma length_pop {V} k (od od' : odict.t V) :
  odict.pop k od = Some od' → length od = S (length od').
Proof.
  revert od'. induction od as [|[k' v] od IH]; intros od'; simpl;
    [discriminate|].
  destruct (k =? k'); [intros [= <-]; reflexivity|].
  destruct (odict.pop k od) as [r|]; [|discriminate].
  intros [= <-]. simpl. rewrite (IH r eq_refl). reflexivity.
Qed.

Lemma is_empty_nil {V} (od : odict.t V) : odict.is_empty od = true → od = [].
Proof. destruct od; [reflexivity | discriminate]. Qed.

Lemma resting_delete_order ind price k s :
  post (delete_order ind price k) s
       (λ _ s', (resting s' + 1 = resting s)%nat).
Proof.
  intros a s'. unfold delete_order.
  destruct (book_data ind s) as [book|] eqn:Hbook; [|discriminate].
  assert (ind ≠ NoSide) as Hind by (destruct ind; [congruence..|discriminate]).
  destruct (book !! price) as [od|] eqn:Hod; [|discriminate].
  destruct (odict.pop k od) as [od'|] eqn:Hpop; [|discriminate].
  pose proof (length_pop _ _ _ Hpop) as Hlen.
  pose proof (resting_in_delete _ _ _ Hod) as Hdel.
  destruct (odict.is_empty od') eqn:Hempty.
  - apply is_empty_nil in Hempty as ->. unfold delete_level.
    rewrite book_data_set_same by exact Hind. rewrite lookup_insert_eq.
    intros [= _ <-]. rewrite set_book_data_twice, delete_insert_eq.
    pose proof (resting_set_book_data ind book (delete price book) s Hbook).
    simpl in Hlen. lia.
  - intros [= _ <-].
    pose proof (resting_set_book_data ind book (<[price:=od']> book) s Hbook)
      as Hset.
    rewrite resting_in_insert in Hset. lia.
Qed.

Lemma resting_record_event e s :
  post (record_event e) s (λ _ s', resting s' = resting s).
Proof. intros a s' [= _ <-]. reflexivity. Qed.

(** A pass over a queue either ends the sweep (residual [0]) or removes
    every order it visits. *)
Lemma resting_sweep_for market side best_price event keys :
  ∀ V l s,
    post (sweep_for market side best_price event keys V l) s
         (λ r s', r.1 = 0 ∨ (resting s' + length keys = resting s)%nat).
Proof.
  induction keys as [|number keys IH]; intros V l s; simpl.
  - apply post_ret. right. lia.
  - apply post_bind. intros curr s1 Hget.
    rewrite (readonly_level_getitem _ _ _ s curr s1 Hget).
    destruct (volume_original curr =? V) eqn:Heq.
    { apply post_bind. intros trade s2 _. apply post_bind. intros _ s3 _.
      apply post_bind. intros _ s4 _. apply post_ret. left. reflexivity. }
    destruct (volume_original curr >? V) eqn:Hgt.
    { apply post_bind. intros trade s2 _. apply post_bind. intros _ s3 _.
      apply post_bind. intros _ s4 _. apply post_ret. left. reflexivity. }
    destruct (volume_original curr <? V) eqn:Hlt; [|lia].
    apply post_bind. intros trade s2 Htrade.
    rewrite (readonly_make_trade _ _ _ s trade s2 Htrade).
    apply post_bind. intros [] s3 Hrec. apply post_bind. intros [] s4 Hdel.
    apply resting_record_event in Hrec. apply resting_delete_order in Hdel.
    eapply post_mono; [apply IH|]. intros r s' [H0 | Hrest]; [left; exact H0|].
    right. lia.
Qed.

Lemma best_price_of_level ind pick s p s' :
  best_price_of ind pick s = Return (Some p) s' →
  ∃ book od, book_data ind s = Some book ∧ book !! p = Some od
             ∧ odict.is_empty od = false.
Proof.
  unfold best_price_of.
  destruct (book_data ind s) as [book|]; [|discriminate].
  destruct (prices book) as [|q qs]; [discriminate|].
  destruct (book !! foldr pick q qs) as [od|] eqn:Hod; [|discriminate].
  destruct (odict.is_empty od) eqn:Hempty; [discriminate|].
  intros [= <- _]. exists book, od. repeat split; assumption.
Qed.

Lemma price_level_lookup ind p s od s' book :
  book_data ind s = Some book →
  price_level ind (Some p) s = Return od s' → od = book !! p.
Proof. unfold price_level. intros ->. intros [= <- _]. reflexivity. Qed.

Lemma sweep_while_done fuel market new_order event V l s :
  V ≤ 0 → sweep_while fuel market new_order event V l s = Return tt s.
Proof.
  intros HV. destruct fuel; simpl;
    (destruct (V >? 0) eqn:H; [lia | reflexivity]).
Qed.

Lemma sweep_while_enough fuel market new_order event :
  ∀ V l s, (resting s < fuel)%nat →
           sweep_while fuel market new_order event V l s ≠ OutOfFuel.
Proof.
  induction fuel as [|fuel IH]; intros V l s Hfuel; [lia|].
  simpl. destruct (V >? 0); [|discriminate].
  assert (∀ side pick l0,
    (bp <~ best_price_of side pick;
     od <~ price_level side bp;
     match od, bp with
     | Some od, Some p =>
         r <~ sweep_for market side p event (odict.keys od) V l0;
         sweep_while fuel market new_order event r.1 r.2
     | _, _ => raise AttributeError
     end) s ≠ OutOfFuel) as Hturn.
  { intros side pick l0.
    apply bind_total_at; [apply total_best_price_of | intros bp s1 Hbp].
    pose proof (readonly_best_price_of _ _ s bp s1 Hbp) as ->.
    apply bind_total_at; [apply total_price_level | intros od s1 Hod].
    pose proof (readonly_price_level _ _ s od s1 Hod) as ->.
    destruct od as [od|], bp as [p|]; try discriminate.
    apply best_price_of_level in Hbp as (book & od0 & Hbook & Hlookup & Hne).
    rewrite <- (price_level_lookup _ _ _ _ _ _ Hbook Hod) in Hlookup.
    injection Hlookup as <-.
    apply bind_total_at; [apply total_sweep_for | intros r s2 Hfor].
    apply resting_sweep_for in Hfor as [H0 | Hrest].
    - rewrite sweep_while_done by lia. discriminate.
    - apply IH. destruct od; [discriminate|]. simpl in Hrest. lia. }
  destruct (buy_sell_indicator new_order);
    [apply Hturn | apply Hturn | discriminate].
Qed.

Lemma total_sweep market new_order event : total (sweep market new_order event).
Proof.
  intros s. unfold sweep, bind, get_state. apply sweep_while_enough. lia.
Qed.

(** [add] always returns or raises: the loops are given turns enough. *)
Lemma add_total new_order : total (add new_order).
Proof.
  unfold add. apply total_bind; [apply total_entry_event | intros event].
  destruct (mkt_flag new_order);
    [apply total_sweep | | apply total_raise].
  apply total_bind; [apply total_is_marketable | intros marketable].
  destruct marketable; simpl; [apply total_sweep|].
  apply total_bind; [apply total_price_level | intros od].
  apply total_bind.
  - destruct od; [apply total_ret|].
    apply total_bind; [apply total_create_level | intros; apply total_ret].
  - intros _. apply total_bind;
      [apply total_level_setitem | intros; apply total_record_event].
Qed.

Lemma modify_total new_order : total (modify new_order).
Proof.
  unfold modify. apply total_bind; [apply total_entry_event | intros event].
  destruct (mkt_flag new_order); [apply total_raise | ..];
    (apply total_bind; [apply total_price_level | intros od];
     apply total_bind; [|intros _; apply total_record_event];
     destruct od as [od|]; [|apply total_ret];
     destruct (odict.get (order_number new_order) od) as [old_order|];
       [|apply total_ret];
     repeat match goal with
            | |- total (if ?b then _ else _) => destruct b
            end;
     first [ apply total_level_setitem | apply add_total
           | apply total_ret | idtac ];
     apply total_bind; [apply total_delete_order | intros _];
     apply add_total).
Qed.

Lemma cancel_total order : total (cancel order).
Proof.
  unfold cancel. apply total_bind; [apply total_entry_event | intros event].
  destruct (mkt_flag order); [apply total_raise | ..];
    (apply total_bind; [apply total_price_level | intros od];
     apply total_bind;
       [ destruct od as [od|]; [|apply total_ret];
         destruct (odict.get (order_number order) od);
           [apply total_delete_order | apply total_ret]
       | intros _;
         apply total_bind;
           [apply total_best_quantity_of, total_best_price_of | intros _];
         apply total_bind;
           [apply total_best_quantity_of, total_best_price_of | intros _];
         apply total_record_event ]).
Qed.

Lemma dispatch_total order : total (dispatch order).
Proof.
  unfold dispatch.
  destruct (activity_type order =? 1); [apply add_total|].
  destruct (activity_type order =? 3); [apply cancel_total|].
  destruct (activity_type order =? 4); [|apply total_raise].
  destruct (mkt_flag order); [apply add_total | apply modify_total ..].
Qed.

(** [process] always returns or raises, whatever the stream. *)
Lemma process_total df : total (process df).
Proof.
  unfold process. generalize (@None Z) as day.
  induction df as [|order df IH]; intros day; simpl; [apply total_ret|].
  apply total_bind; [|intros day'; apply IH].
  unfold process_row. apply total_bind.
  - unfold check_day. destruct day as [d|]; [|apply total_ret].
    destruct (negb (d =? date_day (trans_date order))); [|apply total_ret].
    apply total_bind; [apply total_clear_book | intros; apply total_ret].
  - intros day'. apply total_bind;
      [apply dispatch_total | intros; apply total_ret].
Qed.

(** * The entry of an action returns on a book without empty levels *)

Lemma foldr_pick_in (pick : Z → Z → Z) p ps :
  (∀ a b, pick a b = a ∨ pick a b = b) → foldr pick p ps ∈ p :: ps.
Proof.
  intros Hpick. induction ps as [|q ps IH]; simpl; [left|].
  destruct (Hpick q (foldr pick p ps)) as [-> | ->].
  - right. left.
  - apply elem_of_cons in IH as [-> | IH]; [left | right; right; exact IH].
Qed.

Lemma prices_lookup (book : gmap Z (odict.t Order)) p :
  p ∈ prices book → is_Some (book !! p).
Proof.
  unfold prices. intros ([p' od] & -> & H)%list_elem_of_fmap.
  apply elem_of_map_to_list in H. exists od. exact H.
Qed.

Lemma max_picks a b : Z.max a b = a ∨ Z.max a b = b.
Proof. lia. Qed.

Lemma min_picks a b : Z.min a b = a ∨ Z.min a b = b.
Proof. lia. Qed.

Lemma best_price_of_returns ind pick s :
  ind ≠ NoSide → (∀ a b, pick a b = a ∨ pick a b = b) →
  no_empty_levels s →
  ∃ bp, best_price_of ind pick s = Return bp s.
Proof.
  intros Hind Hpick HI. unfold best_price_of.
  destruct (book_data ind s) as [book|] eqn:Hbook;
    [|destruct ind; [discriminate..|congruence]].
  destruct (prices book) as [|p ps] eqn:Hprices; [eexists; reflexivity|].
  destruct (prices_lookup book (foldr pick p ps)) as [od Hod].
  { rewrite Hprices. apply foldr_pick_in, Hpick. }
  rewrite Hod.
  rewrite (no_empty_levels_book _ _ _ HI Hbook _ _ Hod).
  eexists; reflexivity.
Qed.

Lemma best_quantity_of_returns ind pick s :
  ind ≠ NoSide → (∀ a b, pick a b = a ∨ pick a b = b) →
  no_empty_levels s →
  ∃ q, best_quantity_of ind (best_price_of ind pick) s = Return q s.
Proof.
  intros Hind Hpick HI.
  destruct (best_price_of_returns ind pick s Hind Hpick HI) as [bp Hbp].
  unfold best_quantity_of. rewrite (bind_Return _ _ _ _ _ Hbp).
  destruct bp as [p|]; [|eexists; reflexivity].
  apply best_price_of_level in Hbp as (book & od & Hbook & Hod & _).
  unfold bind, price_level. rewrite Hbook, Hod. eexists; reflexivity.
Qed.

Lemma entry_event_returns s :
  no_empty_levels s →
  ∃ bb bbv ba bav, ∀ action o,
    entry_event action o s = Return (make_event action o bb bbv ba bav) s.
Proof.
  intros HI.
  destruct (best_quantity_of_returns BID Z.max s) as [bbq Hbbq];
    [discriminate | apply max_picks | exact HI |].
  destruct (best_quantity_of_returns ASK Z.min s) as [baq Hbaq];
    [discriminate | apply min_picks | exact HI |].
  destruct (best_price_of_returns BID Z.max s) as [bb Hbb];
    [discriminate | apply max_picks | exact HI |].
  destruct (best_price_of_returns ASK Z.min s) as [ba Hba];
    [discriminate | apply min_picks | exact HI |].
  exists bb, bbq.1, ba, baq.1. intros action o. unfold entry_event.
  rewrite (bind_Return _ _ _ _ _ Hbbq), (bind_Return _ _ _ _ _ Hbaq).
  rewrite (bind_Return _ _ _ _ _ Hbb), (bind_Return _ _ _ _ _ Hba).
  reflexivity.
Qed.

Lemma no_empty_levels_write_event e s :
  no_empty_levels s → no_empty_levels (write_event e s).
Proof. intros [HB HS]. split; assumption. Qed.

Lemma odict_set_fresh {V} k (v : V) od :
  odict.get k od = None → odict.set k v od = od ++ [(k, v)].
Proof.
  induction od as [|[k' v'] od IH]; simpl; [reflexivity|].
  destruct (k =? k'); [discriminate|]. intros H. rewrite IH by exact H.
  reflexivity.
Qed.

Lemma price_level_returns ind price s :
  ind ≠ NoSide →
  ∃ book, book_data ind s = Some book
          ∧ price_level ind (Some price) s = Return (book !! price) s.
Proof.
  intros Hind. unfold price_level.
  destruct ind; [| |congruence]; eexists; (split; reflexivity).
Qed.

(** * An order that is not found *)

(** C8.  On a book without empty levels, a [modify] or [cancel] that is
    not market-flagged, names a side, and whose order is not found under
    its (side, price, number), returns without raising; it writes one
    event, of action modify or cancel, with the fields of the action and
    an empty trade, under the next event number, which appends it to the
    journal when that number is unused; both half-books, the trades and
    the trade counter stay as they were. *)
Theorem order_not_found_is_journaled s order :
  no_empty_levels s →
  mkt_flag order ≠ MktY →
  buy_sell_indicator order ≠ NoSide →
  locate order s = None →
  ∃ bb bbv ba bav,
    let em := make_event ActModify order bb bbv ba bav in
    let ec := make_event ActCancel order bb bbv ba bav in
    modify order s = Return tt (write_event em s)
    ∧ cancel order s = Return tt (write_event ec s)
    ∧ ev_action em = ActModify ∧ ev_trade em = None
    ∧ ev_action ec = ActCancel ∧ ev_trade ec = None
    ∧ (∀ e, book_data_B (write_event e s) = book_data_B s
            ∧ book_data_S (write_event e s) = book_data_S s
            ∧ trades (write_event e s) = trades s
            ∧ trade_counter (write_event e s) = trade_counter s
            ∧ event_counter (write_event e s) = event_counter s + 1
            ∧ events (write_event e s)
              = odict.set (event_counter s) e (events s)
            ∧ (odict.get (event_counter s) (events s) = None →
               events (write_event e s)
               = events s ++ [(event_counter s, e)])).
Proof.
  intros HI Hflag Hind Hloc.
  destruct (entry_event_returns s HI) as (bb & bbv & ba & bav & Hentry).
  pose proof (Hentry ActModify order) as Hm.
  pose proof (Hentry ActCancel order) as Hc.
  exists bb, bbv, ba, bav. cbv zeta.
  destruct (price_level_returns _ (limit_price order) s Hind)
    as (book & Hbook & Hlevel).
  unfold locate in Hloc. rewrite Hbook in Hloc.
  assert (∃ bbq, best_bid_quantity s = Return bbq s) as [bbq Hbbq]
    by (apply best_quantity_of_returns;
        [discriminate | apply max_picks | exact HI]).
  assert (∃ baq, best_ask_quantity s = Return baq s) as [baq Hbaq]
    by (apply best_quantity_of_returns;
        [discriminate | apply min_picks | exact HI]).
  split; [|split].
  - unfold modify. rewrite (bind_Return _ _ _ _ _ Hm).
    destruct (mkt_flag order); [congruence | |];
      rewrite (bind_Return _ _ _ _ _ Hlevel);
      (destruct (book !! limit_price order) as [od|];
       [rewrite Hloc|]; reflexivity).
  - unfold cancel. rewrite (bind_Return _ _ _ _ _ Hc).
    destruct (mkt_flag order); [congruence | |];
      rewrite (bind_Return _ _ _ _ _ Hlevel);
      (destruct (book !! limit_price order) as [od|];
       [rewrite Hloc|]; unfold bind at 1; unfold ret at 1;
       rewrite (bind_Return _ _ _ _ _ Hbbq), (bind_Return _ _ _ _ _ Hbaq);
       reflexivity).
  - repeat split; try reflexivity.
    intros Hfresh. simpl. apply odict_set_fresh, Hfresh.
Qed.

(** * Cancelling the order that was just added *)

Lemma odict_get_set_same {V} k (v : V) od :
  odict.get k (odict.set k v od) = Some v.
Proof.
  induction od as [|[k' v'] od IH]; simpl.
  - rewrite Z.eqb_refl. reflexivity.
  - destruct (k =? k') eqn:E; simpl; rewrite ?Z.eqb_refl, ?E; auto.
Qed.

Lemma odict_pop_fresh {V} k (v : V) od :
  odict.get k od = None → odict.pop k (od ++ [(k, v)]) = Some od.
Proof.
  induction od as [|[k' v'] od IH]; simpl.
  - rewrite Z.eqb_refl. reflexivity.
  - destruct (k =? k'); [discriminate|]. intros H. rewrite IH by exact H.
    reflexivity.
Qed.

Lemma set_book_data_id ind book s :
  book_data ind s = Some book → set_book_data ind book s = s.
Proof. destruct s, ind; simpl; intros [= <-]; reflexivity. Qed.

Lemma book_data_write_event ind e s :
  book_data ind (write_event e s) = book_data ind s.
Proof. destruct ind; reflexivity. Qed.

Lemma set_book_data_write_event ind book e s :
  set_book_data ind book (write_event e s)
  = write_event e (set_book_data ind book s).
Proof. destruct ind; reflexivity. Qed.

(** What [add] does with a limit order that is not marketable: it is
    stored under its number in the queue of its price, which is made
    first when the half-book has none, and one event is written. *)
Lemma add_posts s order book bb bbv ba bav :
  entry_event ActAdd order s
  = Return (make_event ActAdd order bb bbv ba bav) s →
  mkt_flag order = MktN →
  book_data (buy_sell_indicator order) s = Some book →
  is_marketable (buy_sell_indicator order) (limit_price order) s
  = Return false s →
  add order s
  = Return tt
      (write_event (make_event ActAdd order bb bbv ba bav)
         (set_book_data (buy_sell_indicator order)
            (<[limit_price order :=
                 odict.set (order_number order) order
                   (default [] (book !! limit_price order))]> book) s)).
Proof.
  intros Hentry Hflag Hbook Hmkt. unfold add.
  rewrite (bind_Return _ _ _ _ _ Hentry), Hflag.
  rewrite (bind_Return _ _ _ _ _ Hmkt).
  change (negb false) with true. cbv beta iota.
  pose proof (book_data_names_side _ _ _ Hbook) as Hind.
  unfold bind, price_level, create_level, level_setitem, ret, record_event.
  rewrite Hbook.
  destruct (book !! limit_price order) as [od|] eqn:Hod; simpl.
  - rewrite Hbook, Hod. reflexivity.
  - rewrite Hbook, book_data_set_same by exact Hind.
    rewrite lookup_insert_eq, set_book_data_twice, insert_insert_eq.
    reflexivity.
Qed.

(** C6 (as amended).  On a book without empty levels, for a limit order
    that names a side, is not marketable, and whose number is not already
    resting at its side and price: [add] returns, the [cancel] of the same
    order right after it returns, and both half-books are then what they
    were before the [add]; a price level that the [add] made is gone
    again. *)
Theorem cancel_after_add_restores_book s order :
  no_empty_levels s →
  mkt_flag order = MktN →
  buy_sell_indicator order ≠ NoSide →
  is_marketable (buy_sell_indicator order) (limit_price order) s
  = Return false s →
  locate order s = None →
  ∃ s1 s2,
    add order s = Return tt s1
    ∧ cancel order s1 = Return tt s2
    ∧ book_data_B s2 = book_data_B s
    ∧ book_data_S s2 = book_data_S s.
Proof.
  intros HI Hflag Hind Hmkt Hloc.
  destruct (price_level_returns _ (limit_price order) s Hind)
    as (book & Hbook & _).
  destruct (entry_event_returns s HI) as (bb & bbv & ba & bav & Hentry).
  pose proof (add_posts s order book bb bbv ba bav (Hentry ActAdd order)
                Hflag Hbook Hmkt) as Hadd.
  set (e := make_event ActAdd order bb bbv ba bav) in *.
  set (ind := buy_sell_indicator order) in *.
  set (p := limit_price order) in *.
  set (n := order_number order) in *.
  set (od0 := default [] (book !! p)) in *.
  assert (odict.get n od0 = None) as Hfresh.
  { unfold locate in Hloc. fold ind p n in Hloc. rewrite Hbook in Hloc.
    unfold od0. destruct (book !! p); [exact Hloc | reflexivity]. }
  rewrite (odict_set_fresh _ _ _ Hfresh) in Hadd.
  set (s1 := write_event e
               (set_book_data ind (<[p:=od0 ++ [(n, order)]]> book) s)) in *.
  assert (no_empty_levels s1) as HI1
    by exact (preserves_add order s HI tt s1 Hadd).
  assert (delete_order ind p n s1 = Return tt (write_event e s)) as Hdel.
  { unfold delete_order, s1.
    rewrite book_data_write_event, book_data_set_same by exact Hind.
    rewrite lookup_insert_eq, (odict_pop_fresh _ _ _ Hfresh).
    rewrite set_book_data_write_event, set_book_data_twice, insert_insert_eq.
    unfold od0. destruct (book !! p) as [od|] eqn:Hod; simpl.
    - rewrite (no_empty_levels_book _ _ _ HI Hbook _ _ Hod).
      rewrite (insert_id _ _ _ Hod), (set_book_data_id _ _ _ Hbook).
      reflexivity.
    - unfold delete_level.
      rewrite book_data_write_event, book_data_set_same by exact Hind.
      rewrite lookup_insert_eq, set_book_data_write_event.
      rewrite set_book_data_twice, delete_insert_eq.
      rewrite (delete_id _ _ Hod), (set_book_data_id _ _ _ Hbook).
      reflexivity. }
  destruct (entry_event_returns s1 HI1) as (bb1 & bbv1 & ba1 & bav1 & Hentry1).
  pose proof (no_empty_levels_write_event e s HI) as HI2.
  assert (∃ bbq, best_bid_quantity (write_event e s)
                 = Return bbq (write_event e s)) as [bbq Hbbq]
    by (apply best_quantity_of_returns;
        [discriminate | apply max_picks | exact HI2]).
  assert (∃ baq, best_ask_quantity (write_event e s)
                 = Return baq (write_event e s)) as [baq Hbaq]
    by (apply best_quantity_of_returns;
        [discriminate | apply min_picks | exact HI2]).
  exists s1, (write_event (make_event ActCancel order bb1 bbv1 ba1 bav1)
                (write_event e s)).
  split; [exact Hadd|]. split; [|split; reflexivity].
  unfold cancel. rewrite (bind_Return _ _ _ _ _ (Hentry1 ActCancel order)).
  rewrite Hflag. fold ind p n.
  unfold bind at 1. unfold price_level. unfold s1 at 1 2.
  rewrite book_data_write_event, book_data_set_same by exact Hind.
  fold s1. rewrite lookup_insert_eq.
  rewrite <- (odict_set_fresh _ order _ Hfresh), odict_get_set_same.
  rewrite (bind_Return _ _ _ _ _ Hdel).
  rewrite (bind_Return _ _ _ _ _ Hbbq), (bind_Return _ _ _ _ _ Hbaq).
  reflexivity.
Qed.

(** * The day check of [process] *)

Lemma check_day_keeps d order s :
  post (check_day (Some d) order) s (λ day _, day = Some d).
Proof.
  intros day s'. unfold check_day.
  destruct (negb (d =? date_day (trans_date order)));
    [|intros [= <- _]; reflexivity].
  unfold bind, clear_book, ret. intros [= <- _]. reflexivity.
Qed.

Lemma process_row_keeps d order s :
  post (process_row (Some d) order) s (λ day _, day = Some d).
Proof.
  unfold process_row. apply post_bind.
  eapply post_mono; [apply check_day_keeps|]. intros day s1 ->.
  apply post_bind. intros [] s2 _. apply post_ret. reflexivity.
Qed.

(** Once [day] is set, the loop over the rows handles a further row as
    [process_row] does with that same [day]. *)
Lemma process_from_snoc d df order :
  ∀ s, process_from (Some d) (df ++ [order]) s
       = (process_from (Some d) df >> process_row (Some d) order >> ret tt) s.
Proof.
  induction df as [|x df IH]; intros s; simpl.
  - reflexivity.
  - rewrite bind_assoc_at. apply bind_ext_at. intros day s1 Hrow.
    apply process_row_keeps in Hrow as ->. apply IH.
Qed.

Lemma process_row_unfold d order s :
  (process_row (Some d) order >> ret tt) s
  = ((if negb (d =? date_day (trans_date order)) then clear_book
      else ret tt) >> dispatch order) s.
Proof.
  unfold process_row, check_day.
  destruct (negb (d =? date_day (trans_date order)));
    unfold bind, clear_book, ret;
    match goal with
    | |- context [dispatch order ?s0] => destruct (dispatch order s0) as [[]| |]
    end; reflexivity.
Qed.

(** C5 (as amended).  In a stream [first :: mid ++ [order]], the action
    [order] is handled after the book was cleared exactly when its
    day-of-month differs from that of [first]: the day recorded on the
    first action is never updated, and an action whose day-of-month
    equals the first one's is handled without clearing, whatever the
    days of the actions in between. *)
Theorem process_clears_on_days_other_than_first first mid order s :
  process (first :: mid ++ [order]) s
  = (process (first :: mid) >>
     (if negb (date_day (trans_date first) =? date_day (trans_date order))
      then clear_book else ret tt) >>
     dispatch order) s.
Proof.
  unfold process. simpl process_from.
  rewrite bind_assoc_at. apply bind_ext_at. intros day s1 Hfirst.
  assert (day = Some (date_day (trans_date first))) as ->.
  { unfold process_row, check_day, bind, ret in Hfirst.
    destruct (dispatch first s); congruence. }
  rewrite process_from_snoc. apply bind_ext_at. intros [] s2 _.
  apply process_row_unfold.
Qed.

(** * The fills of the two sweeps *)

(** One step of the pass over a queue, for a resting order [curr_order]
    with volume [R] met with the residual [V], once both order numbers of
    the trade are known: the three cases of lines 512-566 and 638-692. *)
Lemma sweep_for_head market side best_price event number keys V l s
    curr_order b a :
  level_getitem side best_price number s = Return curr_order s →
  let l' := bind_side (buy_sell_indicator curr_order)
                      (order_number curr_order) l in
  buy_order l' = Some b → sell_order l' = Some a →
  let R := volume_original curr_order in
  let fill q :=
    with_trade {| trade_price := best_price; trade_quantity := q;
                  buy_order_number := b; sell_order_number := a |} event in
  sweep_for market side best_price event (number :: keys) V l s
  = if R =? V then
      (record_event (fill V) >>
       delete_order (buy_sell_indicator curr_order) best_price number >>
       ret (0, l')) s
    else if R >? V then
      (record_event (fill (R - V)) >>
       level_setitem side best_price number
         (with_volume_original (R - V) curr_order) >>
       ret (0, l')) s
    else
      (record_event (fill (if market then R else V)) >>
       delete_order (buy_sell_indicator curr_order) best_price number >>
       sweep_for market side best_price event keys (V - R) l') s.
Proof.
  intros Hget l' Hb Ha R fill. simpl sweep_for.
  rewrite (bind_Return _ _ _ _ _ Hget). fold l' R.
  unfold make_trade. rewrite Hb, Ha. unfold below_quantity.
  destruct (R =? V) eqn:Heq; [reflexivity|].
  destruct (R >? V) eqn:Hgt; [reflexivity|].
  destruct (R <? V) eqn:Hlt; [reflexivity | lia].
Qed.

(** C1.  The limit-order sweep records the residual, not the resting
    volume, when the resting volume is below the residual.  With 100
    resting at 50.00 and 100 at 50.05, a limit buy of 150 at 50.05 first
    meets [R = 100 < V = 150]: the event written carries a trade of
    quantity 150.  The same buy as a market order carries 100 there.  Both
    sweeps remove the resting order, go on with [V = 50], and record
    [R - V = 50] against the second resting order, whose volume becomes
    50. *)
Theorem limit_sweep_records_residual_below :
  ∃ s_limit s_market,
    process (two_asks ++ [limit_buy_150]) init = Return tt s_limit
    ∧ process (two_asks ++ [market_buy_150]) init = Return tt s_market
    ∧ trade_of_event 3 s_limit
      = Some {| trade_price := 5000; trade_quantity := 150;
                buy_order_number := 3; sell_order_number := 1 |}
    ∧ trade_of_event 3 s_market
      = Some {| trade_price := 5000; trade_quantity := 100;
                buy_order_number := 3; sell_order_number := 1 |}
    ∧ trade_of_event 4 s_limit
      = Some {| trade_price := 5005; trade_quantity := 50;
                buy_order_number := 3; sell_order_number := 2 |}
    ∧ trade_of_event 4 s_market = trade_of_event 4 s_limit
    ∧ book_data_S s_limit
      = {[ 5005 := [(2, with_volume_original 50
                          (row 2 1 SELL 1 100 100 5005 MktN))] ]}
    ∧ book_data_S s_market = book_data_S s_limit.
Proof.
  eexists. eexists.
  split; [vm_compute; reflexivity|].
  split; [vm_compute; reflexivity|].
  repeat split; vm_compute; reflexivity.
Qed.

(** * A market order that finds no liquidity *)

(** On a book without empty levels, a market order of positive volume
    whose opposite half-book is empty raises, and leaves the book as it
    was. *)
Lemma market_order_on_empty_side_raises s order :
  no_empty_levels s →
  mkt_flag order = MktY →
  volume_original order > 0 →
  (buy_sell_indicator order = BUY ∧ book_data_S s = ∅)
  ∨ (buy_sell_indicator order = SELL ∧ book_data_B s = ∅) →
  add order s = Raise TypeError s.
Proof.
  intros HI Hflag Hvol Hside.
  destruct (entry_event_returns s HI) as (bb & bbv & ba & bav & Hentry).
  unfold add. rewrite (bind_Return _ _ _ _ _ (Hentry ActAdd order)), Hflag.
  unfold sweep, bind at 1, get_state. simpl sweep_while.
  replace (volume_original order >? 0) with true by lia.
  destruct Hside as [[-> Hempty] | [-> Hempty]];
    unfold bind, best_ask_price, best_bid_price, best_price_of, prices;
    simpl; rewrite Hempty, map_to_list_empty; reflexivity.
Qed.

(** C2.  A market order raises when the opposite half-book is empty: the
    best-price query returns [None], and [price_level] is called with
    it.  On a new book a market buy raises at once; after one ask of 100,
    a market buy of 200 fills 100, writes the event of that fill, empties
    the ask side, and raises on the next turn of the loop. *)
Theorem market_order_without_liquidity_raises :
  add market_buy_200 init = Raise TypeError init
  ∧ ∃ s, process (one_ask ++ [market_buy_200]) init = Raise TypeError s
         ∧ book_data_S s = ∅
         ∧ trade_of_event 2 s
           = Some {| trade_price := 5000; trade_quantity := 100;
                     buy_order_number := 2; sell_order_number := 1 |}.
Proof.
  split; [vm_compute; reflexivity|].
  eexists. split; [vm_compute; reflexivity|].
  repeat split; vm_compute; reflexivity.
Qed.

(** * The trade journal *)

Lemma trades_kept_by_process T df s s' :
  trades s = T → process df s = Return tt s' → trades s' = T.
Proof.
  intros HT H.
  refine (invariant_process_from (λ s, trades s = T) (λ _, True)
            _ _ _ _ _ _ _ df None s HT tt s' H); clear; try any_event.
  - intros e _ s HT a s' [= _ <-]. exact HT.
  - intros ind price k v s HT a s'. unfold level_setitem.
    destruct (book_data ind s) as [book|]; [|discriminate].
    destruct (book !! price); [|discriminate].
    intros [= _ <-]. destruct ind; exact HT.
  - intros ind price k s HT a s'. unfold delete_order, delete_level.
    destruct (book_data ind s) as [book|] eqn:Hbook; [|discriminate].
    destruct (book !! price) as [od|]; [|discriminate].
    destruct (odict.pop k od) as [od'|]; [|discriminate].
    destruct (odict.is_empty od').
    + rewrite (book_data_set_same _ _ _ (book_data_names_side _ _ _ Hbook)).
      rewrite lookup_insert_eq. intros [= _ <-]. destruct ind; exact HT.
    + intros [= _ <-]. destruct ind; exact HT.
  - intros s HT a s' [= _ <-]. exact HT.
  - intros ind price k v s HT _ od s1. unfold create_level.
    destruct (book_data ind s) as [book|] eqn:Hbook; [|discriminate].
    intros [= _ <-] a s2. unfold level_setitem.
    rewrite (book_data_set_same _ _ _ (book_data_names_side _ _ _ Hbook)).
    rewrite lookup_insert_eq. intros [= _ <-]. destruct ind; exact HT.
Qed.

(** Nothing that [process] does writes the trade journal: it is empty
    after every stream handled from a new book. *)
Lemma trades_never_written df s' :
  process df init = Return tt s' → trades s' = [].
Proof. apply trades_kept_by_process. reflexivity. Qed.

(** ** The events of one [add] *)

Lemma odict_get_set {V} k c (v : V) od :
  odict.get k (odict.set c v od)
  = if k =? c then Some v else odict.get k od.
Proof.
  induction od as [|[k' v'] od IH]; simpl; [reflexivity|].
  destruct (c =? k') eqn:Hc; simpl.
  - apply Z.eqb_eq in Hc as <-. destruct (k =? c); reflexivity.
  - rewrite IH. destruct (k =? k') eqn:Hk; [|reflexivity].
    apply Z.eqb_eq in Hk as <-. rewrite Z.eqb_sym, Hc. reflexivity.
Qed.

Lemma events_set_book_data ind book s :
  events (set_book_data ind book s) = events s.
Proof. destruct ind; reflexivity. Qed.

Lemma events_level_setitem ind price k v s :
  post (level_setitem ind price k v) s (λ _ s', events s' = events s).
Proof.
  intros a s'. unfold level_setitem.
  destruct (book_data ind s) as [book|]; [|discriminate].
  destruct (book !! price); [|discriminate].
  intros [= _ <-]. apply events_set_book_data.
Qed.

Lemma events_delete_order ind price k s :
  post (delete_order ind price k) s (λ _ s', events s' = events s).
Proof.
  intros a s'. unfold delete_order, delete_level.
  destruct (book_data ind s) as [book|] eqn:Hbook; [|discriminate].
  destruct (book !! price) as [od|]; [|discriminate].
  destruct (odict.pop k od) as [od'|]; [|discriminate].
  destruct (odict.is_empty od').
  - rewrite (book_data_set_same _ _ _ (book_data_names_side _ _ _ Hbook)).
    rewrite lookup_insert_eq. intros [= _ <-].
    rewrite !events_set_book_data. reflexivity.
  - intros [= _ <-]. apply events_set_book_data.
Qed.

(** Every event that one [add] writes is the event built on its entry,
    as it is or with a trade put in: all of them carry the top of the
    book as it was when the action entered. *)
Lemma add_events_share_snapshot new_order s s' event :
  entry_event ActAdd new_order s = Return event s →
  add new_order s = Return tt s' →
  ∀ k e, odict.get k (events s') = Some e →
         odict.get k (events s) = Some e
         ∨ ((e = event ∨ ∃ t, e = with_trade t event)
            ∧ ev_snapshot e = ev_snapshot event).
Proof.
  intros Hentry Hadd.
  set (E := λ e : Event,
              (e = event ∨ ∃ t, e = with_trade t event)
              ∧ ev_snapshot e = ev_snapshot event).
  set (I := λ s1 : LimitOrderBook,
              ∀ k e, odict.get k (events s1) = Some e →
                     odict.get k (events s) = Some e ∨ E e).
  assert (E event) as HE by (split; [left|]; reflexivity).
  assert (I s) as HI by (intros k e H; left; exact H).
  unfold add in Hadd. rewrite (bind_Return _ _ _ _ _ Hentry) in Hadd.
  refine (invariant_add_body I E _ _ _ _ _ new_order event s HE HI tt s'
            Hadd).
  - intros t e [[-> | [t' ->]] Hsnap]; (split; [right; exists t|]);
      reflexivity || exact Hsnap.
  - intros e He s1 HI1 a s2 [= _ <-] k e'. simpl.
    rewrite odict_get_set. destruct (k =? event_counter s1).
    + intros [= <-]. right. exact He.
    + apply HI1.
  - intros ind price k v s1 HI1 a s2 H2 k' e'.
    rewrite (events_level_setitem _ _ _ _ _ a s2 H2). apply HI1.
  - intros ind price k s1 HI1 a s2 H2 k' e'.
    rewrite (events_delete_order _ _ _ _ a s2 H2). apply HI1.
  - intros ind price k v s1 HI1 _ od s2. unfold create_level.
    destruct (book_data ind s1) as [book|] eqn:Hbook; [|discriminate].
    intros [= _ <-] a s3 H3 k' e'.
    rewrite (events_level_setitem _ _ _ _ _ a s3 H3).
    rewrite events_set_book_data. apply HI1.
Qed.

(** C3.  A fill writes one event that carries the trade and the top of
    the book as it was when the action entered, and writes nothing to the
    trade journal.  With 100 resting at 50.00, a limit buy of 100 at 50.00
    is filled: event 2 carries the trade and the snapshot (no bid, ask
    50.00 with 100), the book is empty, and the trade journal is empty
    with its counter still at 1. *)
Theorem fill_writes_event_but_no_trade_record :
  ∃ s e,
    process (one_ask ++ [limit_buy_100]) init = Return tt s
    ∧ events s
      = [(1, make_event ActAdd (row 1 1 SELL 1 100 100 5000 MktN)
               None 0 None 0); (2, e)]
    ∧ e = with_trade {| trade_price := 5000; trade_quantity := 100;
                        buy_order_number := 2; sell_order_number := 1 |}
            (make_event ActAdd limit_buy_100 None 0 (Some 5000) 100)
    ∧ ev_snapshot e = (None, 0, Some 5000, 100)
    ∧ book_data_B s = ∅ ∧ book_data_S s = ∅
    ∧ trades s = []
    ∧ trade_counter s = 1.
Proof.
  eexists. eexists.
  split; [vm_compute; reflexivity|].
  split; [vm_compute; reflexivity|].
  repeat split.
Qed.

(** * A modify that changes the price *)

(** C4.  [modify] looks the order up in the queue of the new price.  With
    order 1 resting at 49.00, a modify of order 1 to 48.00 finds no queue
    at 48.00: the order stays at 49.00 as it was, nothing is posted at
    48.00, and the only thing written is the modify event, with an empty
    trade. *)
Theorem modify_to_new_price_leaves_order :
  ∃ s s',
    process one_bid init = Return tt s
    ∧ locate (row 1 1 BUY 1 10 100 4900 MktN) s
      = Some (row 1 1 BUY 1 10 100 4900 MktN)
    ∧ modify reprice_bid s = Return tt s'
    ∧ book_data_B s' = {[ 4900 := [(1, row 1 1 BUY 1 10 100 4900 MktN)] ]}
    ∧ book_data_B s' !! 4800 = None
    ∧ book_data_S s' = ∅
    ∧ events s'
      = events s
        ++ [(2, make_event ActModify reprice_bid (Some 4900) 100 None 0)].
Proof.
  eexists. eexists.
  split; [vm_compute; reflexivity|].
  split; [vm_compute; reflexivity|].
  split; [vm_compute; reflexivity|].
  repeat split; vm_compute; reflexivity.
Qed.

(** * The book is never crossed *)

Lemma in_prices (book : gmap Z (odict.t Order)) p :
  p ∈ dom book → p ∈ prices book.
Proof.
  intros [od Hod]%elem_of_dom. unfold prices.
  apply (list_elem_of_fmap_2 fst _ (p, od)), elem_of_map_to_list, Hod.
Qed.

Lemma foldr_min_le p ps x : x ∈ p :: ps → foldr Z.min p ps ≤ x.
Proof.
  induction ps as [|q ps IH]; simpl.
  - intros ->%list_elem_of_singleton. lia.
  - intros [-> | [-> | H]%elem_of_cons]%elem_of_cons; [| lia |].
    + assert (foldr Z.min p ps ≤ p) by (apply IH; left). lia.
    + assert (foldr Z.min p ps ≤ x) by (apply IH; right; exact H). lia.
Qed.

Lemma foldr_max_ge p ps x : x ∈ p :: ps → x ≤ foldr Z.max p ps.
Proof.
  induction ps as [|q ps IH]; simpl.
  - intros ->%list_elem_of_singleton. lia.
  - intros [-> | [-> | H]%elem_of_cons]%elem_of_cons; [| lia |].
    + assert (p ≤ foldr Z.max p ps) by (apply IH; left). lia.
    + assert (x ≤ foldr Z.max p ps) by (apply IH; right; exact H). lia.
Qed.

(** What a best-price query returns: [None] on an empty half-book,
    otherwise a bound of all its prices. *)
Lemma best_price_of_bound ind (pick : Z → Z → Z) (R : Z → Z → Prop) s bp s'
    book :
  (∀ p ps x, x ∈ p :: ps → R (foldr pick p ps) x) →
  book_data ind s = Some book →
  best_price_of ind pick s = Return bp s' →
  match bp with
  | None => book = ∅
  | Some best => ∀ x, x ∈ dom book → R best x
  end.
Proof.
  intros Hbound Hbook. unfold best_price_of. rewrite Hbook.
  destruct (prices book) as [|p ps] eqn:Hprices.
  - intros [= <- _]. unfold prices in Hprices.
    apply fmap_nil_inv, map_to_list_empty_iff in Hprices. exact Hprices.
  - destruct (book !! foldr pick p ps) as [od|]; [|discriminate].
    destruct (odict.is_empty od); [discriminate|].
    intros [= <- _] x Hx. apply Hbound. rewrite <- Hprices.
    apply in_prices, Hx.
Qed.

(** A limit order that is not marketable does not cross the opposite
    half-book. *)
Lemma not_marketable_below_asks price s ask :
  is_marketable BUY price s = Return false s →
  ask ∈ dom (book_data_S s) → price < ask.
Proof.
  unfold is_marketable, bind.
  destruct (best_ask_price s) as [bp s1| |] eqn:Hbp; try discriminate.
  pose proof (best_price_of_bound ASK Z.min Z.le s bp s1 (book_data_S s)
                foldr_min_le eq_refl Hbp) as Hbound.
  destruct bp as [a|].
  - intros [= Hge _] Hask. specialize (Hbound ask Hask). lia.
  - intros _. rewrite Hbound, dom_empty_L. intros H.
    destruct (not_elem_of_empty _ H).
Qed.

Lemma not_marketable_above_bids price s bid :
  is_marketable SELL price s = Return false s →
  bid ∈ dom (book_data_B s) → bid < price.
Proof.
  unfold is_marketable, bind.
  destruct (best_bid_price s) as [bp s1| |] eqn:Hbp; try discriminate.
  pose proof (best_price_of_bound BID Z.max (λ b x, x ≤ b) s bp s1
                (book_data_B s) foldr_max_ge eq_refl Hbp) as Hbound.
  destruct bp as [b|].
  - intros [= Hle _] Hbid. specialize (Hbound bid Hbid). simpl in Hbound. lia.
  - intros _. rewrite Hbound, dom_empty_L. intros H.
    destruct (not_elem_of_empty _ H).
Qed.

Lemma dom_insert_present (book : gmap Z (odict.t Order)) price od :
  price ∈ dom book → dom (<[price := od]> book) ⊆ dom book.
Proof.
  intros H. rewrite dom_insert_L.
  intros x [->%elem_of_singleton | Hx]%elem_of_union; assumption.
Qed.

Lemma dom_delete_within (book : gmap Z (odict.t Order)) price :
  dom (delete price book) ⊆ dom book.
Proof.
  rewrite dom_delete_L. intros x [Hx _]%elem_of_difference. exact Hx.
Qed.

Lemma uncrossed_shrink s s' :
  dom (book_data_B s') ⊆ dom (book_data_B s) →
  dom (book_data_S s') ⊆ dom (book_data_S s) →
  uncrossed s → uncrossed s'.
Proof.
  intros HB HS Hs bid ask Hbid Hask. apply Hs; [apply HB | apply HS];
    assumption.
Qed.

Lemma dom_set_book_data ind book s :
  book_data ind s = Some book →
  ∀ book', dom book' ⊆ dom book →
    dom (book_data_B (set_book_data ind book' s)) ⊆ dom (book_data_B s)
    ∧ dom (book_data_S (set_book_data ind book' s)) ⊆ dom (book_data_S s).
Proof.
  destruct ind; simpl; intros [= <-] book' Hsub; split;
    first [exact Hsub | reflexivity].
Qed.

Lemma uncrossed_record_event e : preserves uncrossed (record_event e).
Proof. intros s Hs a s' [= _ <-]. exact Hs. Qed.

Lemma uncrossed_level_setitem ind price k v :
  preserves uncrossed (level_setitem ind price k v).
Proof.
  intros s Hs a s'. unfold level_setitem.
  destruct (book_data ind s) as [book|] eqn:Hbook; [|discriminate].
  destruct (book !! price) as [od|] eqn:Hod; [|discriminate].
  intros [= _ <-].
  destruct (dom_set_book_data _ _ _ Hbook
              (<[price:=odict.set k v od]> book)) as [HB HS].
  { apply dom_insert_present. apply elem_of_dom_2 in Hod. exact Hod. }
  exact (uncrossed_shrink _ _ HB HS Hs).
Qed.

Lemma uncrossed_delete_order ind price k :
  preserves uncrossed (delete_order ind price k).
Proof.
  intros s Hs a s'. unfold delete_order.
  destruct (book_data ind s) as [book|] eqn:Hbook; [|discriminate].
  pose proof (book_data_names_side _ _ _ Hbook) as Hind.
  destruct (book !! price) as [od|] eqn:Hod; [|discriminate].
  apply elem_of_dom_2 in Hod.
  destruct (odict.pop k od) as [od'|]; [|discriminate].
  destruct (odict.is_empty od').
  - unfold delete_level. rewrite book_data_set_same by exact Hind.
    rewrite lookup_insert_eq. intros [= _ <-].
    rewrite set_book_data_twice, delete_insert_eq.
    destruct (dom_set_book_data _ _ _ Hbook (delete price book)) as [HB HS].
    { apply dom_delete_within. }
    exact (uncrossed_shrink _ _ HB HS Hs).
  - intros [= _ <-].
    destruct (dom_set_book_data _ _ _ Hbook (<[price:=od']> book))
      as [HB HS].
    { apply dom_insert_present, Hod. }
    exact (uncrossed_shrink _ _ HB HS Hs).
Qed.

Lemma uncrossed_clear_book : preserves uncrossed clear_book.
Proof.
  intros s _ a s' [= _ <-] bid ask Hbid. simpl in Hbid.
  rewrite dom_empty_L in Hbid. destruct (not_elem_of_empty _ Hbid).
Qed.

Lemma uncrossed_create_level ind price k v s :
  uncrossed s →
  is_marketable ind price s = Return false s →
  post (create_level ind price) s
       (λ _ s1, post (level_setitem ind price k v) s1 (λ _, uncrossed)).
Proof.
  intros Hs Hmkt od s1. unfold create_level.
  destruct (book_data ind s) as [book|] eqn:Hbook; [|discriminate].
  pose proof (book_data_names_side _ _ _ Hbook) as Hind.
  intros [= _ <-] a s2. unfold level_setitem.
  rewrite book_data_set_same by exact Hind. rewrite lookup_insert_eq.
  intros [= _ <-]. rewrite set_book_data_twice, insert_insert_eq.
  destruct ind; [| |congruence]; simpl in Hbook; injection Hbook as <-;
    intros bid ask; simpl; rewrite dom_insert_L;
    intros Hbid Hask.
  - apply elem_of_union in Hbid as [->%elem_of_singleton | Hbid];
      [exact (not_marketable_below_asks _ _ _ Hmkt Hask) | exact (Hs _ _ Hbid Hask)].
  - apply elem_of_union in Hask as [->%elem_of_singleton | Hask];
      [exact (not_marketable_above_bids _ _ _ Hmkt Hbid) | exact (Hs _ _ Hbid Hask)].
Qed.

Lemma uncrossed_init : uncrossed init.
Proof.
  intros bid ask Hbid. simpl in Hbid. rewrite dom_empty_L in Hbid.
  destruct (not_elem_of_empty _ Hbid).
Qed.

(** Every state that [process] reaches from a new book is uncrossed: the
    best bid is below the best ask whenever both exist. *)
Lemma process_uncrossed df s' :
  process df init = Return tt s' → uncrossed s'.
Proof.
  intros H.
  refine (invariant_process_from uncrossed (λ _, True) _ _
            (λ e _, uncrossed_record_event e)
            uncrossed_level_setitem uncrossed_delete_order
            uncrossed_clear_book uncrossed_create_level df None init
            uncrossed_init tt s' H); any_event.
Qed.

(** On an uncrossed book, an order at a price where its own side already
    holds a queue is not marketable. *)
Lemma resting_price_not_marketable ind price s book :
  no_empty_levels s → uncrossed s →
  book_data ind s = Some book → price ∈ dom book →
  is_marketable ind price s = Return false s.
Proof.
  intros HI Hs Hbook Hprice. unfold is_marketable.
  destruct ind; [| |discriminate]; simpl in Hbook; injection Hbook as <-.
  - destruct (best_price_of_returns ASK Z.min s) as [bp Hbp];
      [discriminate | apply min_picks | exact HI |].
    unfold best_ask_price. rewrite (bind_Return _ _ _ _ _ Hbp).
    destruct bp as [a|]; [|reflexivity].
    apply best_price_of_level in Hbp as (book & od & [= <-] & Hod & _).
    apply elem_of_dom_2 in Hod. specialize (Hs _ _ Hprice Hod).
    unfold ret. f_equal. lia.
  - destruct (best_price_of_returns BID Z.max s) as [bp Hbp];
      [discriminate | apply max_picks | exact HI |].
    unfold best_bid_price. rewrite (bind_Return _ _ _ _ _ Hbp).
    destruct bp as [b|]; [|reflexivity].
    apply best_price_of_level in Hbp as (book & od & [= <-] & Hod & _).
    apply elem_of_dom_2 in Hod. specialize (Hs _ _ Hod Hprice).
    unfold ret. f_equal. lia.
Qed.

(** * A modify that raises the disclosed volume *)

Lemma queue_volume_of_set number v od old :
  odict.get number od = Some old →
  queue_volume_of number (odict.set number v od)
  = queue_volume_of number od - volume_original old + volume_original v.
Proof.
  unfold queue_volume_of.
  induction od as [|[k' v'] od IH]; simpl; [discriminate|].
  destruct (number =? k') eqn:E.
  - intros [= ->]. simpl. apply Z.eqb_eq in E as <-.
    rewrite Z.eqb_refl. lia.
  - intros H. simpl. rewrite (IH H). lia.
Qed.

Lemma keys_set_present {V} k (v old : V) od :
  odict.get k od = Some old → odict.keys (odict.set k v od) = odict.keys od.
Proof.
  unfold odict.keys.
  induction od as [|[k' v'] od IH]; simpl; [discriminate|].
  destruct (k =? k') eqn:E; simpl.
  - intros _. apply Z.eqb_eq in E as ->. reflexivity.
  - intros H. rewrite (IH H). reflexivity.
Qed.

Lemma half_volume_of_delete number book price od :
  book !! price = Some od →
  half_volume_of number book
  = queue_volume_of number od + half_volume_of number (delete price book).
Proof.
  intros H. unfold half_volume_of.
  apply (map_fold_delete_L
           (λ _ (od : odict.t Order) v, queue_volume_of number od + v));
    [intros; lia | exact H].
Qed.

Lemma half_volume_of_insert number book price od :
  half_volume_of number (<[price := od]> book)
  = queue_volume_of number od + half_volume_of number (delete price book).
Proof.
  rewrite <- (insert_delete_eq book). unfold half_volume_of.
  rewrite map_fold_insert_L; [reflexivity | intros; lia |].
  apply lookup_delete_eq.
Qed.

Lemma resting_volume_of_set number ind book0 book s :
  book_data ind s = Some book0 →
  resting_volume_of number (set_book_data ind book s)
  = resting_volume_of number s - half_volume_of number book0
    + half_volume_of number book.
Proof.
  unfold resting_volume_of. destruct ind; simpl; intros [= <-]; lia.
Qed.

(** C10 (as amended).  On a book without empty levels and not crossed,
    a modify that is routed to the disclosed-volume branch (same price,
    same [volume_original], larger [volume_disclosed]) calls [add] with a
    copy of the new order whose [volume_disclosed] is the increase and
    whose [volume_original] is the full one.  That [add] is not
    marketable, and stores the copy under the number of the order in the
    queue of its price, where the old order stood: the old order is
    replaced, the queue keeps its numbers in their places, and the
    [volume_original] resting under that number is what it was.  The add
    event and the modify event are both written, with the top of the book
    as it was on entry. *)
Theorem disclosed_increase_replaces_resting_order
    s new_order old_order book od :
  no_empty_levels s →
  uncrossed s →
  mkt_flag new_order = MktN →
  book_data (buy_sell_indicator new_order) s = Some book →
  book !! limit_price new_order = Some od →
  odict.get (order_number new_order) od = Some old_order →
  limit_price new_order = limit_price old_order →
  volume_original new_order = volume_original old_order →
  volume_disclosed new_order > volume_disclosed old_order →
  let copy := with_volume_disclosed
                (volume_disclosed new_order - volume_disclosed old_order)
                new_order in
  let queue := odict.set (order_number new_order) copy od in
  ∃ bb bbv ba bav,
    modify new_order s
    = Return tt
        (write_event (make_event ActModify new_order bb bbv ba bav)
           (write_event (make_event ActAdd copy bb bbv ba bav)
              (set_book_data (buy_sell_indicator new_order)
                 (<[limit_price new_order := queue]> book) s)))
    ∧ volume_original copy = volume_original new_order
    ∧ odict.get (order_number new_order) queue = Some copy
    ∧ odict.keys queue = odict.keys od
    ∧ ∀ s', modify new_order s = Return tt s' →
            resting_volume_of (order_number new_order) s'
            = resting_volume_of (order_number new_order) s.
Proof.
  intros HI Hs Hflag Hbook Hod Hget Hprice Hvo Hvd copy queue.
  assert (is_marketable (buy_sell_indicator new_order)
            (limit_price new_order) s = Return false s) as Hmkt
    by (eapply resting_price_not_marketable;
        [exact HI | exact Hs | exact Hbook | eapply elem_of_dom_2, Hod]).
  destruct (entry_event_returns s HI) as (bb & bbv & ba & bav & Hentry).
  exists bb, bbv, ba, bav.
  assert (modify new_order s
    = Return tt
        (write_event (make_event ActModify new_order bb bbv ba bav)
           (write_event (make_event ActAdd copy bb bbv ba bav)
              (set_book_data (buy_sell_indicator new_order)
                 (<[limit_price new_order := queue]> book) s)))) as Hmodify.
  { unfold modify.
    rewrite (bind_Return _ _ _ _ _ (Hentry ActModify new_order)), Hflag.
    unfold bind at 1. unfold price_level. rewrite Hbook, Hod, Hget.
    replace (limit_price new_order =? limit_price old_order) with true
      by (symmetry; apply Z.eqb_eq, Hprice).
    replace (volume_original new_order <? volume_original old_order)
      with false by lia.
    replace (volume_disclosed new_order <? volume_disclosed old_order)
      with false by lia.
    replace (volume_original new_order >? volume_original old_order)
      with false by lia.
    replace (volume_disclosed new_order >? volume_disclosed old_order)
      with true by lia.
    cbn [negb]. cbv iota. fold copy.
    pose proof (add_posts s copy book bb bbv ba bav (Hentry ActAdd copy)
                  Hflag Hbook Hmkt) as Hadd.
    change (buy_sell_indicator copy) with (buy_sell_indicator new_order)
      in Hadd.
    change (limit_price copy) with (limit_price new_order) in Hadd.
    change (order_number copy) with (order_number new_order) in Hadd.
    rewrite Hod in Hadd. change (default [] (Some od)) with od in Hadd.
    rewrite (bind_Return _ _ _ _ _ Hadd). reflexivity. }
  split; [exact Hmodify|].
  split; [reflexivity|].
  split; [apply odict_get_set_same|].
  split; [eapply keys_set_present, Hget|].
  intros s' Hs'. rewrite Hmodify in Hs'. injection Hs' as <-.
  change (resting_volume_of (order_number new_order)
            (set_book_data (buy_sell_indicator new_order)
               (<[limit_price new_order:=queue]> book) s)
          = resting_volume_of (order_number new_order) s).
  rewrite (resting_volume_of_set _ _ _ _ _ Hbook).
  rewrite half_volume_of_insert, (half_volume_of_delete _ _ _ _ Hod).
  unfold queue. rewrite (queue_volume_of_set _ _ _ _ Hget).
  cbn [volume_original copy with_volume_disclosed]. lia.
Qed.

(** * Examples *)

Lemma state_of_one_bid : process one_bid init = Return tt (state_of one_bid).
Proof.
  vm_compute. reflexivity.
Qed.

Lemma state_of_one_ask : process one_ask init = Return tt (state_of one_ask).
Proof.
  vm_compute. reflexivity.
Qed.

(** The amended C10 at work: order 1 rests with 100, disclosed 10; the
    modify to disclosed 20 leaves 100 resting under number 1. *)
Lemma disclosed_increase_replaces_resting_order_witness :
  no_empty_levels (state_of one_bid)
  ∧ uncrossed (state_of one_bid)
  ∧ ∃ bb bbv ba bav,
      modify disclose_more (state_of one_bid)
      = Return tt
          (write_event (make_event ActModify disclose_more bb bbv ba bav)
             (write_event
                (make_event ActAdd (with_volume_disclosed (20 - 10)
                                      disclose_more) bb bbv ba bav)
                (set_book_data BUY
                   (<[4900 := odict.set 1 (with_volume_disclosed (20 - 10)
                                             disclose_more)
                                [(1, row 1 1 BUY 1 10 100 4900 MktN)]]>
                      (book_data_B (state_of one_bid)))
                   (state_of one_bid))))
      ∧ volume_original (with_volume_disclosed (20 - 10) disclose_more)
        = volume_original disclose_more
      ∧ odict.get 1 (odict.set 1 (with_volume_disclosed (20 - 10)
                                    disclose_more)
                       [(1, row 1 1 BUY 1 10 100 4900 MktN)])
        = Some (with_volume_disclosed (20 - 10) disclose_more)
      ∧ odict.keys (odict.set 1 (with_volume_disclosed (20 - 10)
                                   disclose_more)
                      [(1, row 1 1 BUY 1 10 100 4900 MktN)])
        = odict.keys [(1, row 1 1 BUY 1 10 100 4900 MktN)]
      ∧ ∀ s', modify disclose_more (state_of one_bid) = Return tt s' →
              resting_volume_of 1 s'
              = resting_volume_of 1 (state_of one_bid).
Proof.
  assert (no_empty_levels (state_of one_bid)) as HI
    by exact (process_no_empty_levels one_bid _ state_of_one_bid).
  assert (uncrossed (state_of one_bid)) as Hs
    by exact (process_uncrossed one_bid _ state_of_one_bid).
  split; [exact HI|]. split; [exact Hs|].
  apply (disclosed_increase_replaces_resting_order (state_of one_bid)
           disclose_more (row 1 1 BUY 1 10 100 4900 MktN)
           (book_data_B (state_of one_bid))
           [(1, row 1 1 BUY 1 10 100 4900 MktN)]).
  - exact HI.
  - exact Hs.
  - reflexivity.
  - reflexivity.
  - vm_compute. reflexivity.
  - reflexivity.
  - reflexivity.
  - reflexivity.
  - simpl. lia.
Defined.

(** C10, as stated, at that input: the volume resting under number 1 does
    not grow by the 100 of the new order, and the old order does not
    stay: the order found under number 1 afterwards is the copy. *)
Lemma disclosed_increase_adds_no_volume :
  ∃ s',
    locate disclose_more (state_of one_bid)
    = Some (row 1 1 BUY 1 10 100 4900 MktN)
    ∧ modify disclose_more (state_of one_bid) = Return tt s'
    ∧ resting_volume_of 1 (state_of one_bid) = 100
    ∧ resting_volume_of 1 s' = 100
    ∧ resting_volume_of 1 s'
      ≠ resting_volume_of 1 (state_of one_bid)
        + volume_original disclose_more
    ∧ locate disclose_more s'
      = Some (with_volume_disclosed 10 disclose_more)
    ∧ book_data_B s'
      = {[ 4900 := [(1, with_volume_disclosed 10 disclose_more)] ]}.
Proof.
  eexists. split; [vm_compute; reflexivity|].
  split; [vm_compute; reflexivity|].
  split; [vm_compute; reflexivity|].
  split; [vm_compute; reflexivity|].
  split; [vm_compute; discriminate|].
  split; vm_compute; reflexivity.
Qed.

(** The amended C6 at work: a second bid at the price of a resting one
    is added and cancelled. *)
Lemma cancel_after_add_restores_book_witness :
  no_empty_levels (state_of one_bid)
  ∧ mkt_flag second_bid = MktN
  ∧ buy_sell_indicator second_bid ≠ NoSide
  ∧ is_marketable (buy_sell_indicator second_bid) (limit_price second_bid)
      (state_of one_bid)
    = Return false (state_of one_bid)
  ∧ locate second_bid (state_of one_bid) = None
  ∧ ∃ s1 s2,
      add second_bid (state_of one_bid) = Return tt s1
      ∧ cancel second_bid s1 = Return tt s2
      ∧ book_data_B s2 = book_data_B (state_of one_bid)
      ∧ book_data_S s2 = book_data_S (state_of one_bid).
Proof.
  assert (no_empty_levels (state_of one_bid)) as HI
    by exact (process_no_empty_levels one_bid _ state_of_one_bid).
  split; [exact HI|].
  split; [reflexivity|].
  split; [discriminate|].
  split; [vm_compute; reflexivity|].
  split; [vm_compute; reflexivity|].
  apply (cancel_after_add_restores_book (state_of one_bid) second_bid).
  - exact HI.
  - reflexivity.
  - discriminate.
  - vm_compute. reflexivity.
  - vm_compute. reflexivity.
Defined.

(** C6, as stated, fails on a book in which the number of the order
    already rests at its side and price: the [add] of a limit order that
    is not marketable replaces the resting order, the [cancel] removes
    it, and the half-book that held order 1 is empty afterwards. *)
Lemma cancel_after_add_of_resting_number_empties_level :
  ∃ s1 s2,
    mkt_flag same_number_bid = MktN
    ∧ is_marketable BUY 4900 (state_of one_bid)
      = Return false (state_of one_bid)
    ∧ book_data_B (state_of one_bid)
      = {[ 4900 := [(1, row 1 1 BUY 1 10 100 4900 MktN)] ]}
    ∧ add same_number_bid (state_of one_bid) = Return tt s1
    ∧ cancel same_number_bid s1 = Return tt s2
    ∧ book_data_B s2 = ∅
    ∧ book_data_B s2 ≠ book_data_B (state_of one_bid).
Proof.
  eexists. eexists.
  split; [reflexivity|].
  split; [vm_compute; reflexivity|].
  split; [vm_compute; reflexivity|].
  split; [vm_compute; reflexivity|].
  split; [vm_compute; reflexivity|].
  split; [vm_compute; reflexivity|].
  vm_compute. discriminate.
Qed.

(** C7 at work: the fill that empties the only ask level. *)
Lemma no_empty_levels_after_step_witness :
  no_empty_levels (state_of one_ask)
  ∧ add limit_buy_100 (state_of one_ask)
    = Return tt (state_of (one_ask ++ [limit_buy_100]))
  ∧ no_empty_levels (state_of (one_ask ++ [limit_buy_100])).
Proof.
  assert (no_empty_levels (state_of one_ask)) as HI
    by exact (process_no_empty_levels one_ask _ state_of_one_ask).
  assert (add limit_buy_100 (state_of one_ask)
          = Return tt (state_of (one_ask ++ [limit_buy_100]))) as Hadd
    by (vm_compute; reflexivity).
  split; [exact HI|]. split; [exact Hadd|].
  apply (no_empty_levels_after_step (state_of one_ask) limit_buy_100).
  - exact HI.
  - left. exact Hadd.
Defined.

(** C8 at work: a cancel and a modify of order 7, which does not rest, on
    a book that holds order 1 at the same price. *)
Lemma order_not_found_is_journaled_witness :
  no_empty_levels (state_of one_bid)
  ∧ locate cancel_unknown (state_of one_bid) = None
  ∧ ∃ bb bbv ba bav,
      modify cancel_unknown (state_of one_bid)
      = Return tt
          (write_event (make_event ActModify cancel_unknown bb bbv ba bav)
             (state_of one_bid))
      ∧ cancel cancel_unknown (state_of one_bid)
        = Return tt
            (write_event (make_event ActCancel cancel_unknown bb bbv ba bav)
               (state_of one_bid)).
Proof.
  assert (no_empty_levels (state_of one_bid)) as HI
    by exact (process_no_empty_levels one_bid _ state_of_one_bid).
  split; [exact HI|]. split; [vm_compute; reflexivity|].
  destruct (order_not_found_is_journaled (state_of one_bid) cancel_unknown)
    as (bb & bbv & ba & bav & Hm & Hc & _).
  - exact HI.
  - discriminate.
  - discriminate.
  - vm_compute. reflexivity.
  - exists bb, bbv, ba, bav. split; [exact Hm | exact Hc].
Defined.

(** C5, as stated, fails on the days 1, 2, 1: the second action changes
    the day, yet the third action, whose day is that of the first, is
    handled without clearing; order 2 is still resting after it. *)
Lemma third_action_on_first_day_is_not_cleared :
  ∃ s,
    date_day (trans_date (row 2 2 BUY 1 100 100 4800 MktN))
    ≠ date_day (trans_date (row 1 1 BUY 1 100 100 4900 MktN))
    ∧ process days_1_2_1 init = Return tt s
    ∧ (process (take 2 days_1_2_1) >>
       dispatch (row 3 1 BUY 1 100 100 4700 MktN)) init = Return tt s
    ∧ (process (take 2 days_1_2_1) >> clear_book >>
       dispatch (row 3 1 BUY 1 100 100 4700 MktN)) init ≠ Return tt s
    ∧ book_data_B s
      = {[ 4800 := [(2, row 2 2 BUY 1 100 100 4800 MktN)];
           4700 := [(3, row 3 1 BUY 1 100 100 4700 MktN)] ]}.
Proof.
  eexists.
  split; [vm_compute; discriminate|].
  split; [vm_compute; reflexivity|].
  split; [vm_compute; reflexivity|].
  split; [vm_compute; discriminate|].
  vm_compute. reflexivity.
Qed.

(** * Invariants that depend on what is written

    Where [od[k] = v] is executed, [v] is either an order stored under
    its own side, price and number ([add], [modify]), or the order read
    from that very place with its volume reduced (the sweeps).  A
    property that is kept by these writes only is still kept by [add],
    [modify], [cancel] and [process]. *)

Lemma preserves_at (I : LimitOrderBook → Prop) {A} (c : M A) s :
  preserves I c → I s → post c s (λ _, I).
Proof. intros H HI. exact (H s HI). Qed.

Lemma level_getitem_write_event side price k e s o :
  level_getitem side price k s = Return o s →
  level_getitem side price k (write_event e s) = Return o (write_event e s).
Proof.
  unfold level_getitem. rewrite book_data_write_event.
  destruct (book_data side s) as [book|]; [|discriminate].
  destruct (book !! price) as [od|]; [|discriminate].
  destruct (odict.get k od); [|discriminate].
  intros [= ->]. reflexivity.
Qed.

Section guarded.
Variable I : LimitOrderBook → Prop.
Variable E : Event → Prop.
Hypothesis E_with_trade : ∀ t e, E e → E (with_trade t e).
Hypothesis E_entry_event :
  ∀ action o s, I s → post (entry_event action o) s (λ e _, E e).
Hypothesis I_record_event : ∀ e, E e → preserves I (record_event e).
Hypothesis I_store :
  ∀ o, preserves I (level_setitem (buy_sell_indicator o) (limit_price o)
                      (order_number o) o).
Hypothesis I_reduce :
  ∀ side price k curr x s, I s →
    level_getitem side price k s = Return curr s →
    post (level_setitem side price k (with_volume_original x curr)) s
         (λ _, I).
Hypothesis I_delete_order :
  ∀ ind price k, preserves I (delete_order ind price k).
Hypothesis I_clear_book : preserves I clear_book.
Hypothesis I_create_level :
  ∀ o s, I s →
    is_marketable (buy_sell_indicator o) (limit_price o) s
    = Return false s →
    post (create_level (buy_sell_indicator o) (limit_price o)) s
         (λ _ s1, post (level_setitem (buy_sell_indicator o) (limit_price o)
                          (order_number o) o) s1 (λ _, I)).

Lemma guarded_sweep_for market side best_price event keys :
  E event →
  ∀ V l, preserves I (sweep_for market side best_price event keys V l).
Proof.
  intros HE.
  induction keys as [|number keys IH]; intros V l; simpl.
  - apply preserves_ret.
  - intros s HI. apply post_bind. intros curr s1 Hget.
    pose proof (readonly_level_getitem _ _ _ s curr s1 Hget) as ->.
    destruct (volume_original curr =? V).
    { apply preserves_at; [|exact HI].
      apply preserves_bind; [reads | intros trade].
      apply preserves_bind;
        [apply I_record_event, E_with_trade, HE | intros _].
      apply preserves_bind; [apply I_delete_order | intros _].
      apply preserves_ret. }
    destruct (volume_original curr >? V).
    { apply post_bind. intros trade s1 Htrade.
      pose proof (readonly_make_trade _ _ _ s trade s1 Htrade) as ->.
      apply post_bind. intros [] s2 [= <-].
      apply post_bind. eapply post_mono.
      - apply I_reduce.
        + exact (I_record_event _ (E_with_trade trade _ HE) s HI tt _
                   eq_refl).
        + apply level_getitem_write_event, Hget.
      - intros ? s3 HI3. apply post_ret, HI3. }
    destruct (volume_original curr <? V); [|apply IH, HI].
    apply preserves_at; [|exact HI].
    apply preserves_bind; [reads | intros trade].
    apply preserves_bind;
      [apply I_record_event, E_with_trade, HE | intros _].
    apply preserves_bind; [apply I_delete_order | intros _].
    apply IH.
Qed.

Lemma guarded_sweep_while fuel market new_order event :
  E event →
  ∀ V l, preserves I (sweep_while fuel market new_order event V l).
Proof.
  intros HE.
  induction fuel as [|fuel IH]; intros V l; simpl;
    (destruct (V >? 0); [|apply preserves_ret]).
  - intros s _ a s' [=].
  - destruct (buy_sell_indicator new_order); [| |apply preserves_raise];
      (apply preserves_bind; [reads | intros bp];
       apply preserves_bind; [reads | intros od];
       destruct od as [od|], bp as [p|]; try apply preserves_raise;
       apply preserves_bind; [apply guarded_sweep_for, HE | intros r];
       apply IH).
Qed.

Lemma guarded_sweep market new_order event :
  E event → preserves I (sweep market new_order event).
Proof.
  intros HE. unfold sweep. apply preserves_bind; [reads | intros s0].
  apply guarded_sweep_while, HE.
Qed.

Lemma guarded_add new_order : preserves I (add new_order).
Proof.
  intros s HI. unfold add. apply post_bind. intros event s1 Hentry.
  pose proof (readonly_entry_event _ _ s event s1 Hentry) as ->.
  pose proof (E_entry_event _ _ s HI event s Hentry) as HE.
  cbv beta in HE.
  destruct (mkt_flag new_order);
    [apply guarded_sweep; assumption | | apply post_raise].
  apply post_bind. intros marketable s1 Hmkt.
  pose proof (readonly_is_marketable _ _ s marketable s1 Hmkt) as ->.
  destruct marketable; simpl; [apply guarded_sweep; assumption|].
  apply post_bind. intros od s1 Hod.
  rewrite (readonly_price_level _ _ s od s1 Hod).
  destruct od as [od|].
  - apply post_bind, post_ret, post_bind.
    eapply post_mono; [apply I_store, HI|].
    intros ? s2 HI2. apply I_record_event; assumption.
  - apply post_bind, post_bind.
    eapply post_mono; [apply (I_create_level new_order _ HI Hmkt)|].
    intros ? s2 H2. apply post_ret, post_bind.
    eapply post_mono; [apply H2|].
    intros ? s3 HI3. apply I_record_event; assumption.
Qed.

Lemma guarded_modify new_order : preserves I (modify new_order).
Proof.
  intros s HI. unfold modify. apply post_bind. intros event s1 Hentry.
  pose proof (readonly_entry_event _ _ s event s1 Hentry) as ->.
  pose proof (E_entry_event _ _ s HI event s Hentry) as HE.
  cbv beta in HE. clear Hentry. revert s HI.
  match goal with
  | |- ∀ s, I s → post ?c s _ => change (preserves I c)
  end.
  destruct (mkt_flag new_order); [apply preserves_raise | ..];
    (apply preserves_bind; [reads | intros od];
     apply preserves_bind; [|intros _; apply I_record_event, HE];
     destruct od as [od|]; [|apply preserves_ret];
     destruct (odict.get (order_number new_order) od) as [old_order|];
       [|apply preserves_ret];
     repeat match goal with
            | |- preserves _ (if ?b then _ else _) => destruct b
            end;
     first [ apply I_store | apply guarded_add
           | apply preserves_ret | idtac ];
     apply preserves_bind; [apply I_delete_order | intros _];
     apply guarded_add).
Qed.

Lemma guarded_cancel order : preserves I (cancel order).
Proof.
  intros s HI. unfold cancel. apply post_bind. intros event s1 Hentry.
  pose proof (readonly_entry_event _ _ s event s1 Hentry) as ->.
  pose proof (E_entry_event _ _ s HI event s Hentry) as HE.
  cbv beta in HE. clear Hentry. revert s HI.
  match goal with
  | |- ∀ s, I s → post ?c s _ => change (preserves I c)
  end.
  destruct (mkt_flag order); [apply preserves_raise | ..];
    (apply preserves_bind; [reads | intros od];
     apply preserves_bind;
       [ destruct od as [od|]; [|apply preserves_ret];
         destruct (odict.get (order_number order) od);
           [apply I_delete_order | apply preserves_ret]
       | intros _; apply preserves_bind; [reads | intros _];
         apply preserves_bind; [reads | intros _];
         apply I_record_event, HE ]).
Qed.

Lemma guarded_dispatch order : preserves I (dispatch order).
Proof.
  unfold dispatch.
  destruct (activity_type order =? 1); [apply guarded_add|].
  destruct (activity_type order =? 3); [apply guarded_cancel|].
  destruct (activity_type order =? 4); [|apply preserves_raise].
  destruct (mkt_flag order);
    [apply guarded_add | apply guarded_modify ..].
Qed.

Lemma guarded_process_row day order : preserves I (process_row day order).
Proof.
  unfold process_row, check_day. apply preserves_bind.
  - destruct day as [d|]; [|apply preserves_ret].
    destruct (negb (d =? date_day (trans_date order)));
      [|apply preserves_ret].
    apply preserves_bind; [apply I_clear_book | intros _].
    apply preserves_ret.
  - intros day'. apply preserves_bind; [|intros _; apply preserves_ret].
    apply guarded_dispatch.
Qed.

Lemma guarded_process_from df : ∀ day, preserves I (process_from day df).
Proof.
  induction df as [|order df IH]; intros day; simpl.
  - apply preserves_ret.
  - apply preserves_bind;
      [apply guarded_process_row | intros day'; apply IH].
Qed.

End guarded.

(** * Ordered dictionaries: entries and keys *)

Lemma odict_get_elem_of {V} k (v : V) od :
  odict.get k od = Some v → (k, v) ∈ od.
Proof.
  induction od as [|[k' v'] od IH]; simpl; [discriminate|].
  destruct (k =? k') eqn:Hk.
  - intros [= ->]. apply Z.eqb_eq in Hk as ->. left.
  - intros H. right. apply IH, H.
Qed.

Lemma odict_elem_of_set {V} k (v : V) od x :
  x ∈ odict.set k v od → x = (k, v) ∨ x ∈ od.
Proof.
  induction od as [|[k' v'] od IH]; simpl.
  - intros ->%list_elem_of_singleton. left. reflexivity.
  - destruct (k =? k').
    + intros [-> | H]%elem_of_cons; [left; reflexivity | right; right; exact H].
    + intros [-> | H]%elem_of_cons; [right; left|].
      destruct (IH H) as [-> | H']; [left; reflexivity | right; right; exact H'].
Qed.

Lemma odict_elem_of_pop {V} k (od od' : odict.t V) x :
  odict.pop k od = Some od' → x ∈ od' → x ∈ od.
Proof.
  revert od'. induction od as [|[k' v'] od IH]; intros od'; simpl;
    [discriminate|].
  destruct (k =? k'); [intros [= <-] H; right; exact H|].
  destruct (odict.pop k od) as [r|]; [|discriminate].
  intros [= <-] [-> | H]%elem_of_cons; [left | right; exact (IH r eq_refl H)].
Qed.

Lemma odict_get_None {V} k (od : odict.t V) :
  odict.get k od = None ↔ k ∉ odict.keys od.
Proof.
  unfold odict.keys. induction od as [|[k' v'] od IH]; simpl.
  - split; [intros _ H; inversion H | reflexivity].
  - destruct (k =? k') eqn:Hk.
    + apply Z.eqb_eq in Hk as ->. split; [discriminate|].
      intros H. destruct H. left.
    + apply Z.eqb_neq in Hk. rewrite IH, not_elem_of_cons. tauto.
Qed.

Lemma odict_keys_set {V} k (v : V) od :
  odict.keys (odict.set k v od)
  = match odict.get k od with
    | Some _ => odict.keys od
    | None => odict.keys od ++ [k]
    end.
Proof.
  destruct (odict.get k od) as [old|] eqn:Hget.
  - exact (keys_set_present k v old od Hget).
  - rewrite (odict_set_fresh k v od Hget). unfold odict.keys.
    rewrite map_app. reflexivity.
Qed.

Lemma odict_NoDup_set {V} k (v : V) od :
  NoDup (odict.keys od) → NoDup (odict.keys (odict.set k v od)).
Proof.
  intros Hnd. rewrite odict_keys_set.
  destruct (odict.get k od) eqn:Hget; [exact Hnd|].
  apply NoDup_app. split; [exact Hnd|]. split.
  - intros x Hx ->%list_elem_of_singleton.
    apply odict_get_None in Hget. exact (Hget Hx).
  - apply NoDup_singleton.
Qed.

Lemma odict_keys_pop {V} k (od od' : odict.t V) :
  odict.pop k od = Some od' → odict.keys od' `sublist_of` odict.keys od.
Proof.
  unfold odict.keys. revert od'.
  induction od as [|[k' v'] od IH]; intros od'; simpl; [discriminate|].
  destruct (k =? k'); [intros [= <-]; apply sublist_cons, reflexivity|].
  destruct (odict.pop k od) as [r|]; [|discriminate].
  intros [= <-]. simpl. apply sublist_skip, IH. reflexivity.
Qed.

(** * Orders rest where their fields say *)

Lemma filed_book ind book s :
  filed s → book_data ind s = Some book → filed_in ind book.
Proof.
  intros [HB HS]. destruct ind; simpl; intros [= <-]; assumption.
Qed.

Lemma filed_set ind book0 book s :
  filed s → book_data ind s = Some book0 → filed_in ind book →
  filed (set_book_data ind book s).
Proof.
  intros [HB HS]. destruct ind; simpl; intros [= <-] H; split; assumption.
Qed.

Lemma filed_in_insert side book price od :
  filed_in side book →
  (∀ k o, (k, o) ∈ od →
          order_number o = k ∧ limit_price o = price
          ∧ buy_sell_indicator o = side) →
  filed_in side (<[price := od]> book).
Proof.
  intros Hbook Hod q od' k o Hq Hin.
  destruct (decide (price = q)) as [<- | Hne].
  - rewrite lookup_insert_eq in Hq. injection Hq as <-. apply Hod, Hin.
  - rewrite lookup_insert_ne in Hq by exact Hne. exact (Hbook _ _ _ _ Hq Hin).
Qed.

Lemma filed_in_delete side book price :
  filed_in side book → filed_in side (delete price book).
Proof.
  intros Hbook q od k o Hq Hin.
  apply lookup_delete_Some in Hq as [_ Hq]. exact (Hbook _ _ _ _ Hq Hin).
Qed.

Lemma filed_record_event e : preserves filed (record_event e).
Proof. intros s Hs a s' [= _ <-]. exact Hs. Qed.

Lemma filed_level_setitem ind price k v :
  order_number v = k → limit_price v = price → buy_sell_indicator v = ind →
  preserves filed (level_setitem ind price k v).
Proof.
  intros Hk Hp Hi s Hs a s'. unfold level_setitem.
  destruct (book_data ind s) as [book|] eqn:Hbook; [|discriminate].
  destruct (book !! price) as [od|] eqn:Hod; [|discriminate].
  intros [= _ <-]. pose proof (filed_book _ _ _ Hs Hbook) as Hf.
  apply (filed_set _ _ _ _ Hs Hbook), filed_in_insert; [exact Hf|].
  intros k' o' [[= -> ->] | Hin]%odict_elem_of_set; [tauto|].
  exact (Hf _ _ _ _ Hod Hin).
Qed.

Lemma filed_reduce side price k curr x s :
  filed s →
  level_getitem side price k s = Return curr s →
  post (level_setitem side price k (with_volume_original x curr)) s
       (λ _, filed).
Proof.
  intros Hs Hget. unfold level_getitem in Hget.
  destruct (book_data side s) as [book|] eqn:Hbook; [|discriminate].
  destruct (book !! price) as [od|] eqn:Hod; [|discriminate].
  destruct (odict.get k od) as [o|] eqn:Hk; [|discriminate].
  injection Hget as ->.
  destruct (filed_book _ _ _ Hs Hbook _ _ _ _ Hod (odict_get_elem_of _ _ _ Hk))
    as (Hn & Hp & Hi).
  apply filed_level_setitem; assumption.
Qed.

Lemma filed_delete_order ind price k : preserves filed (delete_order ind price k).
Proof.
  intros s Hs a s'. unfold delete_order.
  destruct (book_data ind s) as [book|] eqn:Hbook; [|discriminate].
  pose proof (book_data_names_side _ _ _ Hbook) as Hind.
  pose proof (filed_book _ _ _ Hs Hbook) as Hf.
  destruct (book !! price) as [od|] eqn:Hod; [|discriminate].
  destruct (odict.pop k od) as [od'|] eqn:Hpop; [|discriminate].
  destruct (odict.is_empty od').
  - unfold delete_level. rewrite book_data_set_same by exact Hind.
    rewrite lookup_insert_eq. intros [= _ <-].
    rewrite set_book_data_twice, delete_insert_eq.
    apply (filed_set _ _ _ _ Hs Hbook), filed_in_delete, Hf.
  - intros [= _ <-].
    apply (filed_set _ _ _ _ Hs Hbook), filed_in_insert; [exact Hf|].
    intros k' o' Hin. apply (Hf _ _ _ _ Hod).
    exact (odict_elem_of_pop _ _ _ _ Hpop Hin).
Qed.

Lemma filed_in_empty side : filed_in side ∅.
Proof. intros q od k o Hq. rewrite lookup_empty in Hq. discriminate. Qed.

Lemma filed_clear_book : preserves filed clear_book.
Proof. intros s _ a s' [= _ <-]. split; apply filed_in_empty. Qed.

Lemma filed_create_level o s :
  filed s →
  post (create_level (buy_sell_indicator o) (limit_price o)) s
       (λ _ s1, post (level_setitem (buy_sell_indicator o) (limit_price o)
                        (order_number o) o) s1 (λ _, filed)).
Proof.
  intros Hs od s1. unfold create_level.
  destruct (book_data (buy_sell_indicator o) s) as [book|] eqn:Hbook;
    [|discriminate].
  pose proof (book_data_names_side _ _ _ Hbook) as Hind.
  intros [= _ <-] a s2. unfold level_setitem.
  rewrite book_data_set_same by exact Hind. rewrite lookup_insert_eq.
  intros [= _ <-]. rewrite set_book_data_twice, insert_insert_eq.
  apply (filed_set _ _ _ _ Hs Hbook), filed_in_insert;
    [exact (filed_book _ _ _ Hs Hbook)|].
  intros k' o' [= -> ->]%list_elem_of_singleton. tauto.
Qed.

Lemma filed_init : filed init.
Proof. split; apply filed_in_empty. Qed.

Lemma filed_process_from df day : preserves filed (process_from day df).
Proof.
  apply (guarded_process_from filed (λ _, True)); try any_event.
  - intros e _. apply filed_record_event.
  - intros o. apply filed_level_setitem; reflexivity.
  - apply filed_reduce.
  - apply filed_delete_order.
  - apply filed_clear_book.
  - intros o s Hs _. apply filed_create_level, Hs.
Qed.

Lemma filed_add order : preserves filed (add order).
Proof.
  apply (guarded_add filed (λ _, True)); try any_event.
  - intros e _. apply filed_record_event.
  - intros o. apply filed_level_setitem; reflexivity.
  - apply filed_reduce.
  - apply filed_delete_order.
  - intros o s Hs _. apply filed_create_level, Hs.
Qed.

Lemma process_filed df s : process df init = Return tt s → filed s.
Proof. exact (filed_process_from df None init filed_init tt s). Qed.

(** * What the writes of the book leave alone *)

Lemma level_setitem_sets ind price k v s :
  post (level_setitem ind price k v) s
       (λ _ s', ∃ book, s' = set_book_data ind book s).
Proof.
  intros a s'. unfold level_setitem.
  destruct (book_data ind s) as [book|]; [|discriminate].
  destruct (book !! price); [|discriminate].
  intros [= _ <-]. eexists. reflexivity.
Qed.

Lemma delete_order_sets ind price k s :
  post (delete_order ind price k) s
       (λ _ s', ∃ book, s' = set_book_data ind book s).
Proof.
  intros a s'. unfold delete_order, delete_level.
  destruct (book_data ind s) as [book|] eqn:Hbook; [|discriminate].
  destruct (book !! price) as [od|]; [|discriminate].
  destruct (odict.pop k od) as [od'|]; [|discriminate].
  destruct (odict.is_empty od').
  - rewrite (book_data_set_same _ _ _ (book_data_names_side _ _ _ Hbook)).
    rewrite lookup_insert_eq. intros [= _ <-].
    rewrite set_book_data_twice. eexists. reflexivity.
  - intros [= _ <-]. eexists. reflexivity.
Qed.

Lemma create_level_sets ind price s :
  post (create_level ind price) s
       (λ _ s', ∃ book, s' = set_book_data ind book s).
Proof.
  intros a s'. unfold create_level.
  destruct (book_data ind s) as [book|]; [|discriminate].
  intros [= _ <-]. eexists. reflexivity.
Qed.

(** A property of the journals and counters alone is kept by every
    write but [record_event] and [clear_book]. *)
Section journals.
Variable J : LimitOrderBook → Prop.
Hypothesis J_set_book_data : ∀ ind book s, J s → J (set_book_data ind book s).
Hypothesis J_record_event : ∀ e, preserves J (record_event e).
Hypothesis J_clear_book : preserves J clear_book.

Lemma journals_level_setitem ind price k v :
  preserves J (level_setitem ind price k v).
Proof.
  intros s HJ a s' H.
  destruct (level_setitem_sets _ _ _ _ _ a s' H) as [book ->].
  apply J_set_book_data, HJ.
Qed.

Lemma journals_delete_order ind price k :
  preserves J (delete_order ind price k).
Proof.
  intros s HJ a s' H.
  destruct (delete_order_sets _ _ _ _ a s' H) as [book ->].
  apply J_set_book_data, HJ.
Qed.

Lemma journals_create_level ind price k v s :
  J s →
  post (create_level ind price) s
       (λ _ s1, post (level_setitem ind price k v) s1 (λ _, J)).
Proof.
  intros HJ od s1 H1.
  destruct (create_level_sets _ _ _ od s1 H1) as [book ->].
  apply journals_level_setitem, J_set_book_data, HJ.
Qed.

Lemma journals_process_from df day : preserves J (process_from day df).
Proof.
  apply (invariant_process_from J (λ _, True)); try any_event.
  - intros e _. apply J_record_event.
  - apply journals_level_setitem.
  - apply journals_delete_order.
  - apply J_clear_book.
  - intros ind price k v s HJ _. apply journals_create_level, HJ.
Qed.

End journals.

(** * The numbering of the events *)

Lemma seqZ_snoc (c : Z) : 1 ≤ c → seqZ 1 (c - 1) ++ [c] = seqZ 1 c.
Proof.
  intros Hc. replace c with ((c - 1) + 1) at 3 by lia.
  rewrite seqZ_app by lia. f_equal.
  replace (1 + (c - 1)) with c by lia.
  rewrite seqZ_cons by lia. rewrite seqZ_nil by lia. reflexivity.
Qed.

Lemma journal_numbered_record_event e :
  preserves journal_numbered (record_event e).
Proof.
  intros s [Hc Hkeys] a s' [= _ <-]. split; simpl; [lia|].
  assert (odict.get (event_counter s) (events s) = None) as Hfresh.
  { apply odict_get_None. rewrite Hkeys. intros H%elem_of_seqZ. lia. }
  rewrite odict_keys_set, Hfresh, Hkeys.
  replace (event_counter s + 1 - 1) with (event_counter s) by lia.
  apply seqZ_snoc, Hc.
Qed.

Lemma journal_numbered_set_book_data ind book s :
  journal_numbered s → journal_numbered (set_book_data ind book s).
Proof. destruct ind; intros H; exact H. Qed.

Lemma journal_numbered_clear_book : preserves journal_numbered clear_book.
Proof. intros s H a s' [= _ <-]. exact H. Qed.

Lemma journal_numbered_init : journal_numbered init.
Proof. split; [simpl; lia | reflexivity]. Qed.

Lemma process_journal_numbered df s s' :
  journal_numbered s → process df s = Return tt s' → journal_numbered s'.
Proof.
  intros H. apply (journals_process_from journal_numbered
    journal_numbered_set_book_data journal_numbered_record_event
    journal_numbered_clear_book df None s H tt s').
Qed.

(** * No queue holds a number twice *)

Lemma unique_numbers_book ind book s :
  unique_numbers s → book_data ind s = Some book → unique_numbers_in book.
Proof.
  intros [HB HS]. destruct ind; simpl; intros [= <-]; assumption.
Qed.

Lemma unique_numbers_set ind book s :
  unique_numbers s → unique_numbers_in book →
  unique_numbers (set_book_data ind book s).
Proof. intros [HB HS] H. destruct ind; split; assumption. Qed.

Lemma unique_numbers_record_event e :
  preserves unique_numbers (record_event e).
Proof. intros s Hs a s' [= _ <-]. exact Hs. Qed.

Lemma unique_numbers_level_setitem ind price k v :
  preserves unique_numbers (level_setitem ind price k v).
Proof.
  intros s Hs a s'. unfold level_setitem.
  destruct (book_data ind s) as [book|] eqn:Hbook; [|discriminate].
  destruct (book !! price) as [od|] eqn:Hod; [|discriminate].
  intros [= _ <-]. pose proof (unique_numbers_book _ _ _ Hs Hbook) as Hu.
  apply unique_numbers_set; [exact Hs|].
  apply map_Forall_insert_2; [|exact Hu].
  apply odict_NoDup_set, (Hu _ _ Hod).
Qed.

Lemma unique_numbers_delete_order ind price k :
  preserves unique_numbers (delete_order ind price k).
Proof.
  intros s Hs a s'. unfold delete_order.
  destruct (book_data ind s) as [book|] eqn:Hbook; [|discriminate].
  pose proof (book_data_names_side _ _ _ Hbook) as Hind.
  pose proof (unique_numbers_book _ _ _ Hs Hbook) as Hu.
  destruct (book !! price) as [od|] eqn:Hod; [|discriminate].
  destruct (odict.pop k od) as [od'|] eqn:Hpop; [|discriminate].
  destruct (odict.is_empty od').
  - unfold delete_level. rewrite book_data_set_same by exact Hind.
    rewrite lookup_insert_eq. intros [= _ <-].
    rewrite set_book_data_twice, delete_insert_eq.
    apply unique_numbers_set; [exact Hs|]. apply map_Forall_delete, Hu.
  - intros [= _ <-]. apply unique_numbers_set; [exact Hs|].
    apply map_Forall_insert_2; [|exact Hu].
    exact (sublist_NoDup _ _ (Hu _ _ Hod) (odict_keys_pop _ _ _ Hpop)).
Qed.

Lemma unique_numbers_clear_book : preserves unique_numbers clear_book.
Proof. intros s _ a s' [= _ <-]. split; apply map_Forall_empty. Qed.

Lemma unique_numbers_create_level ind price k v s :
  unique_numbers s →
  post (create_level ind price) s
       (λ _ s1, post (level_setitem ind price k v) s1
                     (λ _, unique_numbers)).
Proof.
  intros Hs od s1. unfold create_level.
  destruct (book_data ind s) as [book|] eqn:Hbook; [|discriminate].
  intros [= _ <-]. apply unique_numbers_level_setitem.
  apply unique_numbers_set; [exact Hs|].
  apply map_Forall_insert_2; [apply NoDup_nil_2|].
  exact (unique_numbers_book _ _ _ Hs Hbook).
Qed.

Lemma unique_numbers_init : unique_numbers init.
Proof. split; apply map_Forall_empty. Qed.

Lemma process_unique_numbers df s :
  process df init = Return tt s → unique_numbers s.
Proof.
  apply (invariant_process_from unique_numbers (λ _, True)); try any_event.
  - intros e _. apply unique_numbers_record_event.
  - apply unique_numbers_level_setitem.
  - apply unique_numbers_delete_order.
  - apply unique_numbers_clear_book.
  - intros ind price k v s0 Hs _. apply unique_numbers_create_level, Hs.
  - apply unique_numbers_init.
Qed.

(** * The best prices *)

Lemma best_price_of_spec ind pick (R : Z → Z → Prop) s book :
  (∀ a b, pick a b = a ∨ pick a b = b) →
  (∀ p ps x, x ∈ p :: ps → R (foldr pick p ps) x) →
  book_data ind s = Some book →
  match best_price_of ind pick s with
  | Return None s' => s' = s ∧ book = ∅
  | Return (Some best) s' =>
      s' = s
      ∧ (∃ od, book !! best = Some od ∧ od ≠ [])
      ∧ ∀ price, price ∈ dom book → R best price
  | Raise e s' =>
      s' = s ∧ e = RuntimeError
      ∧ ∃ best, book !! best = Some []
                ∧ ∀ price, price ∈ dom book → R best price
  | OutOfFuel => False
  end.
Proof.
  intros Hpick Hbound Hbook. unfold best_price_of. rewrite Hbook.
  destruct (prices book) as [|p ps] eqn:Hprices.
  - split; [reflexivity|]. unfold prices in Hprices.
    apply fmap_nil_inv, map_to_list_empty_iff in Hprices. exact Hprices.
  - assert (∀ price, price ∈ dom book → R (foldr pick p ps) price) as HR.
    { intros price Hin. apply Hbound. rewrite <- Hprices.
      apply in_prices, Hin. }
    destruct (prices_lookup book (foldr pick p ps)) as [od Hod].
    { rewrite Hprices. apply foldr_pick_in, Hpick. }
    rewrite Hod. destruct od as [|x od]; simpl.
    + split; [reflexivity|]. split; [reflexivity|].
      exists (foldr pick p ps). split; assumption.
    + split; [reflexivity|]. split; [|exact HR].
      exists (x :: od). split; [exact Hod | discriminate].
Qed.

(** X1.  [best_bid_price] never changes the book.  It returns [None]
    exactly on an empty bid half-book; otherwise it returns a price at
    which bids rest and that no bid price exceeds; it raises, with
    [RuntimeError] and nothing else, exactly when the queue at that
    highest price is empty. *)
Theorem best_bid_price_is_highest s :
  match best_bid_price s with
  | Return None s' => s' = s ∧ book_data_B s = ∅
  | Return (Some best) s' =>
      s' = s
      ∧ (∃ od, book_data_B s !! best = Some od ∧ od ≠ [])
      ∧ ∀ price, price ∈ dom (book_data_B s) → price ≤ best
  | Raise e s' =>
      s' = s ∧ e = RuntimeError
      ∧ ∃ best, book_data_B s !! best = Some []
                ∧ ∀ price, price ∈ dom (book_data_B s) → price ≤ best
  | OutOfFuel => False
  end.
Proof.
  exact (best_price_of_spec BID Z.max (λ b x, x ≤ b) s (book_data_B s)
           max_picks foldr_max_ge eq_refl).
Qed.

(** X2.  [best_ask_price] never changes the book.  It returns [None]
    exactly on an empty ask half-book; otherwise it returns a price at
    which asks rest and below which no ask rests; it raises, with
    [RuntimeError] and nothing else, exactly when the queue at that
    lowest price is empty. *)
Theorem best_ask_price_is_lowest s :
  match best_ask_price s with
  | Return None s' => s' = s ∧ book_data_S s = ∅
  | Return (Some best) s' =>
      s' = s
      ∧ (∃ od, book_data_S s !! best = Some od ∧ od ≠ [])
      ∧ ∀ price, price ∈ dom (book_data_S s) → best ≤ price
  | Raise e s' =>
      s' = s ∧ e = RuntimeError
      ∧ ∃ best, book_data_S s !! best = Some []
                ∧ ∀ price, price ∈ dom (book_data_S s) → best ≤ price
  | OutOfFuel => False
  end.
Proof.
  exact (best_price_of_spec ASK Z.min Z.le s (book_data_S s)
           min_picks foldr_min_le eq_refl).
Qed.

Lemma best_quantity_of_spec ind pick s book :
  (∀ a b, pick a b = a ∨ pick a b = b) →
  book_data ind s = Some book →
  match best_quantity_of ind (best_price_of ind pick) s with
  | Return q s' =>
      s' = s
      ∧ ((book = ∅ ∧ q = (0, 0))
         ∨ ∃ best od,
             best_price_of ind pick s = Return (Some best) s
             ∧ book !! best = Some od
             ∧ q = (sum_Z (volume_original <$> odict.values od),
                    sum_Z (volume_disclosed <$> odict.values od)))
  | Raise e s' => s' = s ∧ e = RuntimeError
  | OutOfFuel => False
  end.
Proof.
  intros Hpick Hbook.
  pose proof (best_price_of_spec ind pick (λ _ _, True) s book Hpick
                (λ _ _ _ _, Logic.I) Hbook) as Hspec.
  unfold best_quantity_of, bind.
  destruct (best_price_of ind pick s) as [[best|] s1|e s1|] eqn:Hbp.
  - destruct Hspec as (-> & (od & Hod & _) & _).
    unfold price_level. rewrite Hbook, Hod. split; [reflexivity|].
    right. exists best, od. repeat split. exact Hod.
  - destruct Hspec as (-> & ->). split; [reflexivity|].
    left. split; reflexivity.
  - destruct Hspec as (-> & -> & _). split; reflexivity.
  - exact Hspec.
Qed.

(** X3.  [best_bid_quantity] and [best_ask_quantity] never change the
    book.  They return [(0, 0)] on an empty half-book, and otherwise the
    sums of [volume_original] and of [volume_disclosed] over the queue at
    the best price; the only exception they raise is the [RuntimeError]
    of the best-price query. *)
Theorem best_quantities_sum_the_best_queue s :
  match best_bid_quantity s with
  | Return q s' =>
      s' = s
      ∧ ((book_data_B s = ∅ ∧ q = (0, 0))
         ∨ ∃ best od,
             best_bid_price s = Return (Some best) s
             ∧ book_data_B s !! best = Some od
             ∧ q = (sum_Z (volume_original <$> odict.values od),
                    sum_Z (volume_disclosed <$> odict.values od)))
  | Raise e s' => s' = s ∧ e = RuntimeError
  | OutOfFuel => False
  end
  ∧ match best_ask_quantity s with
    | Return q s' =>
        s' = s
        ∧ ((book_data_S s = ∅ ∧ q = (0, 0))
           ∨ ∃ best od,
               best_ask_price s = Return (Some best) s
               ∧ book_data_S s !! best = Some od
               ∧ q = (sum_Z (volume_original <$> odict.values od),
                      sum_Z (volume_disclosed <$> odict.values od)))
    | Raise e s' => s' = s ∧ e = RuntimeError
    | OutOfFuel => False
    end.
Proof.
  split.
  - exact (best_quantity_of_spec BID Z.max s (book_data_B s) max_picks
             eq_refl).
  - exact (best_quantity_of_spec ASK Z.min s (book_data_S s) min_picks
             eq_refl).
Qed.

(** * What holds of every book that [process] reaches *)

Lemma state_of_bid_and_ask :
  process bid_and_ask init = Return tt (state_of bid_and_ask).
Proof.
  vm_compute. reflexivity.
Qed.

(** X4.  After any stream handled from a new book, the best bid is below
    the best ask whenever both exist: the book is never left crossed. *)
Theorem best_bid_below_best_ask df s bid ask :
  process df init = Return tt s →
  best_bid_price s = Return (Some bid) s →
  best_ask_price s = Return (Some ask) s →
  bid < ask.
Proof.
  intros Hs Hbid Hask. apply (process_uncrossed df s Hs).
  - apply best_price_of_level in Hbid as (book & od & [= <-] & Hod & _).
    eapply elem_of_dom_2, Hod.
  - apply best_price_of_level in Hask as (book & od & [= <-] & Hod & _).
    eapply elem_of_dom_2, Hod.
Qed.

Lemma best_bid_below_best_ask_witness :
  process bid_and_ask init = Return tt (state_of bid_and_ask)
  ∧ best_bid_price (state_of bid_and_ask)
    = Return (Some 4900) (state_of bid_and_ask)
  ∧ best_ask_price (state_of bid_and_ask)
    = Return (Some 5000) (state_of bid_and_ask)
  ∧ 4900 < 5000.
Proof.
  assert (best_bid_price (state_of bid_and_ask)
          = Return (Some 4900) (state_of bid_and_ask)) as Hbid
    by (vm_compute; reflexivity).
  assert (best_ask_price (state_of bid_and_ask)
          = Return (Some 5000) (state_of bid_and_ask)) as Hask
    by (vm_compute; reflexivity).
  split; [exact state_of_bid_and_ask|].
  split; [exact Hbid|]. split; [exact Hask|].
  exact (best_bid_below_best_ask bid_and_ask (state_of bid_and_ask)
           4900 5000 state_of_bid_and_ask Hbid Hask).
Defined.

(** X5.  After any stream handled from a new book, every resting order
    is filed under its own number, in the queue of its own limit price,
    in the half-book of its own side.  (So the order that [modify] finds
    at the new order's side and price always has the new order's price:
    the test of line 749 is then false.) *)
Theorem resting_orders_are_filed_by_their_fields df s :
  process df init = Return tt s →
  filed s
  ∧ ∀ order old_order,
      locate order s = Some old_order →
      order_number old_order = order_number order
      ∧ limit_price old_order = limit_price order
      ∧ buy_sell_indicator old_order = buy_sell_indicator order.
Proof.
  intros Hs. pose proof (process_filed df s Hs) as Hf.
  split; [exact Hf|]. intros order old_order. unfold locate.
  destruct (book_data (buy_sell_indicator order) s) as [book|] eqn:Hbook;
    [|discriminate].
  destruct (book !! limit_price order) as [od|] eqn:Hod; [|discriminate].
  intros Hget%odict_get_elem_of.
  exact (filed_book _ _ _ Hf Hbook _ _ _ _ Hod Hget).
Qed.

Lemma resting_orders_are_filed_by_their_fields_witness :
  process bid_and_ask init = Return tt (state_of bid_and_ask)
  ∧ filed (state_of bid_and_ask)
  ∧ ∀ order old_order,
      locate order (state_of bid_and_ask) = Some old_order →
      order_number old_order = order_number order
      ∧ limit_price old_order = limit_price order
      ∧ buy_sell_indicator old_order = buy_sell_indicator order.
Proof.
  split; [exact state_of_bid_and_ask|].
  exact (resting_orders_are_filed_by_their_fields bid_and_ask
           (state_of bid_and_ask) state_of_bid_and_ask).
Defined.

(** X6.  After any stream handled from a new book, no queue holds two
    orders under the same order number. *)
Theorem queues_hold_each_number_once df s side book price od :
  process df init = Return tt s →
  book_data side s = Some book →
  book !! price = Some od →
  NoDup (odict.keys od).
Proof.
  intros Hs Hbook Hod.
  exact (unique_numbers_book _ _ _ (process_unique_numbers df s Hs) Hbook
           _ _ Hod).
Qed.

Lemma queues_hold_each_number_once_witness :
  process bid_and_ask init = Return tt (state_of bid_and_ask)
  ∧ book_data BUY (state_of bid_and_ask)
    = Some (book_data_B (state_of bid_and_ask))
  ∧ book_data_B (state_of bid_and_ask) !! 4900
    = Some [(1, row 1 1 BUY 1 10 100 4900 MktN)]
  ∧ NoDup (odict.keys [(1, row 1 1 BUY 1 10 100 4900 MktN)]).
Proof.
  assert (book_data_B (state_of bid_and_ask) !! 4900
          = Some [(1, row 1 1 BUY 1 10 100 4900 MktN)]) as Hod
    by (vm_compute; reflexivity).
  split; [exact state_of_bid_and_ask|]. split; [reflexivity|].
  split; [exact Hod|].
  exact (queues_hold_each_number_once bid_and_ask (state_of bid_and_ask)
           BUY (book_data_B (state_of bid_and_ask)) 4900
           [(1, row 1 1 BUY 1 10 100 4900 MktN)]
           state_of_bid_and_ask eq_refl Hod).
Defined.

(** * The journals *)

Lemma events_prefix_record_event evs e :
  preserves (λ s, journal_numbered s ∧ evs `prefix_of` events s)
            (record_event e).
Proof.
  intros s [Hn Hp] a s' Hrec. split.
  - exact (journal_numbered_record_event e s Hn a s' Hrec).
  - injection Hrec as _ Heq. rewrite <- Heq. destruct Hn as [Hc Hkeys].
    change (events (write_event e s))
      with (odict.set (event_counter s) e (events s)).
    rewrite odict_set_fresh.
    + apply prefix_app_r, Hp.
    + apply odict_get_None. rewrite Hkeys. intros H%elem_of_seqZ. lia.
Qed.

(** X7.  The event journal is append-only and numbered without gaps.  If
    the events are numbered 1, 2, ..., [_event_counter - 1] in the order
    written, then after any stream that [process] handles they still
    are, and the events that were there are still there, unchanged, at
    the front. *)
Theorem event_journal_is_append_only df s s' :
  journal_numbered s →
  process df s = Return tt s' →
  journal_numbered s'
  ∧ events s `prefix_of` events s'
  ∧ event_counter s ≤ event_counter s'.
Proof.
  intros Hn Hs.
  assert (journal_numbered s' ∧ events s `prefix_of` events s') as [Hn' Hp].
  { refine (journals_process_from
              (λ s1, journal_numbered s1 ∧ events s `prefix_of` events s1)
              _ (events_prefix_record_event (events s)) _ df None s _ tt s'
              Hs).
    - intros ind book s1 H. destruct ind; exact H.
    - intros s1 H a s2 [= _ <-]. exact H.
    - split; [exact Hn | reflexivity]. }
  split; [exact Hn'|]. split; [exact Hp|].
  apply prefix_length in Hp.
  destruct Hn as [Hc Hkeys], Hn' as [Hc' Hkeys'].
  apply (f_equal length) in Hkeys, Hkeys'.
  unfold odict.keys in Hkeys, Hkeys'.
  rewrite length_map, length_seqZ in Hkeys, Hkeys'. lia.
Qed.

Lemma event_journal_is_append_only_witness :
  journal_numbered init
  ∧ process bid_and_ask init = Return tt (state_of bid_and_ask)
  ∧ journal_numbered (state_of bid_and_ask)
  ∧ events init `prefix_of` events (state_of bid_and_ask)
  ∧ event_counter init ≤ event_counter (state_of bid_and_ask).
Proof.
  split; [exact journal_numbered_init|].
  split; [exact state_of_bid_and_ask|].
  exact (event_journal_is_append_only bid_and_ask init
           (state_of bid_and_ask) journal_numbered_init
           state_of_bid_and_ask).
Defined.

(** X8.  [process] never writes the trade journal and never advances the
    trade counter: a journal that is empty with its counter at 1 is so
    after any stream. *)
Theorem trade_journal_is_never_written df s s' :
  trades s = [] → trade_counter s = 1 →
  process df s = Return tt s' →
  trades s' = [] ∧ trade_counter s' = 1.
Proof.
  intros Ht Hc Hs.
  refine (journals_process_from
            (λ s1, trades s1 = [] ∧ trade_counter s1 = 1)
            _ _ _ df None s (conj Ht Hc) tt s' Hs).
  - intros ind book s1 H. destruct ind; exact H.
  - intros e s1 H a s2 [= _ <-]. exact H.
  - intros s1 [H _] a s2 [= _ <-]. split; [exact H | reflexivity].
Qed.

Lemma trade_journal_is_never_written_witness :
  trades init = [] ∧ trade_counter init = 1
  ∧ process (one_ask ++ [limit_buy_100]) init
    = Return tt (state_of (one_ask ++ [limit_buy_100]))
  ∧ trades (state_of (one_ask ++ [limit_buy_100])) = []
  ∧ trade_counter (state_of (one_ask ++ [limit_buy_100])) = 1.
Proof.
  assert (process (one_ask ++ [limit_buy_100]) init
          = Return tt (state_of (one_ask ++ [limit_buy_100]))) as Hs
    by (vm_compute; reflexivity).
  split; [reflexivity|]. split; [reflexivity|]. split; [exact Hs|].
  exact (trade_journal_is_never_written (one_ask ++ [limit_buy_100]) init
           (state_of (one_ask ++ [limit_buy_100])) eq_refl eq_refl Hs).
Defined.

(** * Posting, changing and cancelling a resting order *)

(** X9.  A limit order that is not marketable is stored under its number
    in the queue of its price on its side: behind every order resting
    there when its number is new to the queue (time priority), and in
    the place of the order of that number otherwise.  The queue is made
    when the price had none; every other queue and the other half-book
    stay as they were; one add event with an empty trade is written. *)
Theorem limit_order_joins_its_queue s order book :
  no_empty_levels s →
  mkt_flag order = MktN →
  book_data (buy_sell_indicator order) s = Some book →
  is_marketable (buy_sell_indicator order) (limit_price order) s
  = Return false s →
  let queue := default [] (book !! limit_price order) in
  let queue' := odict.set (order_number order) order queue in
  ∃ bb bbv ba bav,
    add order s
    = Return tt
        (write_event (make_event ActAdd order bb bbv ba bav)
           (set_book_data (buy_sell_indicator order)
              (<[limit_price order := queue']> book) s))
    ∧ (odict.get (order_number order) queue = None →
       queue' = queue ++ [(order_number order, order)])
    ∧ (is_Some (odict.get (order_number order) queue) →
       odict.keys queue' = odict.keys queue)
    ∧ odict.get (order_number order) queue' = Some order.
Proof.
  intros HI Hflag Hbook Hmkt queue queue'.
  destruct (entry_event_returns s HI) as (bb & bbv & ba & bav & Hentry).
  exists bb, bbv, ba, bav.
  split; [exact (add_posts s order book bb bbv ba bav (Hentry ActAdd order)
                   Hflag Hbook Hmkt)|].
  split; [apply odict_set_fresh|].
  split; [intros [old Hold]; exact (keys_set_present _ _ _ _ Hold)|].
  apply odict_get_set_same.
Qed.

Lemma limit_order_joins_its_queue_witness :
  no_empty_levels (state_of one_bid)
  ∧ is_marketable BUY 4900 (state_of one_bid)
    = Return false (state_of one_bid)
  ∧ ∃ bb bbv ba bav,
      add second_bid (state_of one_bid)
      = Return tt
          (write_event (make_event ActAdd second_bid bb bbv ba bav)
             (set_book_data BUY
                (<[4900 := [(1, row 1 1 BUY 1 10 100 4900 MktN);
                            (2, second_bid)]]>
                   (book_data_B (state_of one_bid)))
                (state_of one_bid))).
Proof.
  assert (no_empty_levels (state_of one_bid)) as HI
    by exact (process_no_empty_levels one_bid _ state_of_one_bid).
  assert (is_marketable BUY 4900 (state_of one_bid)
          = Return false (state_of one_bid)) as Hmkt
    by (vm_compute; reflexivity).
  split; [exact HI|]. split; [exact Hmkt|].
  destruct (limit_order_joins_its_queue (state_of one_bid) second_bid
              (book_data_B (state_of one_bid)) HI eq_refl eq_refl Hmkt)
    as (bb & bbv & ba & bav & Hadd & _).
  exists bb, bbv, ba, bav. exact Hadd.
Defined.

Lemma modify_found s new_order book od old_order bb bbv ba bav :
  entry_event ActModify new_order s
  = Return (make_event ActModify new_order bb bbv ba bav) s →
  mkt_flag new_order ≠ MktY →
  book_data (buy_sell_indicator new_order) s = Some book →
  book !! limit_price new_order = Some od →
  odict.get (order_number new_order) od = Some old_order →
  limit_price new_order = limit_price old_order →
  modify new_order s
  = ((if volume_original new_order <? volume_original old_order
      then level_setitem (buy_sell_indicator new_order)
             (limit_price new_order) (order_number new_order) new_order
      else if volume_disclosed new_order <? volume_disclosed old_order
      then level_setitem (buy_sell_indicator new_order)
             (limit_price new_order) (order_number new_order) new_order
      else if volume_original new_order >? volume_original old_order
      then add (with_volume_original
                  (volume_original new_order - volume_original old_order)
                  new_order)
      else if volume_disclosed new_order >? volume_disclosed old_order
      then add (with_volume_disclosed
                  (volume_disclosed new_order - volume_disclosed old_order)
                  new_order)
      else ret tt) >>
     record_event (make_event ActModify new_order bb bbv ba bav)) s.
Proof.
  intros Hentry Hflag Hbook Hod Hget Hprice. unfold modify.
  rewrite (bind_Return _ _ _ _ _ Hentry).
  assert (price_level (buy_sell_indicator new_order)
            (Some (limit_price new_order)) s = Return (Some od) s) as Hlevel
    by (unfold price_level; rewrite Hbook, Hod; reflexivity).
  destruct (mkt_flag new_order); [congruence | |];
    rewrite (bind_Return _ _ _ _ _ Hlevel), Hget;
    (replace (limit_price new_order =? limit_price old_order) with true
       by (symmetry; apply Z.eqb_eq, Hprice));
    reflexivity.
Qed.

(** X10.  A modify that finds its order and lowers [volume_original], or
    leaves it and lowers [volume_disclosed], replaces the resting order
    by the new one where it stands: the queue keeps its numbers in their
    order (time priority is kept), every other queue stays as it was,
    and the modify event alone is written. *)
Theorem modify_decrease_keeps_the_place s new_order old_order book od :
  no_empty_levels s →
  mkt_flag new_order ≠ MktY →
  book_data (buy_sell_indicator new_order) s = Some book →
  book !! limit_price new_order = Some od →
  odict.get (order_number new_order) od = Some old_order →
  limit_price new_order = limit_price old_order →
  volume_original new_order < volume_original old_order
  ∨ volume_disclosed new_order < volume_disclosed old_order →
  let queue := odict.set (order_number new_order) new_order od in
  ∃ bb bbv ba bav,
    modify new_order s
    = Return tt
        (write_event (make_event ActModify new_order bb bbv ba bav)
           (set_book_data (buy_sell_indicator new_order)
              (<[limit_price new_order := queue]> book) s))
    ∧ odict.keys queue = odict.keys od
    ∧ odict.get (order_number new_order) queue = Some new_order.
Proof.
  intros HI Hflag Hbook Hod Hget Hprice Hless queue.
  destruct (entry_event_returns s HI) as (bb & bbv & ba & bav & Hentry).
  exists bb, bbv, ba, bav.
  split; [|split;
           [exact (keys_set_present _ _ _ _ Hget)
           | apply odict_get_set_same]].
  rewrite (modify_found s new_order book od old_order bb bbv ba bav
             (Hentry ActModify new_order) Hflag Hbook Hod Hget Hprice).
  assert (level_setitem (buy_sell_indicator new_order)
            (limit_price new_order) (order_number new_order) new_order s
          = Return tt (set_book_data (buy_sell_indicator new_order)
                         (<[limit_price new_order := queue]> book) s))
    as Hset by (unfold level_setitem; rewrite Hbook, Hod; reflexivity).
  destruct (volume_original new_order <? volume_original old_order) eqn:Hvo.
  - rewrite (bind_Return _ _ _ _ _ Hset). reflexivity.
  - replace (volume_disclosed new_order <? volume_disclosed old_order)
      with true by lia.
    rewrite (bind_Return _ _ _ _ _ Hset). reflexivity.
Qed.

Lemma modify_decrease_keeps_the_place_witness :
  no_empty_levels (state_of one_bid)
  ∧ ∃ bb bbv ba bav,
      modify (row 1 1 BUY 4 10 60 4900 MktN) (state_of one_bid)
      = Return tt
          (write_event
             (make_event ActModify (row 1 1 BUY 4 10 60 4900 MktN)
                bb bbv ba bav)
             (set_book_data BUY
                (<[4900 := [(1, row 1 1 BUY 4 10 60 4900 MktN)]]>
                   (book_data_B (state_of one_bid)))
                (state_of one_bid))).
Proof.
  assert (no_empty_levels (state_of one_bid)) as HI
    by exact (process_no_empty_levels one_bid _ state_of_one_bid).
  split; [exact HI|].
  destruct (modify_decrease_keeps_the_place (state_of one_bid)
              (row 1 1 BUY 4 10 60 4900 MktN)
              (row 1 1 BUY 1 10 100 4900 MktN)
              (book_data_B (state_of one_bid))
              [(1, row 1 1 BUY 1 10 100 4900 MktN)])
    as (bb & bbv & ba & bav & Hmodify & _).
  - exact HI.
  - discriminate.
  - reflexivity.
  - vm_compute. reflexivity.
  - reflexivity.
  - reflexivity.
  - left. simpl. lia.
  - exists bb, bbv, ba, bav. exact Hmodify.
Defined.

(** X11.  On a book without empty levels and not crossed, a modify that
    finds its order and raises [volume_original] (without lowering
    [volume_disclosed]) calls [add] with a copy of the new order whose
    [volume_original] is the increase alone.  That [add] is not
    marketable and stores the copy under the number of the order, where
    the old order stood: afterwards the order rests with the increase as
    its [volume_original], in its old place in the queue.  An add event
    and the modify event are written. *)
Theorem modify_increase_leaves_the_increase s new_order old_order book od :
  no_empty_levels s →
  uncrossed s →
  mkt_flag new_order = MktN →
  book_data (buy_sell_indicator new_order) s = Some book →
  book !! limit_price new_order = Some od →
  odict.get (order_number new_order) od = Some old_order →
  limit_price new_order = limit_price old_order →
  volume_original new_order > volume_original old_order →
  volume_disclosed old_order ≤ volume_disclosed new_order →
  let copy := with_volume_original
                (volume_original new_order - volume_original old_order)
                new_order in
  let queue := odict.set (order_number new_order) copy od in
  ∃ bb bbv ba bav,
    modify new_order s
    = Return tt
        (write_event (make_event ActModify new_order bb bbv ba bav)
           (write_event (make_event ActAdd copy bb bbv ba bav)
              (set_book_data (buy_sell_indicator new_order)
                 (<[limit_price new_order := queue]> book) s)))
    ∧ odict.get (order_number new_order) queue = Some copy
    ∧ volume_original copy
      = volume_original new_order - volume_original old_order
    ∧ odict.keys queue = odict.keys od.
Proof.
  intros HI Hs Hflag Hbook Hod Hget Hprice Hvo Hvd copy queue.
  assert (is_marketable (buy_sell_indicator new_order)
            (limit_price new_order) s = Return false s) as Hmkt
    by (eapply resting_price_not_marketable;
        [exact HI | exact Hs | exact Hbook | eapply elem_of_dom_2, Hod]).
  destruct (entry_event_returns s HI) as (bb & bbv & ba & bav & Hentry).
  exists bb, bbv, ba, bav.
  split; [|split; [apply odict_get_set_same|split;
                   [reflexivity | exact (keys_set_present _ _ _ _ Hget)]]].
  rewrite (modify_found s new_order book od old_order bb bbv ba bav
             (Hentry ActModify new_order));
    [|congruence | assumption ..].
  replace (volume_original new_order <? volume_original old_order)
    with false by lia.
  replace (volume_disclosed new_order <? volume_disclosed old_order)
    with false by lia.
  replace (volume_original new_order >? volume_original old_order)
    with true by lia.
  fold copy.
  pose proof (add_posts s copy book bb bbv ba bav (Hentry ActAdd copy)
                Hflag Hbook Hmkt) as Hadd.
  change (buy_sell_indicator copy) with (buy_sell_indicator new_order)
    in Hadd.
  change (limit_price copy) with (limit_price new_order) in Hadd.
  change (order_number copy) with (order_number new_order) in Hadd.
  rewrite Hod in Hadd. change (default [] (Some od)) with od in Hadd.
  rewrite (bind_Return _ _ _ _ _ Hadd). reflexivity.
Qed.

Lemma modify_increase_leaves_the_increase_witness :
  no_empty_levels (state_of one_bid)
  ∧ uncrossed (state_of one_bid)
  ∧ ∃ bb bbv ba bav,
      modify (row 1 1 BUY 4 10 150 4900 MktN) (state_of one_bid)
      = Return tt
          (write_event
             (make_event ActModify (row 1 1 BUY 4 10 150 4900 MktN)
                bb bbv ba bav)
             (write_event
                (make_event ActAdd (row 1 1 BUY 4 10 50 4900 MktN)
                   bb bbv ba bav)
                (set_book_data BUY
                   (<[4900 := [(1, row 1 1 BUY 4 10 50 4900 MktN)]]>
                      (book_data_B (state_of one_bid)))
                   (state_of one_bid)))).
Proof.
  assert (no_empty_levels (state_of one_bid)) as HI
    by exact (process_no_empty_levels one_bid _ state_of_one_bid).
  assert (uncrossed (state_of one_bid)) as Hs
    by exact (process_uncrossed one_bid _ state_of_one_bid).
  split; [exact HI|]. split; [exact Hs|].
  destruct (modify_increase_leaves_the_increase (state_of one_bid)
              (row 1 1 BUY 4 10 150 4900 MktN)
              (row 1 1 BUY 1 10 100 4900 MktN)
              (book_data_B (state_of one_bid))
              [(1, row 1 1 BUY 1 10 100 4900 MktN)])
    as (bb & bbv & ba & bav & Hmodify & _).
  - exact HI.
  - exact Hs.
  - reflexivity.
  - reflexivity.
  - vm_compute. reflexivity.
  - reflexivity.
  - reflexivity.
  - simpl. lia.
  - simpl. lia.
  - exists bb, bbv, ba, bav. exact Hmodify.
Defined.

Lemma odict_pop_of_get {V} k (v : V) od :
  odict.get k od = Some v → is_Some (odict.pop k od).
Proof.
  induction od as [|[k' v'] od IH]; simpl; [discriminate|].
  destruct (k =? k'); [eexists; reflexivity|].
  intros H. destruct (IH H) as [r ->]. eexists; reflexivity.
Qed.

Lemma odict_get_pop_ne {V} k k' (od od' : odict.t V) :
  odict.pop k od = Some od' → k' ≠ k → odict.get k' od' = odict.get k' od.
Proof.
  revert od'. induction od as [|[k0 v0] od IH]; intros od'; simpl;
    [discriminate|].
  destruct (k =? k0) eqn:Hk.
  - intros [= <-] Hne. apply Z.eqb_eq in Hk as <-.
    replace (k' =? k) with false by lia. reflexivity.
  - destruct (odict.pop k od) as [r|]; [|discriminate].
    intros [= <-] Hne. simpl. rewrite (IH r eq_refl Hne). reflexivity.
Qed.

Lemma odict_get_pop_same {V} k (od od' : odict.t V) :
  NoDup (odict.keys od) → odict.pop k od = Some od' →
  odict.get k od' = None.
Proof.
  unfold odict.keys. revert od'.
  induction od as [|[k0 v0] od IH]; intros od'; simpl; [discriminate|].
  intros [Hnot Hnd]%NoDup_cons. destruct (k =? k0) eqn:Hk.
  - intros [= <-]. apply Z.eqb_eq in Hk as ->.
    apply odict_get_None, Hnot.
  - destruct (odict.pop k od) as [r|]; [|discriminate].
    intros [= <-]. simpl. rewrite Hk. apply IH; [exact Hnd | reflexivity].
Qed.

(** X12.  On a book without empty levels, the cancel of an order that is
    found under its side, price and number returns: that entry is taken
    out of its queue, the queue is dropped from the half-book when it
    was the last entry, the other entries keep their order, every other
    queue stays as it was, and one cancel event with an empty trade is
    written.  When the queue held the number once, the order is not
    found there any more. *)
Theorem cancel_removes_the_order s order old_order book od :
  no_empty_levels s →
  mkt_flag order ≠ MktY →
  book_data (buy_sell_indicator order) s = Some book →
  book !! limit_price order = Some od →
  odict.get (order_number order) od = Some old_order →
  ∃ od' bb bbv ba bav,
    odict.pop (order_number order) od = Some od'
    ∧ cancel order s
      = Return tt
          (write_event (make_event ActCancel order bb bbv ba bav)
             (set_book_data (buy_sell_indicator order)
                (if odict.is_empty od' then delete (limit_price order) book
                 else <[limit_price order := od']> book) s))
    ∧ length od = S (length od')
    ∧ (∀ k, k ≠ order_number order → odict.get k od' = odict.get k od)
    ∧ (NoDup (odict.keys od) → odict.get (order_number order) od' = None).
Proof.
  intros HI Hflag Hbook Hod Hget.
  destruct (odict_pop_of_get _ _ _ Hget) as [od' Hpop].
  destruct (entry_event_returns s HI) as (bb & bbv & ba & bav & Hentry).
  exists od', bb, bbv, ba, bav.
  split; [exact Hpop|].
  split; [|split; [exact (length_pop _ _ _ Hpop)|split;
       [intros k Hk; exact (odict_get_pop_ne _ _ _ _ Hpop Hk)
       | intros Hnd; exact (odict_get_pop_same _ _ _ Hnd Hpop)]]].
  pose proof (book_data_names_side _ _ _ Hbook) as Hind.
  set (s1 := set_book_data (buy_sell_indicator order)
               (if odict.is_empty od' then delete (limit_price order) book
                else <[limit_price order := od']> book) s).
  assert (delete_order (buy_sell_indicator order) (limit_price order)
            (order_number order) s = Return tt s1) as Hdel.
  { unfold delete_order, delete_level, s1. rewrite Hbook, Hod, Hpop.
    destruct (odict.is_empty od'); [|reflexivity].
    rewrite book_data_set_same by exact Hind.
    rewrite lookup_insert_eq, set_book_data_twice, delete_insert_eq.
    reflexivity. }
  assert (no_empty_levels s1) as HI1
    by exact (preserves_delete_order _ _ _ s HI tt s1 Hdel).
  assert (∃ bbq, best_bid_quantity s1 = Return bbq s1) as [bbq Hbbq]
    by (apply best_quantity_of_returns;
        [discriminate | apply max_picks | exact HI1]).
  assert (∃ baq, best_ask_quantity s1 = Return baq s1) as [baq Hbaq]
    by (apply best_quantity_of_returns;
        [discriminate | apply min_picks | exact HI1]).
  assert (price_level (buy_sell_indicator order)
            (Some (limit_price order)) s = Return (Some od) s) as Hlevel
    by (unfold price_level; rewrite Hbook, Hod; reflexivity).
  unfold cancel. rewrite (bind_Return _ _ _ _ _ (Hentry ActCancel order)).
  destruct (mkt_flag order); [congruence | |];
    rewrite (bind_Return _ _ _ _ _ Hlevel), Hget;
    rewrite (bind_Return _ _ _ _ _ Hdel);
    rewrite (bind_Return _ _ _ _ _ Hbbq), (bind_Return _ _ _ _ _ Hbaq);
    reflexivity.
Qed.

Lemma cancel_removes_the_order_witness :
  no_empty_levels (state_of one_bid)
  ∧ ∃ bb bbv ba bav,
      cancel (row 1 1 BUY 3 10 100 4900 MktN) (state_of one_bid)
      = Return tt
          (write_event
             (make_event ActCancel (row 1 1 BUY 3 10 100 4900 MktN)
                bb bbv ba bav)
             (set_book_data BUY
                (delete 4900 (book_data_B (state_of one_bid)))
                (state_of one_bid))).
Proof.
  assert (no_empty_levels (state_of one_bid)) as HI
    by exact (process_no_empty_levels one_bid _ state_of_one_bid).
  split; [exact HI|].
  destruct (cancel_removes_the_order (state_of one_bid)
              (row 1 1 BUY 3 10 100 4900 MktN)
              (row 1 1 BUY 1 10 100 4900 MktN)
              (book_data_B (state_of one_bid))
              [(1, row 1 1 BUY 1 10 100 4900 MktN)])
    as (od' & bb & bbv & ba & bav & Hpop & Hcancel & _).
  - exact HI.
  - discriminate.
  - reflexivity.
  - vm_compute. reflexivity.
  - reflexivity.
  - exists bb, bbv, ba, bav. injection Hpop as <-. exact Hcancel.
Defined.

(** * Exceptions and edges of [process] and [add] *)

Lemma process_from_stops day df df' s e s' :
  process_from day df s = Raise e s' →
  process_from day (df ++ df') s = Raise e s'.
Proof.
  revert day s. induction df as [|order df IH]; intros day s; simpl;
    [discriminate|].
  unfold bind.
  destruct (process_row day order s) as [day1 s1|e1 s1|];
    [apply IH | intros H; exact H | discriminate].
Qed.

(** X13.  An exception ends the stream: when [process] raises on a
    stream, it raises the same exception, with the same book and
    journals left behind, on every stream that begins with it; no later
    row is handled. *)
Theorem process_stops_at_the_first_exception df df' s e s' :
  process df s = Raise e s' →
  process (df ++ df') s = Raise e s'.
Proof. apply process_from_stops. Qed.

Lemma process_stops_at_the_first_exception_witness :
  process [market_buy_200] init = Raise TypeError init
  ∧ process ([market_buy_200] ++ one_bid) init = Raise TypeError init.
Proof.
  assert (process [market_buy_200] init = Raise TypeError init) as H
    by (vm_compute; reflexivity).
  split; [exact H|].
  exact (process_stops_at_the_first_exception [market_buy_200] one_bid init
           TypeError init H).
Defined.

(** X14.  On a book without empty levels, a market order whose volume is
    not positive, and a marketable limit order whose volume is not
    positive, return at once: the loop is not entered, the book is left
    as it was, and no event is written. *)
Theorem order_without_volume_leaves_no_trace s order :
  no_empty_levels s →
  volume_original order ≤ 0 →
  mkt_flag order = MktY
  ∨ (mkt_flag order = MktN
     ∧ is_marketable (buy_sell_indicator order) (limit_price order) s
       = Return true s) →
  add order s = Return tt s.
Proof.
  intros HI Hvol Hflag.
  destruct (entry_event_returns s HI) as (bb & bbv & ba & bav & Hentry).
  unfold add. rewrite (bind_Return _ _ _ _ _ (Hentry ActAdd order)).
  assert (∀ market event, sweep market order event s = Return tt s) as Hsweep.
  { intros market event. unfold sweep, bind, get_state.
    apply sweep_while_done, Hvol. }
  destruct Hflag as [-> | [-> Hmkt]]; [apply Hsweep|].
  rewrite (bind_Return _ _ _ _ _ Hmkt). apply Hsweep.
Qed.

Lemma order_without_volume_leaves_no_trace_witness :
  no_empty_levels (state_of one_ask)
  ∧ add (row 5 1 BUY 1 0 0 0 MktY) (state_of one_ask)
    = Return tt (state_of one_ask).
Proof.
  assert (no_empty_levels (state_of one_ask)) as HI
    by exact (process_no_empty_levels one_ask _ state_of_one_ask).
  split; [exact HI|].
  apply (order_without_volume_leaves_no_trace (state_of one_ask)
           (row 5 1 BUY 1 0 0 0 MktY) HI).
  - simpl. lia.
  - left. reflexivity.
Defined.

(** * The first fill *)

Lemma delete_order_head side price k v rest book s :
  book_data side s = Some book →
  book !! price = Some ((k, v) :: rest) →
  delete_order side price k s
  = Return tt (set_book_data side
                 (if odict.is_empty rest then delete price book
                  else <[price := rest]> book) s).
Proof.
  intros Hbook Hod. unfold delete_order, delete_level.
  rewrite Hbook, Hod. simpl. rewrite Z.eqb_refl.
  destruct (odict.is_empty rest); [|reflexivity].
  rewrite (book_data_set_same _ _ _ (book_data_names_side _ _ _ Hbook)).
  rewrite lookup_insert_eq, set_book_data_twice, delete_insert_eq.
  reflexivity.
Qed.

Lemma level_setitem_head side price k v v' rest book s :
  book_data side s = Some book →
  book !! price = Some ((k, v) :: rest) →
  level_setitem side price k v' s
  = Return tt (set_book_data side (<[price := (k, v') :: rest]> book) s).
Proof.
  intros Hbook Hod. unfold level_setitem. rewrite Hbook, Hod. simpl.
  rewrite Z.eqb_refl. reflexivity.
Qed.

Lemma sweep_first_fill market s order side best book k top rest event :
  filed s →
  buy_sell_indicator order = side →
  book_data (opposite side) s = Some book →
  best_opposite_price side s = Return (Some best) s →
  book !! best = Some ((k, top) :: rest) →
  0 < volume_original order ≤ volume_original top →
  let V := volume_original order in
  let R := volume_original top in
  sweep market order event s
  = Return tt
      (write_event
         (with_trade
            (trade_between side best (if R =? V then V else R - V)
               (order_number order) (order_number top)) event)
         (set_book_data (opposite side)
            (if R =? V then
               if odict.is_empty rest then delete best book
               else <[best := rest]> book
             else <[best := (k, with_volume_original (R - V) top)
                            :: rest]> book) s)).
Proof.
  intros Hf Hside Hbook Hbest Hod [HV HR] V R.
  pose proof (book_data_names_side _ _ _ Hbook) as Hopp.
  assert (buy_sell_indicator top = opposite side) as Hres.
  { apply (filed_book _ _ _ Hf Hbook _ _ k top Hod). left. }
  assert (level_getitem (opposite side) best k s = Return top s) as Hget.
  { unfold level_getitem. rewrite Hbook, Hod. simpl.
    rewrite Z.eqb_refl. reflexivity. }
  assert (price_level (opposite side) (Some best) s
          = Return (Some ((k, top) :: rest)) s) as Hlevel
    by (unfold price_level; rewrite Hbook, Hod; reflexivity).
  assert (∀ e, book_data (opposite side) (write_event e s) = Some book)
    as Hbook' by (intros e; rewrite book_data_write_event; exact Hbook).
  unfold sweep, bind at 1, get_state. simpl sweep_while. fold V.
  replace (V >? 0) with true by lia. rewrite Hside.
  destruct side; [| |destruct Hopp; reflexivity];
    simpl in Hbest;
    [ change (opposite BUY) with SELL in *
    | change (opposite SELL) with BUY in * ];
    rewrite (bind_Return _ _ _ _ _ Hbest), (bind_Return _ _ _ _ _ Hlevel);
    cbv iota;
    change (odict.keys ((k, top) :: rest)) with (k :: odict.keys rest);
    unfold bind at 1;
    (erewrite sweep_for_head;
       [|exact Hget | rewrite Hres; reflexivity | rewrite Hres; reflexivity]);
    fold R; rewrite Hres;
    (destruct (R =? V) eqn:Heq;
     [|replace (R >? V) with true by lia]);
    unfold bind at 1; unfold record_event at 1;
    first [ erewrite (bind_Return _ _ _ _ _
                        (delete_order_head _ _ _ _ _ _ _ (Hbook' _) Hod))
          | erewrite (bind_Return _ _ _ _ _
                        (level_setitem_head _ _ _ _ _ _ _ _ (Hbook' _) Hod)) ];
    unfold ret; simpl fst; simpl snd;
    rewrite sweep_while_done by lia;
    rewrite set_book_data_write_event; reflexivity.
Qed.

(** X15.  On a book without empty levels whose orders are filed by their
    fields, a market order, or a marketable limit order, of volume [V]
    with [0 < V] that meets at the best opposite price an oldest order of
    volume [R] with [V ≤ R] is filled by that order alone, at that price.
    One add event is written; it carries the top of the book as it was
    on entry and a trade between the two order numbers.  When [R = V]
    the trade has quantity [V] and the resting order leaves its queue,
    which is dropped when it held no other order; when [R > V] the trade
    has quantity [R - V] and the resting order stays at the front of its
    queue with volume [R - V].  The half-book of the incoming order is
    left as it was, and the incoming order is not posted. *)
Theorem marketable_order_meets_the_oldest_at_the_best_price
    s order side best book k top rest :
  no_empty_levels s →
  filed s →
  buy_sell_indicator order = side →
  book_data (opposite side) s = Some book →
  best_opposite_price side s = Return (Some best) s →
  book !! best = Some ((k, top) :: rest) →
  mkt_flag order = MktY
  ∨ (mkt_flag order = MktN
     ∧ is_marketable side (limit_price order) s = Return true s) →
  0 < volume_original order ≤ volume_original top →
  let V := volume_original order in
  let R := volume_original top in
  ∃ bb bbv ba bav,
    entry_event ActAdd order s
    = Return (make_event ActAdd order bb bbv ba bav) s
    ∧ add order s
    = Return tt
        (write_event
           (with_trade
              (trade_between side best (if R =? V then V else R - V)
                 (order_number order) (order_number top))
              (make_event ActAdd order bb bbv ba bav))
           (set_book_data (opposite side)
              (if R =? V then
                 if odict.is_empty rest then delete best book
                 else <[best := rest]> book
               else <[best := (k, with_volume_original (R - V) top)
                              :: rest]> book) s)).
Proof.
  intros HI Hf Hside Hbook Hbest Hod Hflag Hvol V R.
  destruct (entry_event_returns s HI) as (bb & bbv & ba & bav & Hentry).
  exists bb, bbv, ba, bav. split; [apply Hentry|].
  unfold add. rewrite (bind_Return _ _ _ _ _ (Hentry ActAdd order)).
  destruct Hflag as [-> | [-> Hmkt]].
  - exact (sweep_first_fill true s order side best book k top rest _
             Hf Hside Hbook Hbest Hod Hvol).
  - rewrite Hside, (bind_Return _ _ _ _ _ Hmkt).
    exact (sweep_first_fill false s order side best book k top rest _
             Hf Hside Hbook Hbest Hod Hvol).
Qed.

Lemma state_of_two_asks : process two_asks init = Return tt (state_of two_asks).
Proof.
  vm_compute. reflexivity.
Qed.

Lemma marketable_order_meets_the_oldest_at_the_best_price_witness :
  no_empty_levels (state_of two_asks)
  ∧ filed (state_of two_asks)
  ∧ best_opposite_price BUY (state_of two_asks)
    = Return (Some 5000) (state_of two_asks)
  ∧ is_marketable BUY 5000 (state_of two_asks)
    = Return true (state_of two_asks)
  ∧ ∃ bb bbv ba bav,
      entry_event ActAdd (row 3 1 BUY 1 60 60 5000 MktN) (state_of two_asks)
      = Return (make_event ActAdd (row 3 1 BUY 1 60 60 5000 MktN)
                  bb bbv ba bav) (state_of two_asks)
      ∧ add (row 3 1 BUY 1 60 60 5000 MktN) (state_of two_asks)
      = Return tt
          (write_event
             (with_trade
                {| trade_price := 5000; trade_quantity := 40;
                   buy_order_number := 3; sell_order_number := 1 |}
                (make_event ActAdd (row 3 1 BUY 1 60 60 5000 MktN)
                   bb bbv ba bav))
             (set_book_data SELL
                (<[5000 := [(1, row 1 1 SELL 1 100 40 5000 MktN)]]>
                   (book_data_S (state_of two_asks)))
                (state_of two_asks))).
Proof.
  assert (no_empty_levels (state_of two_asks)) as HI
    by exact (process_no_empty_levels two_asks _ state_of_two_asks).
  assert (filed (state_of two_asks)) as Hf
    by exact (process_filed two_asks _ state_of_two_asks).
  assert (best_opposite_price BUY (state_of two_asks)
          = Return (Some 5000) (state_of two_asks)) as Hbest
    by (vm_compute; reflexivity).
  assert (is_marketable BUY 5000 (state_of two_asks)
          = Return true (state_of two_asks)) as Hmkt
    by (vm_compute; reflexivity).
  split; [exact HI|]. split; [exact Hf|]. split; [exact Hbest|].
  split; [exact Hmkt|].
  apply (marketable_order_meets_the_oldest_at_the_best_price
           (state_of two_asks) (row 3 1 BUY 1 60 60 5000 MktN) BUY 5000
           (book_data_S (state_of two_asks)) 1
           (row 1 1 SELL 1 100 100 5000 MktN) []).
  - exact HI.
  - exact Hf.
  - reflexivity.
  - reflexivity.
  - exact Hbest.
  - vm_compute. reflexivity.
  - right. split; [reflexivity | exact Hmkt].
  - simpl. lia.
Defined.

(** * A sweep stays on the other side *)

Lemma book_data_set_other ind side book s :
  ind ≠ side → book_data ind (set_book_data side book s) = book_data ind s.
Proof. destruct ind, side; intros H; first [reflexivity | congruence]. Qed.

Lemma touches_only_refl side s : touches_only side s s.
Proof. intros ind _. reflexivity. Qed.

Lemma touches_only_trans side s1 s2 s3 :
  touches_only side s1 s2 → touches_only side s2 s3 →
  touches_only side s1 s3.
Proof.
  intros H12 H23 ind Hind. rewrite (H23 ind Hind). apply H12, Hind.
Qed.

Lemma touches_only_write_event side e s : touches_only side s (write_event e s).
Proof. intros ind _. apply book_data_write_event. Qed.

Lemma touches_only_set side book s :
  touches_only side s (set_book_data side book s).
Proof. intros ind Hind. apply book_data_set_other, Hind. Qed.

Lemma filed_level_getitem side price k s curr :
  filed s → level_getitem side price k s = Return curr s →
  buy_sell_indicator curr = side.
Proof.
  intros Hf. unfold level_getitem.
  destruct (book_data side s) as [book|] eqn:Hbook; [|discriminate].
  destruct (book !! price) as [od|] eqn:Hod; [|discriminate].
  destruct (odict.get k od) as [o|] eqn:Hk; [|discriminate].
  intros [= ->].
  apply (filed_book _ _ _ Hf Hbook _ _ _ _ Hod (odict_get_elem_of _ _ _ Hk)).
Qed.

Lemma sweep_for_stays market side best_price event keys :
  ∀ V l s,
    filed s →
    post (sweep_for market side best_price event keys V l) s
         (λ _ s', filed s' ∧ touches_only side s s').
Proof.
  induction keys as [|number keys IH]; intros V l s Hf; simpl.
  - apply post_ret. split; [exact Hf | apply touches_only_refl].
  - apply post_bind. intros curr s1 Hget.
    pose proof (readonly_level_getitem _ _ _ s curr s1 Hget) as ->.
    pose proof (filed_level_getitem _ _ _ _ _ Hf Hget) as Hcurr.
    rewrite Hcurr.
    assert (∀ e, filed (write_event e s)) as Hfe
      by (intros e; exact (filed_record_event e s Hf tt _ eq_refl)).
    destruct (volume_original curr =? V).
    { apply post_bind. intros trade s1 Htrade.
      pose proof (readonly_make_trade _ _ _ s trade s1 Htrade) as ->.
      apply post_bind. intros [] s2 [= <-].
      apply post_bind. intros [] s3 Hdel. apply post_ret. split.
      - exact (filed_delete_order _ _ _ _ (Hfe _) tt s3 Hdel).
      - destruct (delete_order_sets _ _ _ _ tt s3 Hdel) as [book ->].
        eapply touches_only_trans;
          [apply touches_only_write_event | apply touches_only_set]. }
    destruct (volume_original curr >? V).
    { apply post_bind. intros trade s1 Htrade.
      pose proof (readonly_make_trade _ _ _ s trade s1 Htrade) as ->.
      apply post_bind. intros [] s2 [= <-].
      apply post_bind. intros [] s3 Hset. apply post_ret. split.
      - exact (filed_reduce _ _ _ _ _ _ (Hfe _)
                 (level_getitem_write_event _ _ _ _ _ _ Hget) tt s3 Hset).
      - destruct (level_setitem_sets _ _ _ _ _ tt s3 Hset) as [book ->].
        eapply touches_only_trans;
          [apply touches_only_write_event | apply touches_only_set]. }
    destruct (volume_original curr <? V); [|apply IH, Hf].
    apply post_bind. intros trade s1 Htrade.
    pose proof (readonly_make_trade _ _ _ s trade s1 Htrade) as ->.
    apply post_bind. intros [] s2 [= <-].
    apply post_bind. intros [] s3 Hdel.
    pose proof (filed_delete_order _ _ _ _ (Hfe _) tt s3 Hdel) as Hf3.
    eapply post_mono; [apply IH, Hf3|].
    intros r s4 [Hf4 Ht]. split; [exact Hf4|].
    destruct (delete_order_sets _ _ _ _ tt s3 Hdel) as [book ->].
    eapply touches_only_trans; [|exact Ht].
    eapply touches_only_trans;
      [apply touches_only_write_event | apply touches_only_set].
Qed.

Lemma sweep_while_stays fuel market order event :
  ∀ V l s,
    filed s →
    post (sweep_while fuel market order event V l) s
         (λ _ s', filed s'
                  ∧ touches_only (opposite (buy_sell_indicator order)) s s').
Proof.
  induction fuel as [|fuel IH]; intros V l s Hf; simpl;
    (destruct (V >? 0);
     [|apply post_ret; split; [exact Hf | apply touches_only_refl]]).
  - intros a s' [=].
  - destruct (buy_sell_indicator order); [| |apply post_raise];
      (apply post_bind; intros bp s1 Hbp;
       pose proof (readonly_best_price_of _ _ s bp s1 Hbp) as ->;
       apply post_bind; intros od s1 Hod;
       pose proof (readonly_price_level _ _ s od s1 Hod) as ->;
       destruct od as [od|], bp as [p|]; try apply post_raise;
       apply post_bind;
       (eapply post_mono; [apply sweep_for_stays, Hf|]);
       intros r s2 [Hf2 Ht2];
       (eapply post_mono; [apply IH, Hf2|]);
       intros a s3 [Hf3 Ht3]; split; [exact Hf3|];
       exact (touches_only_trans _ _ _ _ Ht2 Ht3)).
Qed.

(** X16.  On a book whose orders are filed by their fields, a market
    order, or a marketable limit order, is never posted and never
    disturbs its own side: whenever [add] returns for it, the half-book
    of its side is exactly what it was, whatever was filled on the other
    side. *)
Theorem marketable_order_leaves_its_own_side s order s' :
  filed s →
  mkt_flag order = MktY
  ∨ (mkt_flag order = MktN
     ∧ is_marketable (buy_sell_indicator order) (limit_price order) s
       = Return true s) →
  add order s = Return tt s' →
  book_data (buy_sell_indicator order) s'
  = book_data (buy_sell_indicator order) s
  ∧ filed s'.
Proof.
  intros Hf Hflag Hadd.
  assert (∀ market event,
            sweep market order event s = Return tt s' →
            filed s'
            ∧ touches_only (opposite (buy_sell_indicator order)) s s')
    as Hsweep.
  { intros market event. unfold sweep, bind, get_state.
    apply sweep_while_stays, Hf. }
  unfold add in Hadd.
  apply bind_inv_Return in Hadd as (event & s1 & Hentry & Hadd).
  pose proof (readonly_entry_event _ _ s event s1 Hentry) as ->.
  assert (filed s'
          ∧ touches_only (opposite (buy_sell_indicator order)) s s')
    as [Hf' Ht].
  { destruct Hflag as [Hy | [Hn Hmkt]].
    - rewrite Hy in Hadd. exact (Hsweep _ _ Hadd).
    - rewrite Hn, (bind_Return _ _ _ _ _ Hmkt) in Hadd.
      exact (Hsweep _ _ Hadd). }
  split; [|exact Hf'].
  destruct (buy_sell_indicator order) eqn:Hside;
    [apply Ht; discriminate | apply Ht; discriminate | reflexivity].
Qed.

Lemma marketable_order_leaves_its_own_side_witness :
  filed (state_of bid_and_ask)
  ∧ add (row 3 1 BUY 1 100 100 5000 MktN) (state_of bid_and_ask)
    = Return tt
        (state_of (bid_and_ask ++ [row 3 1 BUY 1 100 100 5000 MktN]))
  ∧ book_data BUY
      (state_of (bid_and_ask ++ [row 3 1 BUY 1 100 100 5000 MktN]))
    = book_data BUY (state_of bid_and_ask)
  ∧ filed (state_of (bid_and_ask ++ [row 3 1 BUY 1 100 100 5000 MktN])).
Proof.
  assert (filed (state_of bid_and_ask)) as Hf
    by exact (process_filed bid_and_ask _ state_of_bid_and_ask).
  assert (add (row 3 1 BUY 1 100 100 5000 MktN) (state_of bid_and_ask)
          = Return tt
              (state_of (bid_and_ask ++ [row 3 1 BUY 1 100 100 5000 MktN])))
    as Hadd by (vm_compute; reflexivity).
  split; [exact Hf|]. split; [exact Hadd|].
  apply (marketable_order_leaves_its_own_side (state_of bid_and_ask)
           (row 3 1 BUY 1 100 100 5000 MktN)
           (state_of (bid_and_ask ++ [row 3 1 BUY 1 100 100 5000 MktN]))).
  - exact Hf.
  - right. split; [reflexivity | vm_compute; reflexivity].
  - exact Hadd.
Defined.

(** * The loops end *)

(** X17.  The [while] loop of [add] ends on every book: each turn that
    does not end the sweep or raise removes a resting order, so one turn
    more than there are resting orders is always enough.  Hence [add],
    [modify], [cancel] and [process] return or raise on every input. *)
Theorem sweep_ends_within_the_resting_orders
    fuel market order event V l df s :
  (resting s < fuel)%nat →
  sweep_while fuel market order event V l s ≠ OutOfFuel
  ∧ add order s ≠ OutOfFuel
  ∧ modify order s ≠ OutOfFuel
  ∧ cancel order s ≠ OutOfFuel
  ∧ process df s ≠ OutOfFuel.
Proof.
  intros Hfuel. split; [apply sweep_while_enough, Hfuel|].
  split; [apply add_total|]. split; [apply modify_total|].
  split; [apply cancel_total | apply process_total].
Qed.

Lemma sweep_ends_within_the_resting_orders_witness :
  (resting (state_of two_asks) < 3)%nat
  ∧ sweep_while 3 false limit_buy_150
      (make_event ActAdd limit_buy_150 None 0 (Some 5000) 100) 150 no_sides
      (state_of two_asks) ≠ OutOfFuel
  ∧ add limit_buy_150 (state_of two_asks) ≠ OutOfFuel
  ∧ modify limit_buy_150 (state_of two_asks) ≠ OutOfFuel
  ∧ cancel limit_buy_150 (state_of two_asks) ≠ OutOfFuel
  ∧ process two_asks (state_of two_asks) ≠ OutOfFuel.
Proof.
  assert (resting (state_of two_asks) < 3)%nat as Hfuel
    by (vm_compute; lia).
  split; [exact Hfuel|].
  exact (sweep_ends_within_the_resting_orders 3 false limit_buy_150
           (make_event ActAdd limit_buy_150 None 0 (Some 5000) 100) 150
           no_sides two_asks (state_of two_asks) Hfuel).
Defined.

(** * What [process] raises *)

Lemma raises_Return {A B} (c : M A) (k : A → M B) s a s1 X :
  c s = Return a s1 → raises (k a) s1 X → raises (bind c k) s X.
Proof.
  intros Hc Hk e s' H. rewrite (bind_Return _ _ _ _ _ Hc) in H.
  exact (Hk e s' H).
Qed.

Lemma raises_returns {A} (c : M A) s a s1 X :
  c s = Return a s1 → raises c s X.
Proof. intros Hc e s' H. rewrite Hc in H. discriminate. Qed.

(** On a book without empty levels a best-price query returns: [None] on
    an empty half-book, and a price with a queue otherwise. *)
Lemma best_price_of_sound ind pick s book :
  (∀ a b, pick a b = a ∨ pick a b = b) →
  no_empty_levels s →
  book_data ind s = Some book →
  (best_price_of ind pick s = Return None s ∧ book = ∅)
  ∨ ∃ best od, best_price_of ind pick s = Return (Some best) s
               ∧ book !! best = Some od.
Proof.
  intros Hpick Hne Hbook.
  pose proof (best_price_of_spec ind pick (λ _ _, True) s book Hpick
                (λ _ _ _ _, Logic.I) Hbook) as H.
  destruct (best_price_of ind pick s) as [[best|] s1|e s1|].
  - destruct H as (-> & (od & Hod & _) & _). right. eauto.
  - destruct H as (-> & ->). left. auto.
  - destruct H as (_ & _ & best & Hod & _).
    pose proof (no_empty_levels_book _ _ _ Hne Hbook _ _ Hod) as Hemp.
    discriminate Hemp.
  - destruct H.
Qed.

(** The loop over a queue never raises on a book whose orders are filed
    by their fields: every key read is still in the queue, and both
    sides of the trade are bound. *)
Lemma sweep_for_returns market side p event keys :
  ∀ V l s,
    no_empty_levels s → filed s → other_bound side l →
    (keys = []
     ∨ ∃ book od, book_data side s = Some book ∧ book !! p = Some od
                  ∧ odict.keys od = keys) →
    ∃ r s', sweep_for market side p event keys V l s = Return r s'
            ∧ no_empty_levels s' ∧ filed s'.
Proof.
  induction keys as [|number keys IH]; intros V l s Hne Hf Hl Hk.
  { exists (V, l), s. auto. }
  destruct Hk as [Hk | (book & od & Hbook & Hod & Hkeys)]; [discriminate|].
  destruct od as [|[k curr] rest]; [discriminate|].
  injection Hkeys as -> Hrest.
  pose proof (book_data_names_side _ _ _ Hbook) as Hside.
  assert (level_getitem side p number s = Return curr s) as Hget.
  { unfold level_getitem. rewrite Hbook, Hod. simpl.
    rewrite Z.eqb_refl. reflexivity. }
  destruct (filed_book _ _ _ Hf Hbook _ _ number curr Hod) as (Hnum & _ & Hcurr);
    [left|].
  set (l' := bind_side (buy_sell_indicator curr) (order_number curr) l).
  assert (other_bound side l') as Hl'
    by (unfold l'; rewrite Hcurr; destruct side; exact Hl).
  assert (∃ b a, buy_order l' = Some b ∧ sell_order l' = Some a)
    as (b & a & Hb & Ha).
  { unfold l'. rewrite Hcurr.
    destruct side; [| |destruct Hl]; destruct Hl as [x Hx]; simpl;
      rewrite Hx; eauto. }
  assert (∀ e, book_data side (write_event e s) = Some book) as Hbook'
    by (intros e; rewrite book_data_write_event; exact Hbook).
  assert (∀ e, no_empty_levels (write_event e s)) as Hne'
    by (intros e; exact (preserves_record_event e s Hne tt _ eq_refl)).
  assert (∀ e, filed (write_event e s)) as Hf'
    by (intros e; exact (filed_record_event e s Hf tt _ eq_refl)).
  rewrite (sweep_for_head market side p event number keys V l s curr b a
             Hget Hb Ha).
  rewrite Hcurr.
  destruct (volume_original curr =? V).
  { unfold bind at 1, record_event at 1.
    match goal with
    | |- context [write_event ?e s] =>
        pose proof (delete_order_head _ _ _ _ _ _ _ (Hbook' e) Hod) as Hdel
    end.
    erewrite (bind_Return _ _ _ _ _ Hdel).
    eexists _, _. split; [reflexivity|]. split.
    - exact (preserves_delete_order _ _ _ _ (Hne' _) tt _ Hdel).
    - exact (filed_delete_order _ _ _ _ (Hf' _) tt _ Hdel). }
  destruct (volume_original curr >? V).
  { unfold bind at 1, record_event at 1.
    match goal with
    | |- context [write_event ?e s] =>
        pose proof (level_setitem_head side p number curr
                      (with_volume_original (volume_original curr - V) curr)
                      rest book _ (Hbook' e) Hod) as Hset
    end.
    erewrite (bind_Return _ _ _ _ _ Hset).
    eexists _, _. split; [reflexivity|]. split.
    - exact (preserves_level_setitem _ _ _ _ _ (Hne' _) tt _ Hset).
    - exact (filed_reduce _ _ _ _ _ _ (Hf' _)
               (level_getitem_write_event _ _ _ _ _ _ Hget) tt _ Hset). }
  unfold bind at 1, record_event at 1.
  match goal with
  | |- context [write_event ?e s] =>
      pose proof (delete_order_head _ _ _ _ _ _ _ (Hbook' e) Hod) as Hdel
  end.
  erewrite (bind_Return _ _ _ _ _ Hdel).
  apply IH.
  - exact (preserves_delete_order _ _ _ _ (Hne' _) tt _ Hdel).
  - exact (filed_delete_order _ _ _ _ (Hf' _) tt _ Hdel).
  - unfold l' in Hl'. rewrite Hcurr in Hl'. exact Hl'.
  - destruct rest as [|kv rest]; [left; symmetry; exact Hrest|].
    right. eexists _, _. split; [apply book_data_set_same, Hside|].
    split; [apply lookup_insert_eq | exact Hrest].
Qed.

(** The [while] loop raises only when a best-price query returns [None]
    (then [price_level] fails in its handler and the other side of the
    book is empty), or when the side of the order is neither ['B'] nor
    ['S'] (then [od] is not bound). *)
Lemma sweep_while_raises fuel market order event :
  ∀ V l s,
    no_empty_levels s → filed s →
    raises (sweep_while fuel market order event V l) s
      (λ e s',
         match buy_sell_indicator order with
         | NoSide => e = UnboundLocalError
         | side => e = TypeError ∧ book_data (opposite side) s' = Some ∅
         end).
Proof.
  induction fuel as [|fuel IH]; intros V l s Hne Hf e s'; simpl;
    (destruct (V >? 0); [|discriminate]); [discriminate|].
  assert (∀ side pick l0,
            side ≠ NoSide → (∀ a b, pick a b = a ∨ pick a b = b) →
            other_bound side l0 →
            (bp <~ best_price_of side pick;
             od <~ price_level side bp;
             match od, bp with
             | Some od, Some p =>
                 r <~ sweep_for market side p event (odict.keys od) V l0;
                 sweep_while fuel market order event r.1 r.2
             | _, _ => raise AttributeError
             end) s = Raise e s' →
            (e = TypeError ∧ book_data side s' = Some ∅)
            ∨ ∃ V1 l1 s1, no_empty_levels s1 ∧ filed s1
                ∧ sweep_while fuel market order event V1 l1 s1
                  = Raise e s') as Hturn.
  { intros side pick l0 Hside Hpick Hl0.
    destruct (book_data side s) as [book|] eqn:Hbook;
      [|destruct side; discriminate || congruence].
    destruct (best_price_of_sound side pick s book Hpick Hne Hbook)
      as [[Hbp ->] | (best & od & Hbp & Hod)];
      rewrite (bind_Return _ _ _ _ _ Hbp).
    - unfold bind, price_level. rewrite Hbook. intros [= <- <-].
      left. auto.
    - assert (price_level side (Some best) s = Return (Some od) s) as Hlevel
        by (unfold price_level; rewrite Hbook, Hod; reflexivity).
      rewrite (bind_Return _ _ _ _ _ Hlevel).
      destruct (sweep_for_returns market side best event (odict.keys od)
                  V l0 s Hne Hf Hl0) as (r & s1 & Hfor & Hne1 & Hf1).
      { right. eauto. }
      rewrite (bind_Return _ _ _ _ _ Hfor). intros H.
      right. eauto 7. }
  destruct (buy_sell_indicator order) eqn:Hind.
  - intros H. apply (Hturn ASK Z.min) in H;
      [|discriminate | apply min_picks | simpl; eauto].
    destruct H as [H | (V1 & l1 & s1 & Hne1 & Hf1 & H)]; [exact H|].
    exact (IH V1 l1 s1 Hne1 Hf1 e s' H).
  - intros H. apply (Hturn BID Z.max) in H;
      [|discriminate | apply max_picks | simpl; eauto].
    destruct H as [H | (V1 & l1 & s1 & Hne1 & Hf1 & H)]; [exact H|].
    exact (IH V1 l1 s1 Hne1 Hf1 e s' H).
  - intros [= <- <-]. reflexivity.
Qed.

Lemma is_marketable_returns ind price s :
  no_empty_levels s → ∃ b, is_marketable ind price s = Return b s.
Proof.
  intros Hne. unfold is_marketable. destruct ind.
  - destruct (best_price_of_returns ASK Z.min s) as [bp Hbp];
      [discriminate | apply min_picks | exact Hne|].
    unfold best_ask_price. rewrite (bind_Return _ _ _ _ _ Hbp). eauto.
  - destruct (best_price_of_returns BID Z.max s) as [bp Hbp];
      [discriminate | apply max_picks | exact Hne|].
    unfold best_bid_price. rewrite (bind_Return _ _ _ _ _ Hbp). eauto.
  - eauto.
Qed.

Lemma sweep_raises market order event s :
  no_empty_levels s → filed s →
  mkt_flag order = MktY ∨ buy_sell_indicator order ≠ NoSide →
  raises (sweep market order event) s (add_raises order).
Proof.
  intros Hne Hf Hcase e s' H. unfold sweep, bind, get_state in H.
  pose proof (sweep_while_raises _ _ _ _ _ _ _ Hne Hf e s' H) as HX.
  unfold add_raises.
  destruct (buy_sell_indicator order);
    [ destruct HX as [-> HX]; split; [discriminate | exact HX]
    | destruct HX as [-> HX]; split; [discriminate | exact HX]
    | subst e; destruct Hcase as [Hy | Hn]; [auto | congruence] ].
Qed.

Lemma add_raises_sound order s :
  no_empty_levels s → filed s → raises (add order) s (add_raises order).
Proof.
  intros Hne Hf e s' H.
  destruct (entry_event_returns s Hne) as (bb & bbv & ba & bav & Hentry).
  destruct (mkt_flag order) eqn:Hflag.
  - unfold add in H.
    rewrite (bind_Return _ _ _ _ _ (Hentry ActAdd order)), Hflag in H.
    exact (sweep_raises _ _ _ _ Hne Hf (or_introl Hflag) e s' H).
  - destruct (is_marketable_returns (buy_sell_indicator order)
                (limit_price order) s Hne) as [[|] Hm].
    + unfold add in H.
      rewrite (bind_Return _ _ _ _ _ (Hentry ActAdd order)), Hflag,
        (bind_Return _ _ _ _ _ Hm) in H.
      change (negb true) with false in H. cbv iota in H.
      refine (sweep_raises _ _ _ _ Hne Hf (or_intror _) e s' H).
      intros Hind. rewrite Hind in Hm. discriminate Hm.
    + destruct (book_data (buy_sell_indicator order) s) as [book|] eqn:Hbook.
      * rewrite (add_posts s order book bb bbv ba bav (Hentry _ _) Hflag
                   Hbook Hm) in H.
        discriminate H.
      * unfold add in H.
        rewrite (bind_Return _ _ _ _ _ (Hentry ActAdd order)), Hflag,
          (bind_Return _ _ _ _ _ Hm) in H.
        change (negb false) with true in H. cbv iota in H.
        unfold bind at 1, price_level in H. rewrite Hbook in H.
        injection H as <- <-. unfold add_raises.
        destruct (buy_sell_indicator order);
          [discriminate Hbook | discriminate Hbook | reflexivity].
  - unfold add in H.
    rewrite (bind_Return _ _ _ _ _ (Hentry ActAdd order)), Hflag in H.
    injection H as <- <-. exact Hflag.
Qed.

Lemma add_raises_row order e s' : add_raises order e s' → row_raises order e s'.
Proof.
  destruct e; simpl; auto.
Qed.

Lemma price_level_sideless {B} order s e s'
    (X : option (odict.t Order) → M B) :
  book_data (buy_sell_indicator order) s = None →
  bind (price_level (buy_sell_indicator order) (Some (limit_price order))) X s
  = Raise e s' →
  e = ValueError ∧ buy_sell_indicator order = NoSide.
Proof.
  intros Hbook. unfold bind, price_level. rewrite Hbook. intros [= <- <-].
  split; [reflexivity|].
  destruct (buy_sell_indicator order);
    [discriminate Hbook | discriminate Hbook | reflexivity].
Qed.

(** [modify] of an order that is not a market order raises only what the
    [add] of the increase raises, or for a side that is neither ['B'] nor
    ['S']. *)
Lemma modify_raises_sound order s :
  no_empty_levels s → filed s → mkt_flag order ≠ MktY →
  raises (modify order) s (row_raises order).
Proof.
  intros Hne Hf Hflag e s' H.
  destruct (entry_event_returns s Hne) as (bb & bbv & ba & bav & Hentry).
  destruct (book_data (buy_sell_indicator order) s) as [book|] eqn:Hbook.
  2:{ unfold modify in H.
      rewrite (bind_Return _ _ _ _ _ (Hentry ActModify order)) in H.
      destruct (mkt_flag order); [congruence | |];
        destruct (price_level_sideless _ _ _ _ _ Hbook H) as [-> Hside];
        right; right; exact Hside. }
  assert (price_level (buy_sell_indicator order)
            (Some (limit_price order)) s
          = Return (book !! limit_price order) s) as Hlevel
    by (unfold price_level; rewrite Hbook; reflexivity).
  destruct (book !! limit_price order) as [od|] eqn:Hod.
  2:{ unfold modify in H.
      rewrite (bind_Return _ _ _ _ _ (Hentry ActModify order)) in H.
      destruct (mkt_flag order); [congruence | |];
        rewrite (bind_Return _ _ _ _ _ Hlevel) in H; discriminate H. }
  destruct (odict.get (order_number order) od) as [old|] eqn:Hget.
  2:{ unfold modify in H.
      rewrite (bind_Return _ _ _ _ _ (Hentry ActModify order)) in H.
      destruct (mkt_flag order); [congruence | |];
        rewrite (bind_Return _ _ _ _ _ Hlevel), Hget in H; discriminate H. }
  destruct (filed_book _ _ _ Hf Hbook _ _ _ _ Hod
              (odict_get_elem_of _ _ _ Hget)) as (_ & Hprice & _).
  rewrite (modify_found s order book od old bb bbv ba bav
             (Hentry _ _) Hflag Hbook Hod Hget (eq_sym Hprice)) in H.
  assert (∀ v, level_setitem (buy_sell_indicator order) (limit_price order)
                 (order_number order) v s
               = Return tt
                   (set_book_data (buy_sell_indicator order)
                      (<[limit_price order :=
                           odict.set (order_number order) v od]> book) s))
    as Hset by (intros v; unfold level_setitem; rewrite Hbook, Hod;
                reflexivity).
  assert (∀ copy,
            buy_sell_indicator copy = buy_sell_indicator order →
            mkt_flag copy = mkt_flag order →
            (add copy >> record_event
                           (make_event ActModify order bb bbv ba bav)) s
            = Raise e s' →
            row_raises order e s') as Hadd.
  { intros copy Hside Hmkt Hraise. unfold bind in Hraise.
    destruct (add copy s) as [[] s1|e1 s1|] eqn:Hcopy;
      [discriminate Hraise | | discriminate Hraise].
    injection Hraise as -> ->.
    pose proof (add_raises_sound copy s Hne Hf e s' Hcopy) as HX.
    apply add_raises_row. unfold add_raises in *.
    rewrite Hside, Hmkt in HX. exact HX. }
  destruct (volume_original order <? volume_original old).
  { rewrite (bind_Return _ _ _ _ _ (Hset _)) in H. discriminate H. }
  destruct (volume_disclosed order <? volume_disclosed old).
  { rewrite (bind_Return _ _ _ _ _ (Hset _)) in H. discriminate H. }
  destruct (volume_original order >? volume_original old).
  { refine (Hadd (with_volume_original _ order) _ _ H); reflexivity. }
  destruct (volume_disclosed order >? volume_disclosed old).
  { refine (Hadd (with_volume_disclosed _ order) _ _ H); reflexivity. }
  discriminate H.
Qed.

(** [cancel] raises only for a market order (line 835) and for a side
    that is neither ['B'] nor ['S'] (line 395). *)
Lemma cancel_raises_sound order s :
  no_empty_levels s →
  raises (cancel order) s
    (λ e _, e = ValueError
            ∧ (mkt_flag order = MktY ∨ buy_sell_indicator order = NoSide)).
Proof.
  intros Hne e s' H.
  destruct (entry_event_returns s Hne) as (bb & bbv & ba & bav & Hentry).
  unfold cancel in H.
  rewrite (bind_Return _ _ _ _ _ (Hentry ActCancel order)) in H.
  destruct (mkt_flag order) eqn:Hflag;
    [injection H as <- <-; auto | |];
    (destruct (book_data (buy_sell_indicator order) s) as [book|] eqn:Hbook;
     [|destruct (price_level_sideless _ _ _ _ _ Hbook H) as [-> Hside];
       auto]);
    (assert (price_level (buy_sell_indicator order)
               (Some (limit_price order)) s
             = Return (book !! limit_price order) s) as Hlevel
       by (unfold price_level; rewrite Hbook; reflexivity));
    rewrite (bind_Return _ _ _ _ _ Hlevel) in H;
    (assert (∀ s1, no_empty_levels s1 →
                   (best_bid_quantity >> best_ask_quantity >>
                    record_event (make_event ActCancel order bb bbv ba bav))
                     s1
                   ≠ Raise e s') as Hrest
       by (intros s1 Hne1;
           destruct (best_quantity_of_returns BID Z.max s1) as [bbq Hbbq];
             [discriminate | apply max_picks | exact Hne1|];
           destruct (best_quantity_of_returns ASK Z.min s1) as [baq Hbaq];
             [discriminate | apply min_picks | exact Hne1|];
           unfold best_bid_quantity, best_ask_quantity;
           rewrite (bind_Return _ _ _ _ _ Hbbq),
             (bind_Return _ _ _ _ _ Hbaq);
           discriminate));
    (destruct (book !! limit_price order) as [od|] eqn:Hod;
     [|destruct (Hrest s Hne H)]);
    (destruct (odict.get (order_number order) od) as [old|] eqn:Hget;
     [|destruct (Hrest s Hne H)]);
    destruct (odict_pop_of_get _ _ _ Hget) as [od' Hpop];
    pose proof (book_data_names_side _ _ _ Hbook) as Hind;
    (assert (∃ s1, delete_order (buy_sell_indicator order)
                     (limit_price order) (order_number order) s
                   = Return tt s1) as [s1 Hdel]
       by (unfold delete_order, delete_level; rewrite Hbook, Hod, Hpop;
           destruct (odict.is_empty od'); [|eauto];
           rewrite book_data_set_same by exact Hind;
           rewrite lookup_insert_eq; eauto));
    unfold bind at 1 in H; rewrite Hdel in H;
    destruct (Hrest s1 (preserves_delete_order _ _ _ s Hne tt s1 Hdel) H).
Qed.

Lemma dispatch_raises_sound order s :
  no_empty_levels s → filed s → raises (dispatch order) s (row_raises order).
Proof.
  intros Hne Hf e s' H. unfold dispatch in H.
  destruct (activity_type order =? 1) eqn:H1.
  { exact (add_raises_row _ _ _ (add_raises_sound order s Hne Hf e s' H)). }
  destruct (activity_type order =? 3) eqn:H3.
  { destruct (cancel_raises_sound order s Hne e s' H) as [-> [Hy | Hside]].
    - right; left. split; [lia | exact Hy].
    - right; right. exact Hside. }
  destruct (activity_type order =? 4) eqn:H4.
  { destruct (mkt_flag order) eqn:Hflag.
    - exact (add_raises_row _ _ _ (add_raises_sound order s Hne Hf e s' H)).
    - apply (modify_raises_sound order s Hne Hf); [congruence | exact H].
    - apply (modify_raises_sound order s Hne Hf); [congruence | exact H]. }
  injection H as <- <-. left. lia.
Qed.

Lemma check_day_sound day order s :
  no_empty_levels s → filed s →
  ∃ day1 s1, check_day day order s = Return day1 s1
             ∧ no_empty_levels s1 ∧ filed s1.
Proof.
  intros Hne Hf. unfold check_day.
  destruct day as [d|]; [|eexists _, _; split; [reflexivity | auto]].
  destruct (negb (d =? date_day (trans_date order)));
    [|eexists _, _; split; [reflexivity | auto]].
  eexists _, _. split; [reflexivity|]. split.
  - exact (preserves_clear_book s Hne tt _ eq_refl).
  - exact (filed_clear_book s Hf tt _ eq_refl).
Qed.

Lemma process_from_raises df :
  ∀ day s,
    no_empty_levels s → filed s →
    raises (process_from day df) s
      (λ e s', ∃ order, order ∈ df ∧ row_raises order e s').
Proof.
  induction df as [|order df IH]; intros day s Hne Hf e s' H; simpl in H;
    [discriminate H|].
  unfold bind at 1 in H.
  destruct (process_row day order s) as [day1 s1|e1 s1|] eqn:Hrow;
    [| |discriminate H].
  - assert (filed s1) as Hf1.
    { apply (filed_process_from [order] day s Hf tt). simpl.
      rewrite (bind_Return _ _ _ _ _ Hrow). reflexivity. }
    destruct (IH day1 s1 (preserves_process_row day order s Hne day1 s1 Hrow)
                Hf1 e s' H) as (o & Ho & HX).
    exists o. split; [right; exact Ho | exact HX].
  - injection H as <- <-. exists order. split; [left|].
    unfold process_row in Hrow.
    destruct (check_day_sound day order s Hne Hf)
      as (day0 & s0 & Hday & Hne0 & Hf0).
    rewrite (bind_Return _ _ _ _ _ Hday) in Hrow. unfold bind in Hrow.
    destruct (dispatch order s0) as [[] s2|e2 s2|] eqn:Hd;
      [discriminate Hrow | | discriminate Hrow].
    injection Hrow as <- <-.
    exact (dispatch_raises_sound order s0 Hne0 Hf0 _ _ Hd).
Qed.

(** X18.  What [process] raises, on a book without empty levels whose
    orders are filed by their fields (a new book is one): the exception
    comes from a row of the stream, and says this about it and about the
    book that is left.  [ValueError]: the activity type is not 1, 3 or 4,
    or the row cancels a market order, or its side is neither ['B'] nor
    ['S'].  [RuntimeError]: the market flag is neither ['Y'] nor ['N'];
    the "empty price level" error of the best-price queries is never
    raised.  [TypeError]: the sweep of the order found the other side of
    the book empty, and that side is empty in the book left behind.
    [UnboundLocalError]: a market order whose side is neither ['B'] nor
    ['S'].  [KeyError] and [AttributeError] are never raised. *)
Theorem process_raises_for_a_row df s e s' :
  no_empty_levels s → filed s →
  process df s = Raise e s' →
  ∃ order,
    order ∈ df
    ∧ match e with
      | ValueError =>
          (activity_type order ≠ 1 ∧ activity_type order ≠ 3
           ∧ activity_type order ≠ 4)
          ∨ (activity_type order = 3 ∧ mkt_flag order = MktY)
          ∨ buy_sell_indicator order = NoSide
      | RuntimeError => mkt_flag order = MktOther
      | TypeError =>
          buy_sell_indicator order ≠ NoSide
          ∧ book_data (opposite (buy_sell_indicator order)) s' = Some ∅
      | UnboundLocalError =>
          buy_sell_indicator order = NoSide ∧ mkt_flag order = MktY
      | KeyError | AttributeError => False
      end.
Proof.
  intros Hne Hf H.
  destruct (process_from_raises df None s Hne Hf e s' H) as (order & Hin & HX).
  exists order. split; [exact Hin|].
  destruct e; exact HX.
Qed.

Lemma process_raises_for_a_row_witness :
  no_empty_levels init ∧ filed init
  ∧ process (one_ask ++ [market_buy_200]) init
    = Raise TypeError (state_of (one_ask ++ [market_buy_200]))
  ∧ ∃ order,
      order ∈ one_ask ++ [market_buy_200]
      ∧ buy_sell_indicator order ≠ NoSide
      ∧ book_data (opposite (buy_sell_indicator order))
          (state_of (one_ask ++ [market_buy_200])) = Some ∅.
Proof.
  assert (process (one_ask ++ [market_buy_200]) init
          = Raise TypeError (state_of (one_ask ++ [market_buy_200]))) as H
    by (vm_compute; reflexivity).
  split; [exact no_empty_levels_init|].
  split; [exact filed_init|].
  split; [exact H|].
  exact (process_raises_for_a_row _ init TypeError _
           no_empty_levels_init filed_init H).
Defined.

(** * A stream handled in two calls *)

Lemma process_row_day day order s day1 s1 :
  process_row day order s = Return day1 s1 →
  day1 = Some (default (date_day (trans_date order)) day).
Proof.
  unfold process_row. intros H.
  destruct (bind_inv_Return _ _ _ _ _ H) as (day0 & s0 & Hday & H0).
  destruct (bind_inv_Return _ _ _ _ _ H0) as ([] & s2 & _ & [= <- _]).
  destruct day as [d|]; [|injection Hday as <- _; reflexivity].
  exact (check_day_keeps d order s day0 s0 Hday).
Qed.

(** The rows of a second part are compared with the day that the first
    row of the stream has set. *)
Lemma process_from_app df1 df2 :
  ∀ day s,
    process_from day (df1 ++ df2) s
    = (process_from day df1 >>
       process_from (match day with
                     | Some d => Some d
                     | None => first_day df1
                     end) df2) s.
Proof.
  induction df1 as [|order df1 IH]; intros day s.
  { destruct day; reflexivity. }
  simpl app. simpl process_from. rewrite bind_assoc_at.
  apply bind_ext_at. intros day1 s1 Hrow.
  rewrite (process_row_day _ _ _ _ _ Hrow), IH.
  destruct day; reflexivity.
Qed.

Lemma process_from_first_day d df s :
  first_day df = Some d → process_from (Some d) df s = process_from None df s.
Proof.
  destruct df as [|order df]; [discriminate|]. intros [= <-].
  simpl. unfold process_row, check_day.
  rewrite Z.eqb_refl. reflexivity.
Qed.

(** X19.  [process] keeps no day between two calls: the first row of each
    call sets the day with which the later rows of that call are
    compared.  So a stream handled in two calls gives what one call on
    the whole stream gives (the same result, book and journals, or the
    same exception) when the second part starts on the day on which the
    first part started. *)
Theorem process_in_two_calls df1 df2 s :
  (df1 ≠ [] → df2 ≠ [] → first_day df1 = first_day df2) →
  process (df1 ++ df2) s = (process df1 >> process df2) s.
Proof.
  intros Hday. unfold process. rewrite process_from_app.
  apply bind_ext_at. intros [] s1 _.
  destruct df2 as [|order2 df2]; [destruct (first_day df1); reflexivity|].
  destruct df1 as [|order1 df1]; [reflexivity|].
  apply process_from_first_day. symmetry. apply Hday; discriminate.
Qed.

Lemma process_in_two_calls_witness :
  (one_ask ≠ [] → [limit_buy_100] ≠ [] →
   first_day one_ask = first_day [limit_buy_100])
  ∧ process (one_ask ++ [limit_buy_100]) init
    = (process one_ask >> process [limit_buy_100]) init.
Proof.
  assert (one_ask ≠ [] → [limit_buy_100] ≠ [] →
          first_day one_ask = first_day [limit_buy_100]) as H
    by (intros _ _; reflexivity).
  split; [exact H|].
  exact (process_in_two_calls one_ask [limit_buy_100] init H).
Defined.
